(** * SenteChainAI: the reputation registry, the lending pool and the badge

    A shallow embedding of the three Solidity contracts
    [CreditScoreRegistry.sol], [LendingPool.sol] and [SenteBadge.sol]
    (with the [MockUSDC] ledger they move value on), and the properties
    of them that the specification states.

    Conventions of the embedding:
    - an unsigned integer ([uint8], [uint256]) is an [N]; Solidity 0.8
      checks its arithmetic, so [+], [-], [*] and [/] are the checked
      operations [add256], [sub256], [mul256], [div256], which revert
      with [Panic] instead of wrapping;
    - an [address] is an [N]; a [mapping(address => V)] is a total function
      [address -> V] (every key holds a value, the zero value by default),
      written with [upd];
    - an external function is a function from the call environment
      ([msg.sender], [block.timestamp]) and the state to a [result]:
      [Ok] with the new state, or [Revert] with the error.  A revert
      discards every write of the call, the writes made in the callee
      contracts included: [transact] keeps the state of before;
    - events are logs outside the contract state and are not modelled. *)

From Stdlib Require Import NArith List String Bool Lia.
Import ListNotations.
Open Scope N_scope.

(** ** Results, errors and checked arithmetic *)

Definition address := N.

Inductive error :=
| Error (reason : string)   (* require(cond, reason) and revert(reason) *)
| Panic (code : N)          (* 0x11 arithmetic overflow, 0x12 division by zero *)
| Custom (name : string).   (* a custom error of an inherited library contract *)

Inductive result (A : Type) :=
| Ok (a : A)
| Revert (e : error).

Arguments Ok {A} a.
Arguments Revert {A} e.

Notation "'do' x <- e ; k" :=
  (match e with Ok x => k | Revert err => Revert err end)
  (at level 10, x pattern, e at level 100, k at level 200).

Definition require (cond : bool) (reason : string) : result unit :=
  if cond then Ok tt else Revert (Error reason).

Definition is_revert {A} (r : result A) : bool :=
  match r with Ok _ => false | Revert _ => true end.

Definition MAX_UINT8 : N := 255.
Definition MAX_UINT256 : N := 2 ^ 256 - 1.

Definition add8 (a b : N) : result N :=
  if a + b <=? MAX_UINT8 then Ok (a + b) else Revert (Panic 17).

Definition add256 (a b : N) : result N :=
  if a + b <=? MAX_UINT256 then Ok (a + b) else Revert (Panic 17).

Definition sub256 (a b : N) : result N :=
  if b <=? a then Ok (a - b) else Revert (Panic 17).

Definition mul256 (a b : N) : result N :=
  if a * b <=? MAX_UINT256 then Ok (a * b) else Revert (Panic 17).

Definition div256 (a b : N) : result N :=
  if b =? 0 then Revert (Panic 18) else Ok (a / b).

(** ** Mappings *)

Definition mapping (V : Type) := address -> V.

Definition upd {V : Type} (m : mapping V) (k : address) (v : V) : mapping V :=
  fun a => if a =? k then v else m a.

(** ** The call environment

    [msg_sender] and [block_timestamp] are Solidity's [msg.sender] and
    [block.timestamp].  [erc721_receiver a] says whether a safe mint to [a]
    passes ERC-721's receiver check: it does for every externally owned
    account, and for a contract when its [onERC721Received] accepts. *)

Record env := mkEnv {
  msg_sender : address;
  block_timestamp : N;
  erc721_receiver : address -> bool
}.

Definition as_sender (a : address) (e : env) : env :=
  mkEnv a (block_timestamp e) (erc721_receiver e).

(** Where the contracts live.  [address(this)] of the pool is
    [pool_address]; the pool's [senteBadge] field is meant to hold
    [badge_address]. *)

Definition pool_address : address := 1001.
Definition badge_address : address := 1002.

(** ** The value ledger (USDC) *)

Module Token.

(** Modelled from the spec: the ERC-20 implementation (OpenZeppelin's
    [ERC20], which [MockUSDC] inherits) is not under src/.  Section 6 of the
    specification gives its interface: [transferFrom(from,to,amount)],
    [transfer(to,amount)] and [balanceOf(holder)] with the standard
    fail-on-insufficient-funds behaviour; [approve] and the allowance are
    ERC-20's. *)
Record State := mkState {
  balances : mapping N;
  allowances : address -> address -> N;
  totalSupply : N
}.

Definition balanceOf (s : State) (a : address) : N := balances s a.

Definition move (from to : address) (value : N) (s : State) : result State :=
  if balances s from <? value then Revert (Custom "ERC20InsufficientBalance")
  else
    let b := upd (balances s) from (balances s from - value) in
    Ok (mkState (upd b to (b to + value)) (allowances s) (totalSupply s)).

Definition transfer (e : env) (to : address) (value : N) (s : State)
  : result State :=
  move (msg_sender e) to value s.

Definition approve (e : env) (spender : address) (value : N) (s : State)
  : result State :=
  Ok (mkState (balances s)
        (fun o sp => if (o =? msg_sender e) && (sp =? spender) then value
                     else allowances s o sp)
        (totalSupply s)).

Definition transferFrom (e : env) (from to : address) (value : N) (s : State)
  : result State :=
  let spender := msg_sender e in
  let a := allowances s from spender in
  if a <? value then Revert (Custom "ERC20InsufficientAllowance")
  else
    let al := if a =? MAX_UINT256 then allowances s
              else fun o sp => if (o =? from) && (sp =? spender) then a - value
                               else allowances s o sp in
    move from to value (mkState (balances s) al (totalSupply s)).

(** [MockUSDC.mint]: anyone mints test tokens to anyone. *)
Definition mint (e : env) (to : address) (amount : N) (s : State)
  : result State :=
  do t <- add256 (totalSupply s) amount;
  Ok (mkState (upd (balances s) to (balances s to + amount)) (allowances s) t).

(** [MockUSDC]'s constructor mints one million USDC to the deployer. *)
Definition init (deployer : address) : State :=
  mkState (upd (fun _ => 0) deployer (1000000 * 10 ^ 6)) (fun _ _ => 0)
    (1000000 * 10 ^ 6).

End Token.

(** ** CreditScoreRegistry.sol *)

Module Registry.

Definition MIN_SCORE : N := 0.
Definition MAX_SCORE : N := 100.
Definition DEFAULT_SCORE : N := 50.

Record CreditProfile := mkProfile {
  score : N;
  lastUpdated : N;
  totalLoans : N;
  successfulRepayments : N;
  defaultedLoans : N;
  isActive : bool
}.

Inductive role := DEFAULT_ADMIN_ROLE | ORACLE_ROLE.

Definition role_eqb (a b : role) : bool :=
  match a, b with
  | DEFAULT_ADMIN_ROLE, DEFAULT_ADMIN_ROLE => true
  | ORACLE_ROLE, ORACLE_ROLE => true
  | _, _ => false
  end.

Record State := mkState {
  creditProfiles : mapping CreditProfile;
  roles : role -> address -> bool
}.

Definition set_profile (s : State) (user : address) (p : CreditProfile) : State :=
  mkState (upd (creditProfiles s) user p) (roles s).

(** Modelled from the spec: OpenZeppelin's [AccessControl] is not under
    src/.  Section 4.1: every mutating operation is restricted to the
    authorized oracle principals, which are granted administratively, and an
    unauthorized caller fails with [Unauthorized]. *)
Definition onlyRole (r : role) (e : env) (s : State) : result unit :=
  if roles s r (msg_sender e) then Ok tt
  else Revert (Custom "AccessControlUnauthorizedAccount").

Definition set_role (r : role) (account : address) (b : bool) (s : State)
  : State :=
  mkState (creditProfiles s)
    (fun r' a => if role_eqb r' r && (a =? account) then b else roles s r' a).

Definition grantRole (e : env) (r : role) (account : address) (s : State)
  : result State :=
  do _ <- onlyRole DEFAULT_ADMIN_ROLE e s;
  Ok (set_role r account true s).

Definition revokeRole (e : env) (r : role) (account : address) (s : State)
  : result State :=
  do _ <- onlyRole DEFAULT_ADMIN_ROLE e s;
  Ok (set_role r account false s).

Definition renounceRole (e : env) (r : role) (callerConfirmation : address)
  (s : State) : result State :=
  if callerConfirmation =? msg_sender e
  then Ok (set_role r callerConfirmation false s)
  else Revert (Custom "AccessControlBadConfirmation").

(** The constructor grants both roles to the deployer. *)
Definition init (deployer : address) : State :=
  mkState (fun _ => mkProfile 0 0 0 0 0 false)
          (fun _ a => a =? deployer).

Definition createProfile (e : env) (user : address) (initialScore : N)
  (s : State) : result State :=
  do _ <- onlyRole ORACLE_ROLE e s;
  do _ <- require (negb (isActive (creditProfiles s user)))
            "Profile already exists";
  do _ <- require ((MIN_SCORE <=? initialScore) && (initialScore <=? MAX_SCORE))
            "Invalid score";
  Ok (set_profile s user
        (mkProfile initialScore (block_timestamp e) 0 0 0 true)).

(** [updateScore] hands an absent profile over to [createProfile], in the
    same call frame (same [msg.sender]). *)
Definition updateScore (e : env) (user : address) (newScore : N) (s : State)
  : result State :=
  do _ <- onlyRole ORACLE_ROLE e s;
  do _ <- require ((MIN_SCORE <=? newScore) && (newScore <=? MAX_SCORE))
            "Invalid score";
  let p := creditProfiles s user in
  if negb (isActive p) then createProfile e user newScore s
  else
    Ok (set_profile s user
          (mkProfile newScore (block_timestamp e) (totalLoans p)
             (successfulRepayments p) (defaultedLoans p) (isActive p))).

Definition recordLoan (e : env) (user : address) (s : State) : result State :=
  do _ <- onlyRole ORACLE_ROLE e s;
  let p := creditProfiles s user in
  do _ <- require (isActive p) "Profile does not exist";
  do n <- add256 (totalLoans p) 1;
  Ok (set_profile s user
        (mkProfile (score p) (lastUpdated p) n (successfulRepayments p)
           (defaultedLoans p) (isActive p))).

Definition recordRepayment (e : env) (user : address) (s : State)
  : result State :=
  do _ <- onlyRole ORACLE_ROLE e s;
  let p := creditProfiles s user in
  do _ <- require (isActive p) "Profile does not exist";
  do n <- add256 (successfulRepayments p) 1;
  let currentScore := score p in
  let improvement := 2 in
  if currentScore <? MAX_SCORE then
    do sum <- add8 currentScore improvement;
    let newScore := if MAX_SCORE <? sum then MAX_SCORE else sum in
    Ok (set_profile s user
          (mkProfile newScore (block_timestamp e) (totalLoans p) n
             (defaultedLoans p) (isActive p)))
  else
    Ok (set_profile s user
          (mkProfile (score p) (lastUpdated p) (totalLoans p) n
             (defaultedLoans p) (isActive p))).

Definition recordDefault (e : env) (user : address) (s : State)
  : result State :=
  do _ <- onlyRole ORACLE_ROLE e s;
  let p := creditProfiles s user in
  do _ <- require (isActive p) "Profile does not exist";
  do n <- add256 (defaultedLoans p) 1;
  let currentScore := score p in
  let penalty := 15 in
  if MIN_SCORE <? currentScore then
    let newScore := if penalty <? currentScore then currentScore - penalty
                    else MIN_SCORE in
    Ok (set_profile s user
          (mkProfile newScore (block_timestamp e) (totalLoans p)
             (successfulRepayments p) n (isActive p)))
  else
    Ok (set_profile s user
          (mkProfile (score p) (lastUpdated p) (totalLoans p)
             (successfulRepayments p) n (isActive p))).

Definition getScore (s : State) (user : address) : N :=
  if negb (isActive (creditProfiles s user)) then DEFAULT_SCORE
  else score (creditProfiles s user).

Definition getProfile (s : State) (user : address) : CreditProfile :=
  creditProfiles s user.

Definition isEligibleForLoan (s : State) (user : address) (minScore : N)
  : bool :=
  if negb (isActive (creditProfiles s user)) then minScore <=? DEFAULT_SCORE
  else minScore <=? score (creditProfiles s user).

Definition getRepaymentRate (s : State) (user : address) : result N :=
  let p := creditProfiles s user in
  if negb (isActive p) || (totalLoans p =? 0) then Ok 0
  else
    do x <- mul256 (successfulRepayments p) 100;
    div256 x (totalLoans p).

End Registry.

(** ** SenteBadge.sol *)

Module Badge.

Record BadgeData := mkBadgeData {
  creditScore : N;
  repaymentsCount : N;
  mintedAt : N;
  tier : string
}.

(** Modelled from the spec: the base contracts of [SenteBadge]
    (OpenZeppelin's [ERC721] and [Ownable]) are not under src/.  Section 3:
    a credential is never transferable and never duplicated; section 4.3:
    minting is for the pool or an administrative principal.  [owners] and
    [erc_balances] are ERC-721's ledger ([_owners], [_balances]), [owner] is
    the administrative principal.  The token URI, a metadata string built
    from the tier and the score, is left out. *)
Record State := mkState {
  nextTokenId : N;
  badges : N -> BadgeData;
  hasBadge : mapping bool;
  authorizedMinters : mapping bool;
  owner : address;
  owners : N -> address;
  erc_balances : mapping N
}.

(** The constructor: token ids start from 1. *)
Definition init (deployer : address) : State :=
  mkState 1 (fun _ => mkBadgeData 0 0 0 "") (fun _ => false) (fun _ => false)
    deployer (fun _ => 0) (fun _ => 0).

(** Modelled from the spec: [Ownable]'s modifier is not under src/; an
    unauthorized caller fails (section 4.3). *)
Definition onlyOwner (e : env) (s : State) : result unit :=
  if msg_sender e =? owner s then Ok tt
  else Revert (Custom "OwnableUnauthorizedAccount").

Definition setAuthorizedMinter (e : env) (minter : address) (authorized : bool)
  (s : State) : result State :=
  do _ <- onlyOwner e s;
  do _ <- require (negb (minter =? 0)) "Invalid minter address";
  Ok (mkState (nextTokenId s) (badges s) (hasBadge s)
        (upd (authorizedMinters s) minter authorized) (owner s) (owners s)
        (erc_balances s)).

Definition transferOwnership (e : env) (newOwner : address) (s : State)
  : result State :=
  do _ <- onlyOwner e s;
  if newOwner =? 0 then Revert (Custom "OwnableInvalidOwner")
  else Ok (mkState (nextTokenId s) (badges s) (hasBadge s)
             (authorizedMinters s) newOwner (owners s) (erc_balances s)).

Definition renounceOwnership (e : env) (s : State) : result State :=
  do _ <- onlyOwner e s;
  Ok (mkState (nextTokenId s) (badges s) (hasBadge s) (authorizedMinters s) 0
        (owners s) (erc_balances s)).

Definition _determineTier (creditScore repaymentsCount : N) : string :=
  if (90 <=? creditScore) && (10 <=? repaymentsCount) then "Platinum"
  else if (80 <=? creditScore) && (7 <=? repaymentsCount) then "Gold"
  else if (70 <=? creditScore) && (5 <=? repaymentsCount) then "Silver"
  else "Bronze".

Definition balanceOf (s : State) (a : address) : N := erc_balances s a.

Definition hasSenteBadge (s : State) (a : address) : bool := hasBadge s a.

(** The soulbound override of ERC-721's [_update]: a token moves only from
    or to the zero address; then ERC-721's own [_update], which checks the
    authority of [auth] when it is not the zero address.  No approval ever
    exists (both approval functions revert), so [auth] is authorized exactly
    when it owns the token.  Returns the previous owner. *)
Definition _update (to : address) (tokenId : N) (auth : address) (s : State)
  : result (address * State) :=
  let from := owners s tokenId in
  do _ <- require ((from =? 0) || (to =? 0))
            "SenteBadge: Soulbound token cannot be transferred";
  if negb (auth =? 0) && negb (from =? auth)
  then Revert (Custom (if from =? 0 then "ERC721NonexistentToken"
                       else "ERC721InsufficientApproval"))
  else
    let b1 := if from =? 0 then erc_balances s
              else upd (erc_balances s) from (erc_balances s from - 1) in
    let b2 := if to =? 0 then b1 else upd b1 to (b1 to + 1) in
    Ok (from, mkState (nextTokenId s) (badges s) (hasBadge s)
                (authorizedMinters s) (owner s)
                (fun t => if t =? tokenId then to else owners s t) b2).

(** Modelled from the spec: ERC-721's [_safeMint] is not under src/.
    It runs [_update] from the zero address, refuses a token that had an
    owner, and then asks the receiver. *)
Definition _safeMint (e : env) (to : address) (tokenId : N) (s : State)
  : result State :=
  if to =? 0 then Revert (Custom "ERC721InvalidReceiver")
  else
    do (previousOwner, s1) <- _update to tokenId 0 s;
    if negb (previousOwner =? 0) then Revert (Custom "ERC721InvalidSender")
    else if erc721_receiver e to then Ok s1
    else Revert (Custom "ERC721InvalidReceiver").

Definition mintBadge (e : env) (to : address) (creditScore repaymentsCount : N)
  (s : State) : result (N * State) :=
  do _ <- require (authorizedMinters s (msg_sender e) || (msg_sender e =? owner s))
            "Not authorized to mint";
  do _ <- require (negb (to =? 0)) "Cannot mint to zero address";
  do _ <- require (negb (hasBadge s to)) "Address already has a badge";
  do _ <- require (60 <=? creditScore) "Credit score too low";
  let tokenId := nextTokenId s in
  do next <- add256 (nextTokenId s) 1;
  let tier := _determineTier creditScore repaymentsCount in
  let s1 := mkState next
              (fun t => if t =? tokenId
                        then mkBadgeData creditScore repaymentsCount
                               (block_timestamp e) tier
                        else badges s t)
              (hasBadge s) (authorizedMinters s) (owner s) (owners s)
              (erc_balances s) in
  do s2 <- _safeMint e to tokenId s1;
  Ok (tokenId,
      mkState (nextTokenId s2) (badges s2) (upd (hasBadge s2) to true)
        (authorizedMinters s2) (owner s2) (owners s2) (erc_balances s2)).

(** Modelled from the spec: ERC-721's [transferFrom] is not under src/;
    section 4.3: any attempted transfer fails explicitly.  It reaches
    [_update] with the caller as [auth]. *)
Definition transferFrom (e : env) (from to : address) (tokenId : N) (s : State)
  : result State :=
  if to =? 0 then Revert (Custom "ERC721InvalidReceiver")
  else
    do (previousOwner, s1) <- _update to tokenId (msg_sender e) s;
    if negb (previousOwner =? from) then Revert (Custom "ERC721IncorrectOwner")
    else Ok s1.

(** Both approvals revert outright. *)
Definition approve (e : env) (to : address) (tokenId : N) (s : State)
  : result State :=
  Revert (Error "SenteBadge: Soulbound token cannot be approved").

Definition setApprovalForAll (e : env) (operator : address) (approved : bool)
  (s : State) : result State :=
  Revert (Error "SenteBadge: Soulbound token cannot be approved").

End Badge.

(** ** LendingPool.sol

    The [nonReentrant] guard of the pool's functions is left out: neither
    the token nor the badge of this model calls back into the pool, so a
    call never finds another one in progress. *)

Module Pool.

Definition INTEREST_RATE : N := 10.
Definition MIN_CREDIT_SCORE : N := 60.
Definition MAX_LOAN_AMOUNT : N := 1000 * 10 ^ 6.
Definition MIN_LOAN_AMOUNT : N := 10 * 10 ^ 6.
Definition LOAN_DURATION : N := 30 * 86400.
Definition REPAYMENT_GRACE_PERIOD : N := 7 * 86400.

Record Loan := mkLoan {
  amount : N;
  interestAmount : N;
  startTime : N;
  dueDate : N;
  isActive : bool;
  isRepaid : bool;
  borrower : address
}.

Record LenderInfo := mkLender {
  deposited : N;
  interestEarned : N;
  lastDepositTime : N
}.

Record State := mkState {
  totalDeposits : N;
  totalBorrowed : N;
  totalRepaid : N;
  lenders : mapping LenderInfo;
  borrowerLoans : mapping (list Loan);
  activeLoanCount : mapping N;
  senteBadge : address;
  owner : address
}.

(** The pool calls into the token, the registry and the badge, so its
    functions run on the state of all four contracts. *)
Record World := mkWorld {
  usdcToken : Token.State;
  creditRegistry : Registry.State;
  badge : Badge.State;
  pool : State
}.

(** The three states of a loan, as the two flags encode them. *)
Inductive Status := Active | Repaid | Defaulted.

Definition status (l : Loan) : Status :=
  if isActive l then Active else if isRepaid l then Repaid else Defaulted.

(** [a[i] = x] on a storage array. *)
Fixpoint set_nth {A : Type} (l : list A) (i : nat) (x : A) : list A :=
  match l, i with
  | [], _ => []
  | _ :: t, O => x :: t
  | h :: t, S j => h :: set_nth t j x
  end.

Definition init (deployer : address) : State :=
  mkState 0 0 0 (fun _ => mkLender 0 0 0) (fun _ => []) (fun _ => 0) 0 deployer.

(** Modelled from the spec: [Ownable]'s modifier is not under src/; the
    administrative calls of the pool are for its owner. *)
Definition onlyOwner (e : env) (w : World) : result unit :=
  if msg_sender e =? owner (pool w) then Ok tt
  else Revert (Custom "OwnableUnauthorizedAccount").

Definition set_pool (w : World) (p : State) : World :=
  mkWorld (usdcToken w) (creditRegistry w) (badge w) p.

Definition setSenteBadge (e : env) (_senteBadge : address) (w : World)
  : result World :=
  do _ <- onlyOwner e w;
  do _ <- require (negb (_senteBadge =? 0)) "Invalid badge address";
  let p := pool w in
  Ok (set_pool w
        (mkState (totalDeposits p) (totalBorrowed p) (totalRepaid p) (lenders p)
           (borrowerLoans p) (activeLoanCount p) _senteBadge (owner p))).

Definition transferOwnership (e : env) (newOwner : address) (w : World)
  : result World :=
  do _ <- onlyOwner e w;
  if newOwner =? 0 then Revert (Custom "OwnableInvalidOwner")
  else
    let p := pool w in
    Ok (set_pool w
          (mkState (totalDeposits p) (totalBorrowed p) (totalRepaid p)
             (lenders p) (borrowerLoans p) (activeLoanCount p) (senteBadge p)
             newOwner)).

Definition renounceOwnership (e : env) (w : World) : result World :=
  do _ <- onlyOwner e w;
  let p := pool w in
  Ok (set_pool w
        (mkState (totalDeposits p) (totalBorrowed p) (totalRepaid p) (lenders p)
           (borrowerLoans p) (activeLoanCount p) (senteBadge p) 0)).

Definition getAvailableLiquidity (w : World) : N :=
  Token.balanceOf (usdcToken w) pool_address.

Definition deposit (e : env) (amount : N) (w : World) : result World :=
  do _ <- require (0 <? amount) "Amount must be greater than 0";
  let sender := msg_sender e in
  do t <- Token.transferFrom (as_sender pool_address e) sender pool_address
            amount (usdcToken w);
  let p := pool w in
  let l := lenders p sender in
  do d <- add256 (deposited l) amount;
  do td <- add256 (totalDeposits p) amount;
  Ok (mkWorld t (creditRegistry w) (badge w)
        (mkState td (totalBorrowed p) (totalRepaid p)
           (upd (lenders p) sender
              (mkLender d (interestEarned l) (block_timestamp e)))
           (borrowerLoans p) (activeLoanCount p) (senteBadge p) (owner p))).

Definition withdraw (e : env) (amount : N) (w : World) : result World :=
  do _ <- require (0 <? amount) "Amount must be greater than 0";
  let sender := msg_sender e in
  let p := pool w in
  let l := lenders p sender in
  do _ <- require (amount <=? deposited l) "Insufficient balance";
  let availableLiquidity := getAvailableLiquidity w in
  do _ <- require (amount <=? availableLiquidity) "Insufficient pool liquidity";
  do d <- sub256 (deposited l) amount;
  do td <- sub256 (totalDeposits p) amount;
  do t <- Token.transfer (as_sender pool_address e) sender amount (usdcToken w);
  Ok (mkWorld t (creditRegistry w) (badge w)
        (mkState td (totalBorrowed p) (totalRepaid p)
           (upd (lenders p) sender
              (mkLender d (interestEarned l) (lastDepositTime l)))
           (borrowerLoans p) (activeLoanCount p) (senteBadge p) (owner p))).

(** The interest tier of a score, then [(amount * rate) / 100]. *)
Definition rateOf (creditScore : N) : N :=
  if 91 <=? creditScore then 5
  else if 81 <=? creditScore then 6
  else if 71 <=? creditScore then 8
  else 10.

Definition calculateInterest (amount creditScore : N) : result N :=
  let rate := rateOf creditScore in
  do x <- mul256 amount rate;
  div256 x 100.

Definition requestLoan (e : env) (amount : N) (w : World) : result World :=
  do _ <- require (MIN_LOAN_AMOUNT <=? amount) "Amount too low";
  do _ <- require (amount <=? MAX_LOAN_AMOUNT) "Amount exceeds maximum";
  let sender := msg_sender e in
  let p := pool w in
  do _ <- require (activeLoanCount p sender =? 0) "Active loan exists";
  let creditScore := Registry.getScore (creditRegistry w) sender in
  do _ <- require (MIN_CREDIT_SCORE <=? creditScore) "Credit score too low";
  let availableLiquidity := getAvailableLiquidity w in
  do _ <- require (amount <=? availableLiquidity) "Insufficient pool liquidity";
  do interestAmount <- calculateInterest amount creditScore;
  do dueDate <- add256 (block_timestamp e) LOAN_DURATION;
  let newLoan := mkLoan amount interestAmount (block_timestamp e) dueDate
                   true false sender in
  do c <- add256 (activeLoanCount p sender) 1;
  do tb <- add256 (totalBorrowed p) amount;
  do r <- Registry.recordLoan (as_sender pool_address e) sender
            (creditRegistry w);
  do t <- Token.transfer (as_sender pool_address e) sender amount (usdcToken w);
  Ok (mkWorld t r (badge w)
        (mkState (totalDeposits p) tb (totalRepaid p) (lenders p)
           (upd (borrowerLoans p) sender (borrowerLoans p sender ++ [newLoan]))
           (upd (activeLoanCount p) sender c) (senteBadge p) (owner p))).

(** The badge check that ends a repayment.  A call to [senteBadge] runs
    the code at that address: the badge contract when the field holds
    [badge_address], and nothing (the call reverts) at any other address. *)
Definition _checkAndMintBadge (e : env) (borrower : address) (w : World)
  : result World :=
  if senteBadge (pool w) =? 0 then Ok w
  else if negb (senteBadge (pool w) =? badge_address)
  then Revert (Custom "call to an address without SenteBadge code")
  else if 0 <? Badge.balanceOf (badge w) borrower then Ok w
  else
    let profile := Registry.getProfile (creditRegistry w) borrower in
    if (3 <=? Registry.successfulRepayments profile)
       && (Registry.defaultedLoans profile =? 0)
    then
      do (tokenId, b) <- Badge.mintBadge (as_sender pool_address e) borrower
                           (Registry.score profile)
                           (Registry.successfulRepayments profile) (badge w);
      Ok (mkWorld (usdcToken w) (creditRegistry w) b (pool w))
    else Ok w.

(** The writes of the branch [if (isPastGracePeriod)] of [repayLoan], up to
    its closing [revert]: the loan goes inactive, the borrower's count of
    active loans goes down and the registry records the default. *)
Definition markDefaulted (e : env) (loanId : N) (loan : Loan) (w : World)
  : result World :=
  let sender := msg_sender e in
  let p := pool w in
  let loan' := mkLoan (amount loan) (interestAmount loan) (startTime loan)
                 (dueDate loan) false (isRepaid loan) (borrower loan) in
  do c <- sub256 (activeLoanCount p sender) 1;
  do r <- Registry.recordDefault (as_sender pool_address e) sender
            (creditRegistry w);
  Ok (mkWorld (usdcToken w) r (badge w)
        (mkState (totalDeposits p) (totalBorrowed p) (totalRepaid p) (lenders p)
           (upd (borrowerLoans p) sender
              (set_nth (borrowerLoans p sender) (N.to_nat loanId) loan'))
           (upd (activeLoanCount p) sender c) (senteBadge p) (owner p))).

Definition repayLoan (e : env) (loanId : N) (w : World) : result World :=
  let sender := msg_sender e in
  let p := pool w in
  let loans := borrowerLoans p sender in
  do _ <- require (loanId <? N.of_nat (List.length loans)) "Invalid loan ID";
  match nth_error loans (N.to_nat loanId) with
  | None => Revert (Panic 50)
  | Some loan =>
    do _ <- require (isActive loan) "Loan not active";
    do _ <- require (negb (isRepaid loan)) "Loan already repaid";
    do _ <- require (borrower loan =? sender) "Not loan owner";
    do totalRepayment <- add256 (amount loan) (interestAmount loan);
    do deadline <- add256 (dueDate loan) REPAYMENT_GRACE_PERIOD;
    let isPastGracePeriod := deadline <? block_timestamp e in
    if isPastGracePeriod then
      do _ <- markDefaulted e loanId loan w;
      Revert (Error "Loan defaulted - past grace period")
    else
      do t <- Token.transferFrom (as_sender pool_address e) sender pool_address
                totalRepayment (usdcToken w);
      let loan' := mkLoan (amount loan) (interestAmount loan) (startTime loan)
                     (dueDate loan) false true (borrower loan) in
      do c <- sub256 (activeLoanCount p sender) 1;
      do tr <- add256 (totalRepaid p) totalRepayment;
      do r <- Registry.recordRepayment (as_sender pool_address e) sender
                (creditRegistry w);
      _checkAndMintBadge e sender
        (mkWorld t r (badge w)
           (mkState (totalDeposits p) (totalBorrowed p) tr (lenders p)
              (upd (borrowerLoans p) sender
                 (set_nth loans (N.to_nat loanId) loan'))
              (upd (activeLoanCount p) sender c) (senteBadge p) (owner p)))
  end.

Definition getBorrowerLoans (w : World) (borrower : address) : list Loan :=
  borrowerLoans (pool w) borrower.

Definition getLenderInfo (w : World) (lender : address) : LenderInfo :=
  lenders (pool w) lender.

Definition getUtilizationRate (w : World) : result N :=
  let p := pool w in
  if totalDeposits p =? 0 then Ok 0
  else
    do currentBorrowed <- sub256 (totalBorrowed p) (totalRepaid p);
    do x <- mul256 currentBorrowed 100;
    div256 x (totalDeposits p).

Definition emergencyWithdraw (e : env) (amount : N) (w : World)
  : result World :=
  do _ <- onlyOwner e w;
  do _ <- require (amount <=? getAvailableLiquidity w) "Insufficient balance";
  do t <- Token.transfer (as_sender pool_address e) (owner (pool w)) amount
            (usdcToken w);
  Ok (mkWorld t (creditRegistry w) (badge w) (pool w)).

End Pool.

(** ** The deployed system: transactions and executions *)

Module System.

Import Pool.

(** A transaction is one external call, by [msg_sender], of a function of
    one of the four contracts. *)
Inductive call :=
(* CreditScoreRegistry *)
| CreateProfile (user : address) (initialScore : N)
| UpdateScore (user : address) (newScore : N)
| RecordLoan (user : address)
| RecordRepayment (user : address)
| RecordDefault (user : address)
| GrantRole (r : Registry.role) (account : address)
| RevokeRole (r : Registry.role) (account : address)
| RenounceRole (r : Registry.role) (callerConfirmation : address)
(* SenteBadge *)
| SetAuthorizedMinter (minter : address) (authorized : bool)
| MintBadge (to : address) (creditScore repaymentsCount : N)
| BadgeTransferFrom (from to : address) (tokenId : N)
| BadgeApprove (to : address) (tokenId : N)
| BadgeSetApprovalForAll (operator : address) (approved : bool)
| BadgeTransferOwnership (newOwner : address)
| BadgeRenounceOwnership
(* LendingPool *)
| SetSenteBadge (_senteBadge : address)
| Deposit (amount : N)
| Withdraw (amount : N)
| RequestLoan (amount : N)
| RepayLoan (loanId : N)
| EmergencyWithdraw (amount : N)
| PoolTransferOwnership (newOwner : address)
| PoolRenounceOwnership
(* MockUSDC *)
| TokenTransfer (to : address) (value : N)
| TokenApprove (spender : address) (value : N)
| TokenTransferFrom (from to : address) (value : N)
| TokenMint (to : address) (amount : N).

Definition in_token (f : Token.State -> result Token.State) (w : World)
  : result World :=
  do t <- f (usdcToken w);
  Ok (mkWorld t (creditRegistry w) (badge w) (pool w)).

Definition in_registry (f : Registry.State -> result Registry.State)
  (w : World) : result World :=
  do r <- f (creditRegistry w);
  Ok (mkWorld (usdcToken w) r (badge w) (pool w)).

Definition in_badge (f : Badge.State -> result Badge.State) (w : World)
  : result World :=
  do b <- f (badge w);
  Ok (mkWorld (usdcToken w) (creditRegistry w) b (pool w)).

Definition exec (e : env) (c : call) (w : World) : result World :=
  match c with
  | CreateProfile user initialScore =>
      in_registry (Registry.createProfile e user initialScore) w
  | UpdateScore user newScore =>
      in_registry (Registry.updateScore e user newScore) w
  | RecordLoan user => in_registry (Registry.recordLoan e user) w
  | RecordRepayment user => in_registry (Registry.recordRepayment e user) w
  | RecordDefault user => in_registry (Registry.recordDefault e user) w
  | GrantRole r account => in_registry (Registry.grantRole e r account) w
  | RevokeRole r account => in_registry (Registry.revokeRole e r account) w
  | RenounceRole r account => in_registry (Registry.renounceRole e r account) w
  | SetAuthorizedMinter minter authorized =>
      in_badge (Badge.setAuthorizedMinter e minter authorized) w
  | MintBadge to creditScore repaymentsCount =>
      in_badge (fun b => do (_, b') <- Badge.mintBadge e to creditScore
                                         repaymentsCount b;
                         Ok b') w
  | BadgeTransferFrom from to tokenId =>
      in_badge (Badge.transferFrom e from to tokenId) w
  | BadgeApprove to tokenId => in_badge (Badge.approve e to tokenId) w
  | BadgeSetApprovalForAll operator approved =>
      in_badge (Badge.setApprovalForAll e operator approved) w
  | BadgeTransferOwnership newOwner =>
      in_badge (Badge.transferOwnership e newOwner) w
  | BadgeRenounceOwnership => in_badge (Badge.renounceOwnership e) w
  | SetSenteBadge a => setSenteBadge e a w
  | Deposit amount => deposit e amount w
  | Withdraw amount => withdraw e amount w
  | RequestLoan amount => requestLoan e amount w
  | RepayLoan loanId => repayLoan e loanId w
  | EmergencyWithdraw amount => emergencyWithdraw e amount w
  | PoolTransferOwnership newOwner => Pool.transferOwnership e newOwner w
  | PoolRenounceOwnership => Pool.renounceOwnership e w
  | TokenTransfer to value => in_token (Token.transfer e to value) w
  | TokenApprove spender value => in_token (Token.approve e spender value) w
  | TokenTransferFrom from to value =>
      in_token (Token.transferFrom e from to value) w
  | TokenMint to amount => in_token (Token.mint e to amount) w
  end.

(** What the caller sees of a transaction. *)
Inductive outcome :=
| Success
| Failure (err : error).

(** The transaction semantics of the chain: a call that reverts leaves the
    state it found. *)
Definition transact (f : World -> result World) (w : World)
  : World * outcome :=
  match f w with
  | Ok w' => (w', Success)
  | Revert err => (w, Failure err)
  end.

Definition step (e : env) (c : call) (w : World) : World :=
  fst (transact (exec e c) w).

Definition run (tr : list (env * call)) (w : World) : World :=
  fold_left (fun w ec => step (fst ec) (snd ec) w) tr w.

(** The state the deployment script leaves: one [deployer] constructs the
    four contracts. *)
Definition genesis (deployer : address) : World :=
  mkWorld (Token.init deployer) (Registry.init deployer) (Badge.init deployer)
    (Pool.init deployer).

(** The states that executions made of calls in [P] reach.  No transaction
    comes from the zero address. *)
Inductive reachable_by (P : call -> Prop) (deployer : address)
  : World -> Prop :=
| reach_genesis : reachable_by P deployer (genesis deployer)
| reach_step w e c :
    reachable_by P deployer w -> msg_sender e <> 0 -> P c ->
    reachable_by P deployer (step e c w).

Definition reachable : address -> World -> Prop :=
  reachable_by (fun _ => True).

(** The calls of an execution in which the loan events of the registry come
    from the lending pool alone: nobody calls [recordLoan],
    [recordRepayment] or [recordDefault] directly. *)
Definition pool_reported (c : call) : Prop :=
  match c with
  | RecordLoan _ | RecordRepayment _ | RecordDefault _ => False
  | _ => True
  end.

End System.

(** ** Properties, as predicates on states *)

Module Props.

Import Pool System.

(** The interest schedule in the words of the specification:
    score >= 91 -> 5%, 81-90 -> 6%, 71-80 -> 8%, else 10%. *)
Definition spec_rate (score : N) : N :=
  if 91 <=? score then 5
  else if (81 <=? score) && (score <=? 90) then 6
  else if (71 <=? score) && (score <=? 80) then 8
  else 10.

(** Every profile's score is in [0,100] (an [N] is never negative). *)
Definition score_in_range (r : Registry.State) : Prop :=
  forall u, Registry.score (Registry.creditProfiles r u) <= Registry.MAX_SCORE.

(** One transition of the registry: any caller, any of its functions. *)
Inductive registry_op (r : Registry.State) : Registry.State -> Prop :=
| op_createProfile e u sc r' :
    Registry.createProfile e u sc r = Ok r' -> registry_op r r'
| op_updateScore e u sc r' :
    Registry.updateScore e u sc r = Ok r' -> registry_op r r'
| op_recordLoan e u r' :
    Registry.recordLoan e u r = Ok r' -> registry_op r r'
| op_recordRepayment e u r' :
    Registry.recordRepayment e u r = Ok r' -> registry_op r r'
| op_recordDefault e u r' :
    Registry.recordDefault e u r = Ok r' -> registry_op r r'
| op_grantRole e ro a r' :
    Registry.grantRole e ro a r = Ok r' -> registry_op r r'
| op_revokeRole e ro a r' :
    Registry.revokeRole e ro a r = Ok r' -> registry_op r r'
| op_renounceRole e ro a r' :
    Registry.renounceRole e ro a r = Ok r' -> registry_op r r'.

(** The states of the registry after any sequence of its operations. *)
Inductive registry_reachable (deployer : address) : Registry.State -> Prop :=
| rr_init : registry_reachable deployer (Registry.init deployer)
| rr_op r r' :
    registry_reachable deployer r -> registry_op r r' ->
    registry_reachable deployer r'.

(** How one operation of the registry rewrites the profile of a principal:
    in one of five ways. *)
Inductive profile_change (p : Registry.CreditProfile)
  : Registry.CreditProfile -> Prop :=
| pc_create sc t :
    Registry.isActive p = false -> sc <= Registry.MAX_SCORE ->
    profile_change p (Registry.mkProfile sc t 0 0 0 true)
| pc_score sc t :
    Registry.isActive p = true -> sc <= Registry.MAX_SCORE ->
    profile_change p
      (Registry.mkProfile sc t (Registry.totalLoans p)
         (Registry.successfulRepayments p) (Registry.defaultedLoans p) true)
| pc_loan :
    Registry.isActive p = true ->
    profile_change p
      (Registry.mkProfile (Registry.score p) (Registry.lastUpdated p)
         (Registry.totalLoans p + 1) (Registry.successfulRepayments p)
         (Registry.defaultedLoans p) true)
| pc_repayment t :
    Registry.isActive p = true ->
    profile_change p
      (Registry.mkProfile
         (if Registry.score p <? Registry.MAX_SCORE
          then N.min (Registry.score p + 2) Registry.MAX_SCORE
          else Registry.score p)
         t (Registry.totalLoans p) (Registry.successfulRepayments p + 1)
         (Registry.defaultedLoans p) true)
| pc_default t :
    Registry.isActive p = true ->
    profile_change p
      (Registry.mkProfile (Registry.score p - 15) t (Registry.totalLoans p)
         (Registry.successfulRepayments p) (Registry.defaultedLoans p + 1)
         true).

(** The number of loans of a list that are active. *)
Definition count_active (l : list Loan) : N :=
  N.of_nat (List.length (filter isActive l)).

(** The pool's count of a borrower's active loans is the number of active
    loans in the borrower's list, and is at most one. *)
Definition loans_counted (w : World) : Prop :=
  forall b,
    activeLoanCount (pool w) b = count_active (borrowerLoans (pool w) b)
    /\ activeLoanCount (pool w) b <= 1.

(** Every loan is either active and not repaid, or repaid and not
    active. *)
Definition loans_settled (w : World) : Prop :=
  forall b l,
    In l (borrowerLoans (pool w) b) -> isRepaid l = negb (isActive l).

(** The counters of the specification's invariant
    [totalLoans >= successfulRepayments + defaultedLoans]. *)
Definition counters_coherent (p : Registry.CreditProfile) : Prop :=
  Registry.successfulRepayments p + Registry.defaultedLoans p
  <= Registry.totalLoans p.

(** What holds of the counters when only the pool reports loan events:
    every recorded loan is repaid, defaulted or still active, and a
    principal without a profile has no loan. *)
Definition counters_balanced (w : World) : Prop :=
  forall u,
    let p := Registry.creditProfiles (creditRegistry w) u in
    Registry.totalLoans p
    = Registry.successfulRepayments p + Registry.defaultedLoans p
      + activeLoanCount (pool w) u
    /\ (Registry.isActive p = false ->
        Registry.totalLoans p = 0 /\ activeLoanCount (pool w) u = 0).

(** The badge ledger: a principal holds one badge when flagged, and none
    otherwise. *)
Definition badges_flagged (b : Badge.State) : Prop :=
  forall a, Badge.erc_balances b a = if Badge.hasBadge b a then 1 else 0.

(** The borrower qualifies for a badge: three repayments and no default. *)
Definition eligible (w : World) (b : address) : Prop :=
  3 <= Registry.successfulRepayments (Registry.getProfile (creditRegistry w) b)
  /\ Registry.defaultedLoans (Registry.getProfile (creditRegistry w) b) = 0.

(** The solvency relation of the data model: the tracked deposits, less
    what is lent out, are covered by the balance the pool holds. *)
Definition solvent (w : World) : Prop :=
  totalDeposits (pool w)
  <= getAvailableLiquidity w
     + (totalBorrowed (pool w) - totalRepaid (pool w)).

End Props.

(** ** Concrete executions *)

Module Scenario.

Import Pool System.

Definition deployer : address := 1.
Definition lender : address := 2.
Definition borrower : address := 3.

Definition by_ (a : address) (t : N) : env := mkEnv a t (fun _ => true).

Definition usdc (n : N) : N := n * 10 ^ 6.

(** The wiring of the deployment script and of the tests: the pool is an
    oracle of the registry and a minter of the badge; the borrower gets a
    profile with score 75; a lender deposits 5000 USDC. *)
Definition setup : list (env * call) :=
  [ (by_ deployer 10, GrantRole Registry.ORACLE_ROLE pool_address);
    (by_ deployer 11, SetAuthorizedMinter pool_address true);
    (by_ deployer 12, SetSenteBadge badge_address);
    (by_ deployer 13, CreateProfile borrower 75);
    (by_ lender 14, TokenMint lender (usdc 10000));
    (by_ lender 15, TokenApprove pool_address (usdc 5000));
    (by_ lender 16, Deposit (usdc 5000)) ].

Definition funded : World := run setup (genesis deployer).

(** The borrower takes a loan of 100 USDC at time [t]. *)
Definition borrow (t : N) : list (env * call) :=
  [ (by_ borrower t, RequestLoan (usdc 100)) ].

(** The borrower gets the interest and approves the repayment. *)
Definition fund_repayment (t : N) : list (env * call) :=
  [ (by_ borrower t, TokenMint borrower (usdc 10));
    (by_ borrower (t + 1), TokenApprove pool_address (usdc 110)) ].

(** One full cycle: loan number [i] taken at [t] and repaid at [t + 3]. *)
Definition cycle (t i : N) : list (env * call) :=
  borrow t ++ fund_repayment (t + 1) ++ [ (by_ borrower (t + 3), RepayLoan i) ].

(** One loan taken at time 100 and not repaid. *)
Definition one_loan : World := run (borrow 100) funded.

(** The first instant past the grace period of that loan. *)
Definition too_late : N := 100 + LOAN_DURATION + REPAYMENT_GRACE_PERIOD + 1.

(** One loan taken and repaid with its interest. *)
Definition one_repaid : World := run (cycle 100 0) funded.

(** Two loans repaid, a third taken, and then the oracle lowers the score
    to 40 before the borrower repays. *)
Definition third_loan_low_score : World :=
  run (cycle 100 0 ++ cycle 200 1 ++ borrow 300 ++ fund_repayment 301
       ++ [ (by_ deployer 303, UpdateScore borrower 40) ]) funded.

(** An oracle records a repayment for a principal that never took a loan. *)
Definition repayment_without_loan : World :=
  run [ (by_ deployer 10, CreateProfile borrower 50);
        (by_ deployer 11, RecordRepayment borrower) ] (genesis deployer).

(** A borrower with three recorded repayments, no default and no badge
    yet: the oracle recorded the repayments itself. *)
Definition three_recorded : World :=
  run [ (by_ deployer 20, RecordRepayment borrower);
        (by_ deployer 21, RecordRepayment borrower);
        (by_ deployer 22, RecordRepayment borrower) ] funded.

(** Three full cycles, as the integration test runs them. *)
Definition three_repaid : World :=
  run (cycle 100 0 ++ cycle 200 1 ++ cycle 300 2) funded.

(** The oracle lowers the score to 50 before any loan. *)
Definition low_score : World :=
  run [ (by_ deployer 50, UpdateScore borrower 50) ] funded.

(** One loan of 1000 USDC out of the 5000 deposited. *)
Definition big_loan : World :=
  run [ (by_ borrower 100, RequestLoan (usdc 1000)) ] funded.

End Scenario.

(** ** More of SenteBadge.sol: the reads and the decimal printer *)

Module BadgeViews.

(** [getBadgeData]: the stored record of a token that exists. *)
Definition getBadgeData (s : Badge.State) (tokenId : N)
  : result Badge.BadgeData :=
  do _ <- require (negb (Badge.owners s tokenId =? 0)) "Token does not exist";
  Ok (Badge.badges s tokenId).

(** The first loop of [_toString]: [while (temp != 0) { digits++; temp /= 10; }].
    A loop that is still running when [fuel] is used up is reported as a
    revert; [toString_returns] shows that [_toString] never gets there. *)
Fixpoint count_loop (fuel : nat) (temp digits : N) : result N :=
  match fuel with
  | O => Revert (Custom "out of fuel")
  | S f =>
      if temp =? 0 then Ok digits
      else
        do d <- add256 digits 1;
        do t <- div256 temp 10;
        count_loop f t d
  end.

(** [buffer[i] = c] on a [bytes] in memory: the index is checked. *)
Definition store (buffer : list Ascii.ascii) (i : N) (c : Ascii.ascii)
  : result (list Ascii.ascii) :=
  if i <? N.of_nat (List.length buffer)
  then Ok (Pool.set_nth buffer (N.to_nat i) c)
  else Revert (Panic 50).

(** The second loop: [while (value != 0) { digits -= 1;
    buffer[digits] = bytes1(uint8(48 + uint256(value % 10))); value /= 10; }]. *)
Fixpoint fill_loop (fuel : nat) (value digits : N) (buffer : list Ascii.ascii)
  : result (list Ascii.ascii) :=
  match fuel with
  | O => Revert (Custom "out of fuel")
  | S f =>
      if value =? 0 then Ok buffer
      else
        do d <- sub256 digits 1;
        do c <- add256 48 (value mod 10);
        do b <- store buffer d (Ascii.ascii_of_N c);
        do v <- div256 value 10;
        fill_loop f v d b
  end.

(** Enough iterations for both loops: one per binary digit of the value. *)
Definition fuel_for (value : N) : nat := S (N.to_nat (N.size value)).

Definition _toString (value : N) : result string :=
  if value =? 0 then Ok "0"%string
  else
    do digits <- count_loop (fuel_for value) value 0;
    let buffer := List.repeat Ascii.zero (N.to_nat digits) in
    do b <- fill_loop (fuel_for value) value digits buffer;
    Ok (string_of_list_ascii b).

(** [_encodeBase64] of the source returns its argument. *)
Definition _encodeBase64 (data : string) : string := data.

End BadgeViews.

(** ** More properties, as predicates on states *)

Module Ledger.

Import Pool System.

(** The sum of the deposits of the lenders of a list. *)
Fixpoint sum_deposited (p : Pool.State) (ls : list address) : N :=
  match ls with
  | [] => 0
  | a :: t => deposited (lenders p a) + sum_deposited p t
  end.

(** [totalDeposits] is the sum of what the lenders hold: finitely many
    lenders, listed once each, hold a deposit, and their deposits add up to
    the total. *)
Definition deposits_tracked (w : World) : Prop :=
  exists ls,
    NoDup ls
    /\ (forall a, ~ In a ls -> deposited (lenders (pool w) a) = 0)
    /\ sum_deposited (pool w) ls = totalDeposits (pool w).

(** The terms every loan of borrower [b] was created with. *)
Definition loan_terms (b : address) (l : Loan) : Prop :=
  borrower l = b
  /\ MIN_LOAN_AMOUNT <= amount l <= MAX_LOAN_AMOUNT
  /\ dueDate l = startTime l + LOAN_DURATION
  /\ (exists rate,
         (rate = 5 \/ rate = 6 \/ rate = 8 \/ rate = 10)
         /\ interestAmount l = amount l * rate / 100)
  /\ isRepaid l = negb (isActive l).

(** The rank of a tier name: Bronze, Silver, Gold, Platinum. *)
Definition tier_rank (tier : string) : N :=
  if String.eqb tier "Platinum" then 3
  else if String.eqb tier "Gold" then 2
  else if String.eqb tier "Silver" then 1
  else 0.

(** The badge ledger: the tokens that exist are those numbered from 1 up
    to the next id; each has a holder, flagged as such, who holds this
    token alone, and carries a score of at least 60 with the tier that score
    and count give. *)
Definition badge_ledger (s : Badge.State) : Prop :=
  1 <= Badge.nextTokenId s
  /\ (forall id,
         Badge.owners s id <> 0 <-> 1 <= id < Badge.nextTokenId s)
  /\ (forall id,
         Badge.owners s id <> 0 ->
         Badge.hasBadge s (Badge.owners s id) = true
         /\ 60 <= Badge.creditScore (Badge.badges s id)
         /\ Badge.tier (Badge.badges s id)
            = Badge._determineTier (Badge.creditScore (Badge.badges s id))
                (Badge.repaymentsCount (Badge.badges s id)))
  /\ (forall id id',
         Badge.owners s id <> 0 -> Badge.owners s id = Badge.owners s id' ->
         id = id').

(** Executions driven by users: no transaction comes from the zero address
    or from the pool itself, whose code sends no transaction. *)
Inductive user_driven (P : call -> Prop) (deployer : address)
  : World -> Prop :=
| ud_genesis : user_driven P deployer (genesis deployer)
| ud_step w e c :
    user_driven P deployer w ->
    msg_sender e <> 0 -> msg_sender e <> pool_address -> P c ->
    user_driven P deployer (step e c w).

(** Every call but the owner's [emergencyWithdraw]. *)
Definition no_emergency (c : call) : Prop :=
  match c with
  | EmergencyWithdraw _ => False
  | _ => True
  end.

(** What the pool holds covers its books: deposits and repayments came in,
    loans went out. *)
Definition books_covered (w : World) : Prop :=
  totalDeposits (pool w) + totalRepaid (pool w)
  <= getAvailableLiquidity w + totalBorrowed (pool w).

(** The pool never approved a spender of its tokens. *)
Definition pool_approves_nobody (w : World) : Prop :=
  forall spender, Token.allowances (usdcToken w) pool_address spender = 0.

(** A string of decimal digits read as a number; [None] on any other
    character. *)
Definition digit_value (c : Ascii.ascii) : option N :=
  let n := Ascii.N_of_ascii c in
  if (48 <=? n) && (n <=? 57) then Some (n - 48) else None.

Fixpoint parse_digits (acc : N) (cs : list Ascii.ascii) : option N :=
  match cs with
  | [] => Some acc
  | c :: t =>
      match digit_value c with
      | Some d => parse_digits (acc * 10 + d) t
      | None => None
      end
  end.

Definition parse_decimal (s : string) : option N :=
  match list_ascii_of_string s with
  | [] => None
  | cs => parse_digits 0 cs
  end.

(** [value] has exactly [d] decimal digits (0 has none). *)
Fixpoint has_digits (d : nat) (value : N) : Prop :=
  match d with
  | O => value = 0
  | S d' => value <> 0 /\ has_digits d' (value / 10)
  end.

(** The decimal digits of a value that has [d] of them, first digit first. *)
Fixpoint digits_of (d : nat) (value : N) : list Ascii.ascii :=
  match d with
  | O => []
  | S d' => digits_of d' (value / 10) ++ [Ascii.ascii_of_N (48 + value mod 10)]
  end.

(** Every loan of every borrower has the terms it was created with. *)
Definition all_loan_terms (w : World) : Prop :=
  forall b l, In l (borrowerLoans (pool w) b) -> loan_terms b l.

(** The books are covered and the pool approved nobody. *)
Definition covered (w : World) : Prop :=
  books_covered w /\ pool_approves_nobody w.

(** The calls that move no token and write none of the three totals. *)
Definition moves_no_money (c : call) : Prop :=
  match c with
  | Deposit _ | Withdraw _ | RequestLoan _ | RepayLoan _
  | EmergencyWithdraw _ | TokenTransfer _ _ | TokenApprove _ _
  | TokenTransferFrom _ _ _ | TokenMint _ _ => False
  | _ => True
  end.

(** No lender has earned interest. *)
Definition no_interest (w : World) : Prop :=
  forall a, interestEarned (lenders (pool w) a) = 0.

(** What a step does to the badge contract: nothing, a change of its
    administration, or a mint. *)
Inductive badge_change (s s' : Badge.State) : Prop :=
| bc_same : s' = s -> badge_change s s'
| bc_admin :
    Badge.nextTokenId s' = Badge.nextTokenId s ->
    Badge.badges s' = Badge.badges s ->
    Badge.hasBadge s' = Badge.hasBadge s ->
    Badge.owners s' = Badge.owners s ->
    Badge.erc_balances s' = Badge.erc_balances s -> badge_change s s'
| bc_mint e to sc n id :
    Badge.mintBadge e to sc n s = Ok (id, s') -> badge_change s s'.

(** What a call does to the profile [p] of its caller, when the caller is
    no oracle: [requestLoan] counts one more loan, [repayLoan] counts one
    more repayment and raises the score by 2 up to 100, and any other call
    leaves the profile. *)
Definition own_profile_change (c : call) (p p' : Registry.CreditProfile)
  : Prop :=
  match c with
  | RequestLoan _ =>
      p' = Registry.mkProfile (Registry.score p) (Registry.lastUpdated p)
             (Registry.totalLoans p + 1) (Registry.successfulRepayments p)
             (Registry.defaultedLoans p) true
  | RepayLoan _ =>
      exists t,
        p' = Registry.mkProfile
               (if Registry.score p <? Registry.MAX_SCORE
                then N.min (Registry.score p + 2) Registry.MAX_SCORE
                else Registry.score p)
               t (Registry.totalLoans p) (Registry.successfulRepayments p + 1)
               (Registry.defaultedLoans p) true
  | _ => p' = p
  end.

(** The calls of an execution in which repayments and defaults reach the
    registry through the lending pool alone: nobody calls [recordRepayment]
    or [recordDefault] directly.  Every other call is there, an oracle's own
    [recordLoan] included. *)
Definition pool_settles (c : call) : Prop :=
  match c with
  | RecordRepayment _ | RecordDefault _ => False
  | _ => True
  end.

(** What holds of the counters then: the recorded loans cover the repaid,
    the defaulted and the active ones, and a principal without a profile
    has no active loan. *)
Definition counters_covered (w : World) : Prop :=
  forall u,
    let p := Registry.creditProfiles (creditRegistry w) u in
    Registry.successfulRepayments p + Registry.defaultedLoans p
    + activeLoanCount (pool w) u
    <= Registry.totalLoans p
    /\ (Registry.isActive p = false ->
        Registry.successfulRepayments p = 0
        /\ Registry.defaultedLoans p = 0
        /\ activeLoanCount (pool w) u = 0).

End Ledger.

(** ** More concrete executions *)

Module Cases.

Import Pool System Scenario.

(** The first loan is out and its repayment is funded and approved. *)
Definition ready_to_repay : World :=
  run (borrow 100 ++ fund_repayment 101) funded.

(** What the borrower tries once the grace period of the first loan is
    over: to repay it, and to borrow again. *)
Definition after_the_grace_period : list (env * call) :=
  [ (by_ borrower too_late, RepayLoan 0);
    (by_ borrower (too_late + 1), RequestLoan (usdc 100)) ].

(** Two loans are repaid and the third is out, its repayment funded and
    approved. *)
Definition third_repayment_due : World :=
  run (cycle 100 0 ++ cycle 200 1 ++ borrow 300 ++ fund_repayment 301) funded.

(** After the badge is minted the oracle lowers the holder's score. *)
Definition score_lowered : list (env * call) :=
  [ (by_ deployer 400, UpdateScore borrower 40) ].

(** After a full cycle an oracle records a loan of its own for the
    borrower. *)
Definition oracle_records_a_loan : World :=
  run [ (by_ deployer 500, RecordLoan borrower) ] one_repaid.

(** An oracle records a default for a principal that never took a loan. *)
Definition default_without_loan : World :=
  run [ (by_ deployer 10, CreateProfile borrower 50);
        (by_ deployer 11, RecordDefault borrower) ] (genesis deployer).

(** The administrator takes the oracle role from the pool: before any
    loan, and while the first loan is out with its repayment funded. *)
Definition revoke_pool_role : list (env * call) :=
  [ (by_ deployer 150, RevokeRole Registry.ORACLE_ROLE pool_address) ].

Definition unwired : World := run revoke_pool_role funded.

Definition unwired_mid_loan : World := run revoke_pool_role ready_to_repay.

End Cases.

(** * Proofs *)

(** ** Mappings, checks and checked arithmetic *)

Lemma upd_same {V : Type} (m : mapping V) (k : address) (v : V) :
  upd m k v k = v.
Proof. unfold upd. now rewrite N.eqb_refl. Qed.

Lemma upd_other {V : Type} (m : mapping V) (k a : address) (v : V) :
  a <> k -> upd m k v a = m a.
Proof. intros H. unfold upd. apply N.eqb_neq in H. now rewrite H. Qed.

Lemma require_ok (c : bool) (msg : string) (u : unit) :
  require c msg = Ok u -> c = true.
Proof. unfold require. destruct c; [reflexivity | discriminate]. Qed.

Lemma add256_ok (a b c : N) :
  add256 a b = Ok c -> c = a + b /\ a + b <= MAX_UINT256.
Proof.
  unfold add256. destruct (N.leb_spec (a + b) MAX_UINT256); [|discriminate].
  intros H0. inversion H0. auto.
Qed.

Lemma sub256_ok (a b c : N) : sub256 a b = Ok c -> c = a - b /\ b <= a.
Proof.
  unfold sub256. destruct (N.leb_spec b a); [|discriminate].
  intros H0. inversion H0. auto.
Qed.

(** ** Tactics *)

(** Opens the next check of a call that succeeded. *)
Ltac step_ok H :=
  match type of H with
  | (match ?x with Ok _ => _ | Revert _ => _ end) = Ok _ =>
      let E := fresh "E" in destruct x eqn:E; try discriminate H
  | (let (_, _) := ?p in _) = Ok _ => destruct p
  | (if ?b then _ else _) = Ok _ =>
      let E := fresh "E" in destruct b eqn:E; try discriminate H
  end.

(** Opens every successful chain of checks among the hypotheses. *)
Ltac steps :=
  repeat match goal with
         | H : _ = Ok _ |- _ => step_ok H
         end.

(** Turns the checks that passed into facts. *)
Ltac facts :=
  repeat match goal with
         | H : require _ _ = Ok _ |- _ => apply require_ok in H
         | H : add256 _ _ = Ok _ |- _ =>
             apply add256_ok in H; destruct H as [? ?]; subst
         | H : sub256 _ _ = Ok _ |- _ =>
             apply sub256_ok in H; destruct H as [? ?]; subst
         | H : negb _ = true |- _ => apply negb_true_iff in H
         | H : negb _ = false |- _ => apply negb_false_iff in H
         | H : (_ && _)%bool = true |- _ =>
             apply andb_true_iff in H; destruct H
         | H : (_ <=? _) = true |- _ => apply N.leb_le in H
         | H : (_ <? _) = true |- _ => apply N.ltb_lt in H
         | H : (_ <=? _) = false |- _ => apply N.leb_gt in H
         | H : (_ <? _) = false |- _ => apply N.ltb_ge in H
         | H : (_ =? _) = true |- _ => apply N.eqb_eq in H
         | H : (_ =? _) = false |- _ => apply N.eqb_neq in H
         | H : Ok _ = Ok _ |- _ => inversion H; subst; clear H
         | H : Revert _ = Ok _ |- _ => discriminate H
         end.

(** ** The value ledger *)

Module TokenFacts.

Lemma move_ok (from to : address) (v : N) (s t : Token.State) :
  Token.move from to v s = Ok t ->
  v <= Token.balances s from
  /\ Token.balances t
     = upd (upd (Token.balances s) from (Token.balances s from - v)) to
         (upd (Token.balances s) from (Token.balances s from - v) to + v).
Proof.
  unfold Token.move. destruct (N.ltb_spec (Token.balances s from) v);
    [discriminate|].
  intros H0. inversion H0. simpl. auto.
Qed.

Lemma move_credited (from to : address) (v : N) (s t : Token.State) :
  Token.move from to v s = Ok t -> v <= Token.balances t to.
Proof.
  intros H. apply move_ok in H as [Hle ->]. rewrite upd_same.
  unfold upd. destruct (to =? from); lia.
Qed.

Lemma move_enough (from to : address) (v : N) (s : Token.State) :
  v <= Token.balances s from -> exists t, Token.move from to v s = Ok t.
Proof.
  intros H. unfold Token.move. apply N.ltb_ge in H. rewrite H. eauto.
Qed.

Lemma transferFrom_credited (e : env) (from to : address) (v : N)
  (s t : Token.State) :
  Token.transferFrom e from to v s = Ok t -> v <= Token.balances t to.
Proof.
  unfold Token.transferFrom.
  destruct (Token.allowances s from (msg_sender e) <? v); [discriminate|].
  apply move_credited.
Qed.

End TokenFacts.

(** ** The registry *)

Module RegistryFacts.
Import Registry Props.

Lemma onlyRole_ok (ro : role) (e : env) (r : State) (u : unit) :
  onlyRole ro e r = Ok u -> roles r ro (msg_sender e) = true.
Proof. unfold onlyRole. destruct (roles r ro (msg_sender e)); easy. Qed.

Lemma createProfile_ok (e : env) (u : address) (sc : N) (r r' : State) :
  createProfile e u sc r = Ok r' ->
  roles r ORACLE_ROLE (msg_sender e) = true
  /\ isActive (creditProfiles r u) = false
  /\ sc <= MAX_SCORE
  /\ r' = set_profile r u (mkProfile sc (block_timestamp e) 0 0 0 true).
Proof.
  unfold createProfile. intros H. repeat step_ok H.
  apply onlyRole_ok in E. apply require_ok in E0, E1.
  apply negb_true_iff in E0. apply andb_true_iff in E1 as [_ E1].
  apply N.leb_le in E1. inversion H. auto.
Qed.

Lemma updateScore_ok (e : env) (u : address) (sc : N) (r r' : State) :
  updateScore e u sc r = Ok r' ->
  roles r ORACLE_ROLE (msg_sender e) = true
  /\ sc <= MAX_SCORE
  /\ let p := creditProfiles r u in
     r' = set_profile r u
            (if isActive p
             then mkProfile sc (block_timestamp e) (totalLoans p)
                    (successfulRepayments p) (defaultedLoans p) true
             else mkProfile sc (block_timestamp e) 0 0 0 true).
Proof.
  unfold updateScore. intros H. step_ok H. step_ok H.
  apply onlyRole_ok in E. apply require_ok in E0.
  apply andb_true_iff in E0 as [_ E0]. apply N.leb_le in E0.
  cbv zeta. split; [exact E|]. split; [exact E0|].
  destruct (isActive (creditProfiles r u)) eqn:Ha; simpl in H.
  - inversion H. reflexivity.
  - apply createProfile_ok in H as (_ & _ & _ & ->). reflexivity.
Qed.

Lemma recordLoan_ok (e : env) (u : address) (r r' : State) :
  recordLoan e u r = Ok r' ->
  let p := creditProfiles r u in
  roles r ORACLE_ROLE (msg_sender e) = true
  /\ isActive p = true
  /\ r' = set_profile r u
            (mkProfile (score p) (lastUpdated p) (totalLoans p + 1)
               (successfulRepayments p) (defaultedLoans p) true).
Proof.
  unfold recordLoan. intros H. repeat step_ok H.
  apply onlyRole_ok in E. apply require_ok in E0. apply add256_ok in E1 as [-> _].
  inversion H. rewrite E0. auto.
Qed.

Lemma recordRepayment_ok (e : env) (u : address) (r r' : State) :
  recordRepayment e u r = Ok r' ->
  let p := creditProfiles r u in
  roles r ORACLE_ROLE (msg_sender e) = true
  /\ isActive p = true
  /\ exists t,
      r' = set_profile r u
             (mkProfile (if score p <? MAX_SCORE
                         then N.min (score p + 2) MAX_SCORE else score p)
                t (totalLoans p) (successfulRepayments p + 1)
                (defaultedLoans p) true).
Proof.
  unfold recordRepayment. intros H. step_ok H. step_ok H. step_ok H.
  apply onlyRole_ok in E. apply require_ok in E0. apply add256_ok in E1 as [-> _].
  cbv zeta. split; [exact E|]. split; [exact E0|].
  destruct (score (creditProfiles r u) <? MAX_SCORE) eqn:Hs.
  - unfold add8 in H.
    destruct (score (creditProfiles r u) + 2 <=? MAX_UINT8); [|discriminate].
    inversion H. rewrite E0. eexists. f_equal. f_equal.
    unfold MAX_SCORE.
    destruct (N.ltb_spec 100 (score (creditProfiles r u) + 2)); lia.
  - inversion H. rewrite E0. eauto.
Qed.

Lemma recordDefault_ok (e : env) (u : address) (r r' : State) :
  recordDefault e u r = Ok r' ->
  let p := creditProfiles r u in
  roles r ORACLE_ROLE (msg_sender e) = true
  /\ isActive p = true
  /\ exists t,
      r' = set_profile r u
             (mkProfile (score p - 15) t (totalLoans p)
                (successfulRepayments p) (defaultedLoans p + 1) true).
Proof.
  unfold recordDefault. intros H. step_ok H. step_ok H. step_ok H.
  apply onlyRole_ok in E. apply require_ok in E0. apply add256_ok in E1 as [-> _].
  cbv zeta. split; [exact E|]. split; [exact E0|].
  unfold MIN_SCORE in H.
  destruct (N.ltb_spec 0 (score (creditProfiles r u))).
  - inversion H. rewrite E0. eexists. f_equal. f_equal.
    destruct (N.ltb_spec 15 (score (creditProfiles r u))); lia.
  - inversion H. rewrite E0. eexists. f_equal. f_equal. lia.
Qed.

Lemma role_change_profiles (r r' : State) :
  (exists e ro a, grantRole e ro a r = Ok r')
  \/ (exists e ro a, revokeRole e ro a r = Ok r')
  \/ (exists e ro a, renounceRole e ro a r = Ok r') ->
  creditProfiles r' = creditProfiles r.
Proof.
  intros [(e & ro & a & H)|[(e & ro & a & H)|(e & ro & a & H)]].
  - unfold grantRole in H. step_ok H. now inversion H.
  - unfold revokeRole in H. step_ok H. now inversion H.
  - unfold renounceRole in H. step_ok H. now inversion H.
Qed.

(** One operation of the registry rewrites at most one profile. *)
Lemma registry_op_profiles (r r' : State) :
  registry_op r r' ->
  creditProfiles r' = creditProfiles r
  \/ exists u p',
      profile_change (creditProfiles r u) p'
      /\ creditProfiles r' = upd (creditProfiles r) u p'.
Proof.
  intros H. destruct H as [e u sc r' H|e u sc r' H|e u r' H|e u r' H|e u r' H
                          |e ro a r' H|e ro a r' H|e ro a r' H].
  - apply createProfile_ok in H as (_ & Ha & Hs & ->).
    right. exists u. eexists. split; [|reflexivity]. now apply pc_create.
  - apply updateScore_ok in H as (_ & Hs & H). cbv zeta in H. subst r'.
    right. exists u. eexists. split; [|reflexivity].
    destruct (isActive (creditProfiles r u)) eqn:Ha;
      [now apply pc_score | now apply pc_create].
  - apply recordLoan_ok in H as (_ & Ha & ->).
    right. exists u. eexists. split; [|reflexivity]. now apply pc_loan.
  - apply recordRepayment_ok in H as (_ & Ha & t & ->).
    right. exists u. eexists. split; [|reflexivity]. now apply pc_repayment.
  - apply recordDefault_ok in H as (_ & Ha & t & ->).
    right. exists u. eexists. split; [|reflexivity]. now apply pc_default.
  - left. apply role_change_profiles. left. eauto.
  - left. apply role_change_profiles. right. left. eauto.
  - left. apply role_change_profiles. right. right. eauto.
Qed.

Lemma profile_change_score (p p' : CreditProfile) :
  profile_change p p' -> score p <= MAX_SCORE -> score p' <= MAX_SCORE.
Proof.
  intros H Hp. destruct H; cbn [score]; unfold MAX_SCORE in *; try lia.
  destruct (N.ltb_spec (score p) 100); lia.
Qed.

Lemma registry_op_score (r r' : State) :
  registry_op r r' -> score_in_range r -> score_in_range r'.
Proof.
  intros H Hr v. apply registry_op_profiles in H as [->|(u & p' & Hc & ->)].
  - apply Hr.
  - unfold upd. destruct (v =? u); [|apply Hr].
    eapply profile_change_score; [exact Hc|apply Hr].
Qed.

Lemma registry_reachable_score (d : address) (r : State) :
  registry_reachable d r -> score_in_range r.
Proof.
  induction 1 as [|r r' _ IH Hop].
  - intros u. cbn. unfold MAX_SCORE. lia.
  - now apply (registry_op_score r r').
Qed.

End RegistryFacts.

(** ** The badge *)

Module BadgeFacts.
Import Badge Props.

Lemma mintBadge_ok (e : env) (to : address) (sc n : N) (s s' : State)
  (id : N) :
  mintBadge e to sc n s = Ok (id, s') ->
  hasBadge s to = false
  /\ 60 <= sc
  /\ id = nextTokenId s
  /\ nextTokenId s' = nextTokenId s + 1
  /\ hasBadge s' = upd (hasBadge s) to true
  /\ erc_balances s' = upd (erc_balances s) to (erc_balances s to + 1)
  /\ authorizedMinters s' = authorizedMinters s
  /\ owner s' = owner s.
Proof.
  unfold mintBadge, _safeMint, _update. intros H. steps. facts.
  cbn. rewrite !N.eqb_refl. auto 10.
Qed.

Lemma mint_keeps_flagged (e : env) (to : address) (sc n id : N)
  (s s' : State) :
  mintBadge e to sc n s = Ok (id, s') -> badges_flagged s -> badges_flagged s'.
Proof.
  intros H Hs a. apply mintBadge_ok in H as (Hno & _ & _ & _ & -> & -> & _).
  unfold upd. destruct (a =? to) eqn:Ea; [|apply Hs].
  apply N.eqb_eq in Ea. subst a. rewrite (Hs to), Hno. reflexivity.
Qed.

(** A badge is soulbound: no call of [transferFrom] succeeds. *)
Lemma transferFrom_reverts (e : env) (from to : address) (id : N)
  (s : State) :
  msg_sender e <> 0 -> is_revert (transferFrom e from to id s) = true.
Proof.
  intros Hs. unfold transferFrom, _update, require.
  destruct (to =? 0) eqn:Et; [reflexivity|].
  rewrite orb_false_r.
  destruct (owners s id =? 0) eqn:Eo; [|reflexivity].
  apply N.eqb_eq in Eo. rewrite Eo.
  assert (Hz : (0 =? msg_sender e) = false) by (apply N.eqb_neq; congruence).
  apply N.eqb_neq in Hs. rewrite Hs, Hz. reflexivity.
Qed.

End BadgeFacts.

(** ** The lending pool *)

Module PoolFacts.
Import Pool System Props TokenFacts RegistryFacts BadgeFacts.

(** *** The interest schedule *)

Lemma rateOf_spec (score : N) : rateOf score = spec_rate score.
Proof.
  unfold rateOf, spec_rate.
  destruct (N.leb_spec 91 score); [reflexivity|].
  destruct (N.leb_spec 81 score), (N.leb_spec score 90); simpl; try reflexivity; try lia.
  - destruct (N.leb_spec 71 score), (N.leb_spec score 80); simpl; try reflexivity; lia.
Qed.

Lemma rateOf_bounds (score : N) : 5 <= rateOf score <= 10.
Proof.
  unfold rateOf.
  destruct (91 <=? score); [lia|].
  destruct (81 <=? score); [lia|].
  destruct (71 <=? score); lia.
Qed.

Lemma rateOf_antitone (s s' : N) : s <= s' -> rateOf s' <= rateOf s.
Proof.
  intros H. unfold rateOf.
  destruct (N.leb_spec 91 s'), (N.leb_spec 91 s); try lia;
  destruct (N.leb_spec 81 s'), (N.leb_spec 81 s); try lia;
  destruct (N.leb_spec 71 s'), (N.leb_spec 71 s); lia.
Qed.

Lemma calculateInterest_fits (amount score : N) :
  amount * 10 <= MAX_UINT256 ->
  calculateInterest amount score = Ok (amount * rateOf score / 100).
Proof.
  intros Hfit. unfold calculateInterest, mul256, div256.
  pose proof (rateOf_bounds score) as [_ Hr].
  assert (Hle : amount * rateOf score <= MAX_UINT256).
  { apply N.le_trans with (amount * 10); [|exact Hfit].
    apply N.mul_le_mono_l. exact Hr. }
  apply N.leb_le in Hle. rewrite Hle. reflexivity.
Qed.

(** *** Lists of loans *)

Lemma status_active (l : Loan) : status l = Active <-> isActive l = true.
Proof.
  unfold status. destruct (isActive l), (isRepaid l); split; congruence.
Qed.

Lemma count_active_pos (ls : list Loan) (i : nat) (l : Loan) :
  nth_error ls i = Some l -> isActive l = true -> 1 <= count_active ls.
Proof.
  unfold count_active. revert i.
  induction ls as [|h t IH]; intros [|i] Hn Ha; cbn in Hn; try discriminate.
  - inversion Hn; subst h. cbn. rewrite Ha. cbn. lia.
  - cbn. specialize (IH i Hn Ha). destruct (isActive h); cbn; lia.
Qed.

Lemma count_active_app (l : list Loan) (x : Loan) :
  isActive x = true -> count_active (l ++ [x]) = count_active l + 1.
Proof.
  intros Hx. unfold count_active. rewrite filter_app, length_app. cbn.
  rewrite Hx. cbn. lia.
Qed.

Lemma count_active_set_nth (l : list Loan) (i : nat) (x y : Loan) :
  nth_error l i = Some y -> isActive y = true -> isActive x = false ->
  count_active (set_nth l i x) + 1 = count_active l.
Proof.
  unfold count_active. revert i.
  induction l as [|h t IH]; intros [|i] Hn Hy Hx; cbn in Hn; try discriminate.
  - inversion Hn; subst h. cbn. rewrite Hy, Hx. cbn. lia.
  - cbn. specialize (IH i Hn Hy Hx). destruct (isActive h); cbn; lia.
Qed.

Lemma nth_error_set_nth_other (l : list Loan) (i j : nat) (x : Loan) :
  i <> j -> nth_error (set_nth l i x) j = nth_error l j.
Proof.
  revert i j. induction l as [|h t IH]; intros [|i] [|j] Hij; cbn;
    try reflexivity; try congruence.
  apply IH. congruence.
Qed.

Lemma nth_error_app_old (l : list Loan) (x y : Loan) (i : nat) :
  nth_error l i = Some y -> nth_error (l ++ [x]) i = Some y.
Proof.
  intros H. rewrite nth_error_app1; [exact H|].
  apply nth_error_Some. congruence.
Qed.

Lemma nth_error_set_nth_same (l : list Loan) (i : nat) (x y : Loan) :
  nth_error l i = Some y -> nth_error (set_nth l i x) i = Some x.
Proof.
  revert i. induction l as [|h t IH]; intros [|i] Hn; cbn in *;
    try discriminate; [reflexivity|now apply IH].
Qed.

Lemma In_set_nth (l : list Loan) (i : nat) (x y : Loan) :
  In y (set_nth l i x) -> y = x \/ In y l.
Proof.
  revert i. induction l as [|h t IH]; intros [|i] H; cbn in *; try tauto.
  - destruct H as [<-|H]; auto.
  - destruct H as [<-|H]; auto. destruct (IH i H); auto.
Qed.

(** *** What a successful call did *)

(** The badge check changes nothing but the badge ledger, and that only
    by one mint for an eligible borrower who holds no badge. *)
Lemma checkAndMintBadge_ok (e : env) (b : address) (w w' : World) :
  _checkAndMintBadge e b w = Ok w' ->
  w' = w
  \/ (senteBadge (pool w) = badge_address
      /\ Badge.balanceOf (badge w) b = 0
      /\ 3 <= Registry.successfulRepayments
                (Registry.getProfile (creditRegistry w) b)
      /\ Registry.defaultedLoans (Registry.getProfile (creditRegistry w) b) = 0
      /\ exists id bs,
          Badge.mintBadge (as_sender pool_address e) b
            (Registry.score (Registry.getProfile (creditRegistry w) b))
            (Registry.successfulRepayments
               (Registry.getProfile (creditRegistry w) b)) (badge w)
          = Ok (id, bs)
          /\ w' = mkWorld (usdcToken w) (creditRegistry w) bs (pool w)).
Proof.
  unfold _checkAndMintBadge. intros H. steps; facts; auto.
  right. repeat split; try assumption; try lia. eauto.
Qed.

Lemma checkAndMintBadge_frame (e : env) (b : address) (w w' : World) :
  _checkAndMintBadge e b w = Ok w' ->
  usdcToken w' = usdcToken w /\ creditRegistry w' = creditRegistry w
  /\ pool w' = pool w.
Proof.
  intros H. apply checkAndMintBadge_ok in H as [->|(_ & _ & _ & _ & id & bs & _ & ->)];
    auto.
Qed.

Lemma requestLoan_ok (e : env) (amt : N) (w w' : World) :
  requestLoan e amt w = Ok w' ->
  let b := msg_sender e in
  activeLoanCount (pool w) b = 0
  /\ activeLoanCount (pool w') = upd (activeLoanCount (pool w)) b 1
  /\ (exists l,
         isActive l = true /\ isRepaid l = false
         /\ borrowerLoans (pool w')
            = upd (borrowerLoans (pool w)) b (borrowerLoans (pool w) b ++ [l]))
  /\ Registry.recordLoan (as_sender pool_address e) b (creditRegistry w)
     = Ok (creditRegistry w')
  /\ badge w' = badge w.
Proof.
  unfold requestLoan. intros H. steps. facts. cbn.
  match goal with Hc : activeLoanCount (pool w) (msg_sender e) = 0 |- _ =>
    rewrite Hc end.
  repeat split; try reflexivity; try assumption.
  eexists. repeat split; reflexivity.
Qed.

Lemma repayLoan_ok (e : env) (i : N) (w w' : World) :
  repayLoan e i w = Ok w' ->
  let b := msg_sender e in
  exists loan,
    nth_error (borrowerLoans (pool w) b) (N.to_nat i) = Some loan
    /\ isActive loan = true /\ isRepaid loan = false
    /\ 1 <= activeLoanCount (pool w) b
    /\ activeLoanCount (pool w')
       = upd (activeLoanCount (pool w)) b (activeLoanCount (pool w) b - 1)
    /\ borrowerLoans (pool w')
       = upd (borrowerLoans (pool w)) b
           (set_nth (borrowerLoans (pool w) b) (N.to_nat i)
              (mkLoan (amount loan) (interestAmount loan) (startTime loan)
                 (dueDate loan) false true (borrower loan)))
    /\ Registry.recordRepayment (as_sender pool_address e) b (creditRegistry w)
       = Ok (creditRegistry w')
    /\ block_timestamp e <= dueDate loan + REPAYMENT_GRACE_PERIOD.
Proof.
  unfold repayLoan. intros H. step_ok H.
  destruct (nth_error _ _) as [loan|] eqn:Hn; [|discriminate].
  steps.
  apply checkAndMintBadge_frame in H as (_ & Hr & Hp).
  cbn in Hr, Hp. facts.
  exists loan. rewrite Hp. cbn. auto 10.
Qed.

Lemma mint_changes_world (e : env) (b : address) (w : World) :
  (do (tokenId, bs) <- Badge.mintBadge (as_sender pool_address e) b
                         (Registry.score
                            (Registry.getProfile (creditRegistry w) b))
                         (Registry.successfulRepayments
                            (Registry.getProfile (creditRegistry w) b))
                         (badge w);
   Ok (mkWorld (usdcToken w) (creditRegistry w) bs (pool w))) <> Ok w.
Proof.
  destruct (Badge.mintBadge _ _ _ _ _) as [[id bs]|] eqn:Hm; [|discriminate].
  intros H. inversion H as [H2]. apply (f_equal badge) in H2. cbn in H2.
  apply mintBadge_ok in Hm as (_ & _ & _ & Hn & _). rewrite H2 in Hn. lia.
Qed.

Lemma repayLoan_badge (e : env) (i : N) (w w' : World) :
  repayLoan e i w = Ok w' ->
  badge w' = badge w
  \/ exists e' sc n id,
      Badge.mintBadge e' (msg_sender e) sc n (badge w) = Ok (id, badge w').
Proof.
  unfold repayLoan. intros H. step_ok H.
  destruct (nth_error _ _) as [loan|] eqn:Hn; [|discriminate].
  steps.
  apply checkAndMintBadge_ok in H
    as [->|(_ & _ & _ & _ & id & bs & Hm & ->)]; cbn in *; eauto 8.
Qed.

End PoolFacts.

(** ** Executions *)

Module SystemFacts.
Import Pool System Props TokenFacts RegistryFacts BadgeFacts PoolFacts.

Lemma step_ok_or_same (e : env) (c : call) (w : World) :
  (exists w', exec e c w = Ok w' /\ step e c w = w')
  \/ (exists err, exec e c w = Revert err /\ step e c w = w).
Proof.
  unfold step, transact. destruct (exec e c w); simpl; eauto.
Qed.

Lemma step_revert (e : env) (c : call) (w : World) (err : error) :
  exec e c w = Revert err -> step e c w = w.
Proof. intros H. unfold step, transact. now rewrite H. Qed.

Lemma step_success (e : env) (c : call) (w w' : World) :
  exec e c w = Ok w' -> step e c w = w'.
Proof. intros H. unfold step, transact. now rewrite H. Qed.

Lemma run_app (tr1 tr2 : list (env * call)) (w : World) :
  run (tr1 ++ tr2) w = run tr2 (run tr1 w).
Proof. unfold run. apply fold_left_app. Qed.

Lemma reachable_by_run (P : call -> Prop) (d : address)
  (tr : list (env * call)) :
  Forall (fun ec => msg_sender (fst ec) <> 0 /\ P (snd ec)) tr ->
  forall w, reachable_by P d w -> reachable_by P d (run tr w).
Proof.
  induction 1 as [|[e c] tr [Hs Hc] _ IH]; intros w Hw; simpl.
  - exact Hw.
  - apply IH. now apply reach_step.
Qed.

Lemma reachable_run (d : address) (tr : list (env * call)) (w : World) :
  Forall (fun ec => msg_sender (fst ec) <> 0) tr ->
  reachable d w -> reachable d (run tr w).
Proof.
  intros H. apply reachable_by_run.
  eapply Forall_impl; [|exact H]. cbv beta. auto.
Qed.

Lemma reachable_by_weaken (P : call -> Prop) (d : address) (w : World) :
  reachable_by P d w -> reachable d w.
Proof.
  induction 1; [apply reach_genesis | now apply reach_step].
Qed.

Ltac senders_nonzero :=
  repeat (apply Forall_cons; [discriminate|]); apply Forall_nil.

Lemma reachable_funded : reachable Scenario.deployer Scenario.funded.
Proof.
  apply reachable_run; [|apply reach_genesis].
  unfold Scenario.setup. senders_nonzero.
Qed.

Lemma reachable_one_loan : reachable Scenario.deployer Scenario.one_loan.
Proof.
  apply reachable_run; [|apply reachable_funded].
  unfold Scenario.borrow. senders_nonzero.
Qed.

Lemma reachable_one_repaid : reachable Scenario.deployer Scenario.one_repaid.
Proof.
  apply reachable_run; [|apply reachable_funded].
  cbv [Scenario.cycle Scenario.borrow Scenario.fund_repayment app].
  senders_nonzero.
Qed.

Lemma reachable_third_loan_low_score :
  reachable Scenario.deployer Scenario.third_loan_low_score.
Proof.
  apply reachable_run; [|apply reachable_funded].
  cbv [Scenario.cycle Scenario.borrow Scenario.fund_repayment app].
  senders_nonzero.
Qed.

Ltac calls_reported :=
  repeat (apply Forall_cons; [split; [discriminate|exact I]|]);
  apply Forall_nil.

Lemma reported_one_repaid :
  reachable_by pool_reported Scenario.deployer Scenario.one_repaid.
Proof.
  apply reachable_by_run.
  { cbv [Scenario.cycle Scenario.borrow Scenario.fund_repayment app].
    calls_reported. }
  apply reachable_by_run; [|apply reach_genesis].
  unfold Scenario.setup. calls_reported.
Qed.

Lemma reachable_repayment_without_loan :
  reachable Scenario.deployer Scenario.repayment_without_loan.
Proof.
  apply reachable_run; [senders_nonzero|apply reach_genesis].
Qed.

(** *** Frames: what a call cannot write *)

Ltac open_call H :=
  cbn [exec] in H;
  unfold in_registry, in_badge, in_token, setSenteBadge, deposit, withdraw,
    emergencyWithdraw, Pool.transferOwnership, Pool.renounceOwnership in H;
  steps; facts.

(** Only [requestLoan] and [repayLoan] write the loans and their count. *)
Lemma exec_loans_frame (e : env) (c : call) (w w' : World) :
  exec e c w = Ok w' ->
  match c with RequestLoan _ | RepayLoan _ => False | _ => True end ->
  borrowerLoans (pool w') = borrowerLoans (pool w)
  /\ activeLoanCount (pool w') = activeLoanCount (pool w).
Proof.
  intros H Hc. destruct c; try contradiction; open_call H; auto.
Qed.

(** The registry changes by its own operations only. *)
Lemma exec_registry (e : env) (c : call) (w w' : World) :
  exec e c w = Ok w' ->
  creditRegistry w' = creditRegistry w
  \/ registry_op (creditRegistry w) (creditRegistry w').
Proof.
  intros H. destruct c;
    try (open_call H; cbn [creditRegistry]; auto; right; eauto using registry_op; fail).
  - cbn [exec] in H. apply requestLoan_ok in H as (_ & _ & _ & H & _).
    right. eauto using registry_op.
  - cbn [exec] in H. apply repayLoan_ok in H as (l & _ & _ & _ & _ & _ & _ & H & _).
    right. eauto using registry_op.
Qed.

Lemma reachable_registry (d : address) (w : World) :
  reachable d w -> registry_reachable d (creditRegistry w).
Proof.
  induction 1 as [|w e c _ IH _ _].
  - apply rr_init.
  - destruct (step_ok_or_same e c w) as [(w' & Hx & ->)|(err & _ & ->)];
      [|exact IH].
    apply exec_registry in Hx as [->|Hop]; [exact IH|].
    now apply rr_op with (creditRegistry w).
Qed.

(** Calls that reach the registry neither directly nor through the pool
    leave it as it is. *)
Lemma exec_registry_frame (e : env) (c : call) (w w' : World) :
  exec e c w = Ok w' ->
  match c with
  | CreateProfile _ _ | UpdateScore _ _ | RecordLoan _ | RecordRepayment _
  | RecordDefault _ | GrantRole _ _ | RevokeRole _ _ | RenounceRole _ _
  | RequestLoan _ | RepayLoan _ => False
  | _ => True
  end ->
  creditRegistry w' = creditRegistry w.
Proof.
  intros H Hc. destruct c; try contradiction; open_call H; reflexivity.
Qed.

(** *** The count of active loans *)

Lemma exec_loans_counted (e : env) (c : call) (w w' : World) :
  exec e c w = Ok w' -> loans_counted w -> loans_counted w'.
Proof.
  intros H Hw b.
  destruct c;
    try (apply exec_loans_frame in H as [-> ->]; [apply Hw|exact I]).
  - cbn [exec] in H.
    apply requestLoan_ok in H as (H0 & -> & (l & Hl & _ & ->) & _).
    unfold upd. destruct (b =? msg_sender e) eqn:Eb; [|apply Hw].
    rewrite count_active_app by exact Hl.
    destruct (Hw (msg_sender e)) as [<- _]. rewrite H0. cbn. lia.
  - cbn [exec] in H.
    apply repayLoan_ok in H as (l & Hn & Ha & _ & H1 & -> & -> & _).
    unfold upd. destruct (b =? msg_sender e) eqn:Eb; [|apply Hw].
    destruct (Hw (msg_sender e)) as [Hc Hle].
    pose proof (count_active_set_nth _ _
                  (mkLoan (amount l) (interestAmount l) (startTime l)
                     (dueDate l) false true (borrower l)) l Hn Ha eq_refl).
    lia.
Qed.

Theorem reachable_loans_counted (d : address) (w : World) :
  reachable d w -> loans_counted w.
Proof.
  induction 1 as [|w e c _ IH _ _].
  - intros b. cbn. unfold count_active. cbn. lia.
  - destruct (step_ok_or_same e c w) as [(w' & Hx & ->)|(err & _ & ->)];
      [|exact IH].
    now apply (exec_loans_counted e c w).
Qed.

(** *** Terminal loans *)

Lemma exec_keeps_terminal (e : env) (c : call) (w w' : World)
  (b : address) (i : nat) (l : Loan) :
  exec e c w = Ok w' ->
  nth_error (borrowerLoans (pool w) b) i = Some l -> isActive l = false ->
  nth_error (borrowerLoans (pool w') b) i = Some l.
Proof.
  intros H Hn Hl.
  destruct c;
    try (apply exec_loans_frame in H as [-> _]; [exact Hn|exact I]).
  - cbn [exec] in H.
    apply requestLoan_ok in H as (_ & _ & (x & _ & _ & ->) & _).
    unfold upd. destruct (b =? msg_sender e) eqn:Eb; [|exact Hn].
    apply N.eqb_eq in Eb. subst b. now apply nth_error_app_old.
  - cbn [exec] in H.
    apply repayLoan_ok in H as (y & Hy & Ha & _ & _ & _ & -> & _).
    unfold upd. destruct (b =? msg_sender e) eqn:Eb; [|exact Hn].
    apply N.eqb_eq in Eb. subst b.
    rewrite nth_error_set_nth_other; [exact Hn|].
    intros E. rewrite <- E in Hn. congruence.
Qed.

Lemma run_keeps_terminal (tr : list (env * call)) (w : World)
  (b : address) (i : nat) (l : Loan) :
  nth_error (borrowerLoans (pool w) b) i = Some l -> isActive l = false ->
  nth_error (borrowerLoans (pool (run tr w)) b) i = Some l.
Proof.
  revert w. induction tr as [|[e c] tr IH]; intros w Hn Hl; cbn.
  - exact Hn.
  - apply IH; [|exact Hl].
    destruct (step_ok_or_same e c w) as [(w' & Hx & ->)|(err & _ & ->)];
      [|exact Hn].
    now apply (exec_keeps_terminal e c w).
Qed.

(** *** No loan is ever Defaulted

    The only code that would mark a default is the branch of [repayLoan]
    that ends in a revert. *)

Lemma exec_loans_settled (e : env) (c : call) (w w' : World) :
  exec e c w = Ok w' -> loans_settled w -> loans_settled w'.
Proof.
  intros H Hw b l.
  destruct c;
    try (apply exec_loans_frame in H as [-> _]; [apply Hw|exact I]).
  - cbn [exec] in H.
    apply requestLoan_ok in H as (_ & _ & (x & Hx & Hr & ->) & _).
    unfold upd. destruct (b =? msg_sender e) eqn:Eb; [|apply Hw].
    apply N.eqb_eq in Eb. subst b. intros Hin.
    apply in_app_or in Hin as [Hin|[<-|[]]]; [now apply (Hw (msg_sender e))|].
    now rewrite Hx, Hr.
  - cbn [exec] in H.
    apply repayLoan_ok in H as (y & _ & _ & _ & _ & _ & -> & _).
    unfold upd. destruct (b =? msg_sender e) eqn:Eb; [|apply Hw].
    apply N.eqb_eq in Eb. subst b. intros Hin.
    apply In_set_nth in Hin as [->|Hin]; [reflexivity|].
    now apply (Hw (msg_sender e)).
Qed.

Lemma reachable_loans_settled (d : address) (w : World) :
  reachable d w -> loans_settled w.
Proof.
  induction 1 as [|w e c _ IH _ _].
  - intros b l [].
  - destruct (step_ok_or_same e c w) as [(w' & Hx & ->)|(err & _ & ->)];
      [|exact IH].
    now apply (exec_loans_settled e c w).
Qed.

(** X1.  No loan is ever Defaulted: the only code that sets a loan to
    Defaulted is the branch of [repayLoan] that ends in a revert, so in
    every reachable state every loan is Active or Repaid. *)
Theorem reachable_never_defaulted (d : address) (w : World) (b : address)
  (l : Loan) :
  reachable d w -> In l (getBorrowerLoans w b) -> status l <> Defaulted.
Proof.
  intros Hw Hin. apply reachable_loans_settled in Hw.
  specialize (Hw b l Hin). unfold status.
  destruct (isActive l), (isRepaid l); cbn in Hw; congruence.
Qed.

(** *** The badge ledger *)

Lemma exec_badges_flagged (e : env) (c : call) (w w' : World) :
  msg_sender e <> 0 -> exec e c w = Ok w' ->
  badges_flagged (badge w) -> badges_flagged (badge w').
Proof.
  intros Hs H Hw.
  destruct c;
    try (open_call H; cbn [badge]; exact Hw);
    try (open_call H;
         unfold Badge.setAuthorizedMinter, Badge.transferOwnership,
           Badge.renounceOwnership, Badge.approve, Badge.setApprovalForAll
           in *;
         steps; facts; exact Hw).
  - open_call H. cbn [badge]. eauto using mint_keeps_flagged.
  - cbn [exec] in H. unfold in_badge in H.
    pose proof (transferFrom_reverts e from to tokenId (badge w) Hs) as Hr.
    destruct (Badge.transferFrom e from to tokenId (badge w)); discriminate.
  - cbn [exec] in H. apply requestLoan_ok in H as (_ & _ & _ & _ & ->).
    exact Hw.
  - cbn [exec] in H.
    apply repayLoan_badge in H as [->|(e' & sc & n & id & H)];
      eauto using mint_keeps_flagged.
Qed.

Theorem reachable_badges_flagged (d : address) (w : World) :
  reachable d w -> badges_flagged (badge w).
Proof.
  induction 1 as [|w e c _ IH Hs _].
  - intros a. reflexivity.
  - destruct (step_ok_or_same e c w) as [(w' & Hx & ->)|(err & _ & ->)];
      [|exact IH].
    now apply (exec_badges_flagged e c w).
Qed.

(** *** The loan counters of the registry *)

Lemma balanced_same (w w' : World) :
  Registry.creditProfiles (creditRegistry w')
  = Registry.creditProfiles (creditRegistry w) ->
  activeLoanCount (pool w') = activeLoanCount (pool w) ->
  counters_balanced w -> counters_balanced w'.
Proof.
  intros Hr Hc Hw u. specialize (Hw u). cbv zeta in *.
  rewrite Hr, Hc. exact Hw.
Qed.

Lemma exec_counters_balanced (e : env) (c : call) (w w' : World) :
  exec e c w = Ok w' -> pool_reported c ->
  counters_balanced w -> counters_balanced w'.
Proof.
  intros H Hc Hw.
  destruct c; try contradiction;
    try (apply balanced_same with w;
         [ now rewrite (exec_registry_frame _ _ _ _ H I)
         | now destruct (exec_loans_frame _ _ _ _ H I) as [_ ->]
         | exact Hw ]).
  - (* createProfile *)
    open_call H. apply createProfile_ok in E as (_ & Ha & _ & ->).
    intros v. specialize (Hw v). cbn in *. unfold upd.
    destruct (v =? user) eqn:Ev; [|exact Hw].
    apply N.eqb_eq in Ev. subst v. cbn.
    destruct Hw as [_ Hw]. destruct (Hw Ha) as [_ ->]. split; [lia|easy].
  - (* updateScore *)
    open_call H. apply updateScore_ok in E as (_ & _ & E). cbv zeta in E.
    subst a. intros v. specialize (Hw v). cbn in *. unfold upd.
    destruct (v =? user) eqn:Ev; [|exact Hw].
    apply N.eqb_eq in Ev. subst v.
    destruct (Registry.isActive _) eqn:Ha; cbn.
    + split; [tauto|easy].
    + destruct Hw as [_ Hw]. destruct (Hw eq_refl) as [_ ->].
      split; [lia|easy].
  - (* grantRole *)
    open_call H. apply balanced_same with w; [|reflexivity|exact Hw].
    cbn. apply role_change_profiles. left. eauto.
  - open_call H. apply balanced_same with w; [|reflexivity|exact Hw].
    cbn. apply role_change_profiles. right. left. eauto.
  - open_call H. apply balanced_same with w; [|reflexivity|exact Hw].
    cbn. apply role_change_profiles. right. right. eauto.
  - (* requestLoan *)
    cbn [exec] in H.
    apply requestLoan_ok in H as (H0 & Hn & _ & Hr & _). cbv zeta in *.
    apply recordLoan_ok in Hr as (_ & Ha & Hr). cbv zeta in Hr.
    intros v. specialize (Hw v). cbv zeta in *. rewrite Hn, Hr. cbn.
    unfold upd. destruct (v =? msg_sender e) eqn:Ev; [|exact Hw].
    apply N.eqb_eq in Ev. subst v. cbn. rewrite H0 in Hw.
    split; [lia|easy].
  - (* repayLoan *)
    cbn [exec] in H.
    apply repayLoan_ok in H as (l & _ & _ & _ & H1 & Hn & _ & Hr & _).
    cbv zeta in *.
    apply recordRepayment_ok in Hr as (_ & Ha & t & Hr).
    intros v. specialize (Hw v). cbv zeta in *. rewrite Hn, Hr. cbn.
    unfold upd. destruct (v =? msg_sender e) eqn:Ev; [|exact Hw].
    apply N.eqb_eq in Ev. subst v. cbn. split; [lia|easy].
Qed.

Theorem reachable_counters_balanced (d : address) (w : World) :
  reachable_by pool_reported d w -> counters_balanced w.
Proof.
  induction 1 as [|w e c _ IH _ Hc].
  - intros u. cbn. split; [lia|auto].
  - destruct (step_ok_or_same e c w) as [(w' & Hx & ->)|(err & _ & ->)];
      [|exact IH].
    now apply (exec_counters_balanced e c w).
Qed.

End SystemFacts.

(** ** The registry's counters and record functions *)

Module CounterFacts.
Import Pool System Props Ledger RegistryFacts PoolFacts SystemFacts.

Lemma covered_same (w w' : World) :
  Registry.creditProfiles (creditRegistry w')
  = Registry.creditProfiles (creditRegistry w) ->
  activeLoanCount (pool w') = activeLoanCount (pool w) ->
  counters_covered w -> counters_covered w'.
Proof.
  intros Hr Hc Hw u. specialize (Hw u). cbv zeta in *.
  rewrite Hr, Hc. exact Hw.
Qed.

Lemma exec_counters_covered (e : env) (c : call) (w w' : World) :
  exec e c w = Ok w' -> pool_settles c ->
  counters_covered w -> counters_covered w'.
Proof.
  intros H Hc Hw.
  destruct c; try contradiction;
    try (apply covered_same with w;
         [ now rewrite (exec_registry_frame _ _ _ _ H I)
         | now destruct (exec_loans_frame _ _ _ _ H I) as [_ ->]
         | exact Hw ]).
  - (* createProfile *)
    open_call H.
    match goal with E : Registry.createProfile _ _ _ _ = Ok _ |- _ =>
      apply createProfile_ok in E as (_ & Ha & _ & ->) end.
    intros v. specialize (Hw v). cbn in *. unfold upd.
    destruct (v =? user) eqn:Ev; [|exact Hw].
    apply N.eqb_eq in Ev. subst v. cbn.
    destruct Hw as [_ Hw]. destruct (Hw Ha) as (_ & _ & ->).
    split; [lia|discriminate].
  - (* updateScore *)
    open_call H.
    match goal with E : Registry.updateScore _ _ _ _ = Ok _ |- _ =>
      apply updateScore_ok in E as (_ & _ & E); cbv zeta in E; subst end.
    intros v. specialize (Hw v). cbn in *. unfold upd.
    destruct (v =? user) eqn:Ev; [|exact Hw].
    apply N.eqb_eq in Ev. subst v.
    destruct (Registry.isActive _) eqn:Ha; cbn.
    + split; [tauto|discriminate].
    + destruct Hw as [_ Hw]. destruct (Hw eq_refl) as (_ & _ & ->).
      split; [lia|discriminate].
  - (* recordLoan, by an oracle *)
    open_call H.
    match goal with E : Registry.recordLoan _ _ _ = Ok _ |- _ =>
      apply recordLoan_ok in E as (_ & Ha & ->) end.
    intros v. specialize (Hw v). cbn in *. unfold upd.
    destruct (v =? user) eqn:Ev; [|exact Hw].
    apply N.eqb_eq in Ev. subst v. cbn.
    split; [lia|discriminate].
  - (* grantRole *)
    open_call H. apply covered_same with w; [|reflexivity|exact Hw].
    cbn. apply role_change_profiles. left. eauto.
  - open_call H. apply covered_same with w; [|reflexivity|exact Hw].
    cbn. apply role_change_profiles. right. left. eauto.
  - open_call H. apply covered_same with w; [|reflexivity|exact Hw].
    cbn. apply role_change_profiles. right. right. eauto.
  - (* requestLoan *)
    cbn [exec] in H.
    apply requestLoan_ok in H as (H0 & Hn & _ & Hr & _). cbv zeta in *.
    apply recordLoan_ok in Hr as (_ & Ha & Hr). cbv zeta in Hr.
    intros v. specialize (Hw v). cbv zeta in *. rewrite Hn, Hr. cbn.
    unfold upd. destruct (v =? msg_sender e) eqn:Ev; [|exact Hw].
    apply N.eqb_eq in Ev. subst v. cbn. rewrite H0 in Hw.
    split; [lia|discriminate].
  - (* repayLoan *)
    cbn [exec] in H.
    apply repayLoan_ok in H as (l & _ & _ & _ & H1 & Hn & _ & Hr & _).
    cbv zeta in *.
    apply recordRepayment_ok in Hr as (_ & Ha & t & Hr).
    intros v. specialize (Hw v). cbv zeta in *. rewrite Hn, Hr. cbn.
    unfold upd. destruct (v =? msg_sender e) eqn:Ev; [|exact Hw].
    apply N.eqb_eq in Ev. subst v. cbn. split; [lia|discriminate].
Qed.

Lemma reachable_counters_covered (d : address) (w : World) :
  reachable_by pool_settles d w -> counters_covered w.
Proof.
  induction 1 as [|w e c _ IH _ Hc].
  - intros u. cbn. split; [lia|auto].
  - destruct (step_ok_or_same e c w) as [(w' & Hx & ->)|(err & _ & ->)];
      [|exact IH].
    now apply (exec_counters_covered e c w).
Qed.

Lemma settled_oracle_records_a_loan :
  reachable_by pool_settles Scenario.deployer Cases.oracle_records_a_loan.
Proof.
  apply reachable_by_run.
  { calls_reported. }
  apply reachable_by_run.
  { cbv [Scenario.cycle Scenario.borrow Scenario.fund_repayment app].
    calls_reported. }
  apply reachable_by_run; [|apply reach_genesis].
  unfold Scenario.setup. calls_reported.
Qed.

Lemma reachable_default_without_loan :
  reachable Scenario.deployer Cases.default_without_loan.
Proof.
  apply reachable_run; [|apply reach_genesis]. senders_nonzero.
Qed.

(** An oracle's [recordRepayment] for a profile that exists, with a score
    of at most 100, fails on the counter's overflow only. *)
Lemma recordRepayment_accepts (e : env) (u : address) (r : Registry.State) :
  Registry.roles r Registry.ORACLE_ROLE (msg_sender e) = true ->
  Registry.isActive (Registry.creditProfiles r u) = true ->
  Registry.score (Registry.creditProfiles r u) <= 100 ->
  Registry.successfulRepayments (Registry.creditProfiles r u) < MAX_UINT256 ->
  exists r', Registry.recordRepayment e u r = Ok r'.
Proof.
  intros Hr Ha Hs Hn.
  unfold Registry.recordRepayment, Registry.onlyRole, require, add256, add8.
  rewrite Hr, Ha.
  assert (Hfit : (Registry.successfulRepayments (Registry.creditProfiles r u)
                  + 1 <=? MAX_UINT256) = true) by (apply N.leb_le; lia).
  rewrite Hfit. cbv zeta.
  destruct (Registry.score (Registry.creditProfiles r u)
            <? Registry.MAX_SCORE); [|eexists; reflexivity].
  assert (H8 : (Registry.score (Registry.creditProfiles r u) + 2
                <=? MAX_UINT8) = true)
    by (apply N.leb_le; unfold MAX_UINT8; lia).
  rewrite H8. eexists. reflexivity.
Qed.

(** An oracle's [recordDefault] for a profile that exists fails on the
    counter's overflow only. *)
Lemma recordDefault_accepts (e : env) (u : address) (r : Registry.State) :
  Registry.roles r Registry.ORACLE_ROLE (msg_sender e) = true ->
  Registry.isActive (Registry.creditProfiles r u) = true ->
  Registry.defaultedLoans (Registry.creditProfiles r u) < MAX_UINT256 ->
  exists r', Registry.recordDefault e u r = Ok r'.
Proof.
  intros Hr Ha Hn.
  unfold Registry.recordDefault, Registry.onlyRole, require, add256.
  rewrite Hr, Ha.
  assert (Hfit : (Registry.defaultedLoans (Registry.creditProfiles r u)
                  + 1 <=? MAX_UINT256) = true) by (apply N.leb_le; lia).
  rewrite Hfit. cbv zeta.
  destruct (Registry.MIN_SCORE
            <? Registry.score (Registry.creditProfiles r u));
    eexists; reflexivity.
Qed.

End CounterFacts.

(** * The claims of the specification *)

Module Spec.
Import Pool System Props TokenFacts RegistryFacts BadgeFacts PoolFacts
  SystemFacts.

(** C1 (what the code does; the claim asks for the opposite of the last
    point).  A repayment of an active loan after [dueDate + 7 days] always
    reverts, so the transaction leaves the state it found: the loan is
    still Active, no default is recorded and the score keeps its value.
    The branch does write the default first ([markDefaulted]: the loan
    becomes Defaulted and [defaultedLoans] goes up by one), and when these
    writes go through the call ends in
    [revert("Loan defaulted - past grace period")], which discards them. *)
Theorem repayLoan_past_grace_rolls_back (e : env) (i : N) (w : World)
  (loan : Loan)
  (Hn : nth_error (getBorrowerLoans w (msg_sender e)) (N.to_nat i) = Some loan)
  (Ha : status loan = Active)
  (Hlate : dueDate loan + REPAYMENT_GRACE_PERIOD < block_timestamp e) :
  is_revert (repayLoan e i w) = true
  /\ step e (RepayLoan i) w = w
  /\ (forall w1,
         markDefaulted e i loan w = Ok w1 ->
         isRepaid loan = false -> borrower loan = msg_sender e ->
         amount loan + interestAmount loan <= MAX_UINT256 ->
         block_timestamp e <= MAX_UINT256 ->
         repayLoan e i w = Revert (Error "Loan defaulted - past grace period")
         /\ (exists loan',
                nth_error (getBorrowerLoans w1 (msg_sender e)) (N.to_nat i)
                = Some loan'
                /\ status loan' = Defaulted)
         /\ Registry.defaultedLoans
              (Registry.getProfile (creditRegistry w1) (msg_sender e))
            = Registry.defaultedLoans
                (Registry.getProfile (creditRegistry w) (msg_sender e)) + 1).
Proof.
  unfold getBorrowerLoans in Hn. apply status_active in Ha.
  assert (Hlen : (i <? N.of_nat (List.length
                                   (borrowerLoans (pool w) (msg_sender e))))
                 = true).
  { apply N.ltb_lt.
    assert (N.to_nat i < List.length (borrowerLoans (pool w) (msg_sender e)))%nat
      by (apply nth_error_Some; congruence).
    lia. }
  assert (Hr : is_revert (repayLoan e i w) = true).
  { unfold repayLoan, require. rewrite Hlen, Hn, Ha.
    destruct (negb (isRepaid loan)); [|reflexivity].
    destruct (borrower loan =? msg_sender e); [|reflexivity].
    destruct (add256 (amount loan) (interestAmount loan)); [|reflexivity].
    unfold add256.
    destruct (dueDate loan + REPAYMENT_GRACE_PERIOD <=? MAX_UINT256);
      [|reflexivity].
    apply N.ltb_lt in Hlate. rewrite Hlate.
    destruct (markDefaulted e i loan w); reflexivity. }
  split; [exact Hr|]. split.
  - unfold step, transact. cbn [exec].
    destruct (repayLoan e i w); [discriminate|reflexivity].
  - intros w1 Hm Hrep Hb Hsum Hnow. split; [|split].
    + unfold repayLoan, require, add256.
      rewrite Hlen, Hn, Ha, Hrep, Hb, N.eqb_refl.
      apply N.leb_le in Hsum. rewrite Hsum.
      assert (Hd : (dueDate loan + REPAYMENT_GRACE_PERIOD <=? MAX_UINT256)
                   = true) by (apply N.leb_le; lia).
      apply N.ltb_lt in Hlate. rewrite Hd, Hlate, Hm. reflexivity.
    + unfold markDefaulted in Hm. steps. facts.
      unfold getBorrowerLoans. cbn. rewrite upd_same.
      eexists. split; [eapply nth_error_set_nth_same; exact Hn|].
      unfold status. cbn. now rewrite Hrep.
    + unfold markDefaulted in Hm. steps. facts.
      match goal with
      | Hd : Registry.recordDefault _ _ _ = Ok _ |- _ =>
          apply recordDefault_ok in Hd as (_ & _ & t & ->)
      end.
      unfold Registry.getProfile. cbn. now rewrite upd_same.
Qed.

Lemma repayLoan_past_grace_rolls_back_witness :
  repayLoan (Scenario.by_ Scenario.borrower Scenario.too_late) 0
    Scenario.one_loan
  = Revert (Error "Loan defaulted - past grace period")
  /\ step (Scenario.by_ Scenario.borrower Scenario.too_late) (RepayLoan 0)
       Scenario.one_loan
     = Scenario.one_loan.
Proof.
  assert (Hn : nth_error
                 (getBorrowerLoans Scenario.one_loan
                    (msg_sender
                       (Scenario.by_ Scenario.borrower Scenario.too_late)))
                 (N.to_nat 0)
               = Some (mkLoan 100000000 8000000 100 2592100 true false 3))
    by (vm_compute; reflexivity).
  assert (Hlate : 2592100 + REPAYMENT_GRACE_PERIOD
                  < block_timestamp
                      (Scenario.by_ Scenario.borrower Scenario.too_late))
    by (vm_compute; reflexivity).
  pose proof (repayLoan_past_grace_rolls_back
                (Scenario.by_ Scenario.borrower Scenario.too_late) 0
                Scenario.one_loan
                (mkLoan 100000000 8000000 100 2592100 true false 3)
                Hn eq_refl Hlate) as [_ [H2 H3]].
  split; [|exact H2].
  destruct (markDefaulted (Scenario.by_ Scenario.borrower Scenario.too_late) 0
              (mkLoan 100000000 8000000 100 2592100 true false 3)
              Scenario.one_loan) as [w1|] eqn:E.
  - destruct (H3 w1 eq_refl eq_refl eq_refl) as [H _];
      [vm_compute; discriminate | vm_compute; discriminate | exact H].
  - vm_compute in E. discriminate.
Defined.

(** C2 (what the code does; the claim asks for the opposite).  A borrower
    with two repaid loans and no default repays a third, active loan in
    time, after the oracle lowered the score to 40.  The repayment makes it
    three repayments, so the badge check calls [mintBadge] with the score 42;
    [mintBadge] reverts with "Credit score too low", and the whole
    [repayLoan] reverts with it: the state is the one of before, the loan
    still Active. *)
Theorem repayLoan_rolled_back_by_badge_mint :
  reachable Scenario.deployer Scenario.third_loan_low_score
  /\ (exists loan,
         nth_error (getBorrowerLoans Scenario.third_loan_low_score
                      Scenario.borrower) 2 = Some loan
         /\ status loan = Active
         /\ 304 <= dueDate loan + REPAYMENT_GRACE_PERIOD)
  /\ repayLoan (Scenario.by_ Scenario.borrower 304) 2
       Scenario.third_loan_low_score
     = Revert (Error "Credit score too low")
  /\ Badge.mintBadge (Scenario.by_ pool_address 304) Scenario.borrower 42 3
       (badge Scenario.third_loan_low_score)
     = Revert (Error "Credit score too low")
  /\ step (Scenario.by_ Scenario.borrower 304) (RepayLoan 2)
       Scenario.third_loan_low_score
     = Scenario.third_loan_low_score.
Proof.
  split; [apply reachable_third_loan_low_score|].
  split.
  { exists (mkLoan 100000000 8000000 300 2592300 true false 3).
    split; [vm_compute; reflexivity|].
    split; [reflexivity|vm_compute; discriminate]. }
  assert (H : repayLoan (Scenario.by_ Scenario.borrower 304) 2
                Scenario.third_loan_low_score
              = Revert (Error "Credit score too low"))
    by (vm_compute; reflexivity).
  split; [exact H|]. split; [vm_compute; reflexivity|].
  unfold step, transact. cbn [exec]. now rewrite H.
Qed.

(** C3, as stated: refuted.  An authorized oracle creates a profile and
    records a repayment for a principal that never took a loan:
    [totalLoans = 0] and [successfulRepayments = 1]. *)
Lemma counters_incoherent_after_oracle_call :
  reachable Scenario.deployer Scenario.repayment_without_loan
  /\ Registry.totalLoans
       (Registry.getProfile (creditRegistry Scenario.repayment_without_loan)
          Scenario.borrower) = 0
  /\ Registry.successfulRepayments
       (Registry.getProfile (creditRegistry Scenario.repayment_without_loan)
          Scenario.borrower) = 1
  /\ ~ counters_coherent
         (Registry.getProfile (creditRegistry Scenario.repayment_without_loan)
            Scenario.borrower).
Proof.
  split; [apply reachable_repayment_without_loan|].
  split; [reflexivity|]. split; [reflexivity|].
  unfold counters_coherent. vm_compute. intros H. now apply H.
Qed.

(** A direct [recordDefault] breaks the relation in the same way: a profile
    with [totalLoans = 0] and [defaultedLoans = 1]. *)
Lemma counters_incoherent_after_oracle_default :
  reachable Scenario.deployer Cases.default_without_loan
  /\ ~ counters_coherent
         (Registry.getProfile (creditRegistry Cases.default_without_loan)
            Scenario.borrower).
Proof.
  split; [apply CounterFacts.reachable_default_without_loan|].
  unfold counters_coherent. vm_compute. intros H. now apply H.
Qed.

(** C3, amended.  In every state of every execution in which
    [recordRepayment] and [recordDefault] are called by the lending pool
    only, every principal has
    [totalLoans >= successfulRepayments + defaultedLoans].  Any other call
    of any contract is allowed: the oracles' [createProfile] and
    [updateScore], and also their own [recordLoan], which only raises
    [totalLoans]. *)
Theorem counters_coherent_when_pool_settles (d : address) (w : World)
  (u : address) (Hw : reachable_by Ledger.pool_settles d w) :
  counters_coherent (Registry.getProfile (creditRegistry w) u).
Proof.
  apply CounterFacts.reachable_counters_covered in Hw.
  destruct (Hw u) as [Hu _].
  unfold counters_coherent, Registry.getProfile. lia.
Qed.

Lemma counters_coherent_when_pool_settles_witness :
  counters_coherent
    (Registry.getProfile (creditRegistry Cases.oracle_records_a_loan)
       Scenario.borrower)
  /\ Registry.totalLoans
       (Registry.getProfile (creditRegistry Cases.oracle_records_a_loan)
          Scenario.borrower) = 2
  /\ Registry.successfulRepayments
       (Registry.getProfile (creditRegistry Cases.oracle_records_a_loan)
          Scenario.borrower) = 1.
Proof.
  split; [|split; vm_compute; reflexivity].
  apply (counters_coherent_when_pool_settles Scenario.deployer
           Cases.oracle_records_a_loan Scenario.borrower).
  apply CounterFacts.settled_oracle_records_a_loan.
Defined.

(** C4.  In every reachable state every profile's score is in [0,100].
    A score above 100 makes [createProfile] and [updateScore] revert, so
    nothing changes, and the error an oracle gets is "Invalid score"
    ([createProfile] first refuses a principal that has a profile).
    An oracle's [recordRepayment] for a profile that exists succeeds (short
    of the overflow of its counter) and sets the score to
    [min (score + 2) 100]; an oracle's [recordDefault] succeeds likewise and
    sets the score to [score - 15], or to 0 below 15; neither touches
    another profile, and no successful call of either does anything else to
    the score. *)
Theorem score_stays_in_range (d : address) (w : World) (Hw : reachable d w) :
  (forall u,
      Registry.score (Registry.getProfile (creditRegistry w) u) <= 100)
  /\ (forall e u sc, 100 < sc ->
         step e (CreateProfile u sc) w = w
         /\ step e (UpdateScore u sc) w = w
         /\ (Registry.roles (creditRegistry w) Registry.ORACLE_ROLE
               (msg_sender e) = true ->
             Registry.updateScore e u sc (creditRegistry w)
             = Revert (Error "Invalid score")
             /\ (Registry.isActive (Registry.getProfile (creditRegistry w) u)
                 = false ->
                 Registry.createProfile e u sc (creditRegistry w)
                 = Revert (Error "Invalid score"))))
  /\ (forall e u r',
         Registry.recordRepayment e u (creditRegistry w) = Ok r' ->
         Registry.score (Registry.getProfile r' u)
         = N.min (Registry.score (Registry.getProfile (creditRegistry w) u) + 2)
             100)
  /\ (forall e u r',
         Registry.recordDefault e u (creditRegistry w) = Ok r' ->
         let s := Registry.score (Registry.getProfile (creditRegistry w) u) in
         let s' := Registry.score (Registry.getProfile r' u) in
         (15 <= s -> s' + 15 = s) /\ (s <= 15 -> s' = 0))
  /\ (forall e u,
         Registry.roles (creditRegistry w) Registry.ORACLE_ROLE (msg_sender e)
         = true ->
         Registry.isActive (Registry.getProfile (creditRegistry w) u) = true ->
         Registry.successfulRepayments
           (Registry.getProfile (creditRegistry w) u) < MAX_UINT256 ->
         exists r',
           Registry.recordRepayment e u (creditRegistry w) = Ok r'
           /\ Registry.score (Registry.getProfile r' u)
              = N.min
                  (Registry.score (Registry.getProfile (creditRegistry w) u)
                   + 2) 100
           /\ (forall v, v <> u ->
                 Registry.getProfile r' v
                 = Registry.getProfile (creditRegistry w) v))
  /\ (forall e u,
         Registry.roles (creditRegistry w) Registry.ORACLE_ROLE (msg_sender e)
         = true ->
         Registry.isActive (Registry.getProfile (creditRegistry w) u) = true ->
         Registry.defaultedLoans
           (Registry.getProfile (creditRegistry w) u) < MAX_UINT256 ->
         exists r',
           Registry.recordDefault e u (creditRegistry w) = Ok r'
           /\ (15 <= Registry.score (Registry.getProfile (creditRegistry w) u)
               -> Registry.score (Registry.getProfile r' u) + 15
                  = Registry.score (Registry.getProfile (creditRegistry w) u))
           /\ (Registry.score (Registry.getProfile (creditRegistry w) u) <= 15
               -> Registry.score (Registry.getProfile r' u) = 0)
           /\ (forall v, v <> u ->
                 Registry.getProfile r' v
                 = Registry.getProfile (creditRegistry w) v)).
Proof.
  pose proof (registry_reachable_score d _ (reachable_registry d w Hw)) as Hs.
  unfold score_in_range, Registry.MAX_SCORE in Hs.
  assert (Hrep : forall e u r',
             Registry.recordRepayment e u (creditRegistry w) = Ok r' ->
             Registry.score (Registry.getProfile r' u)
             = N.min
                 (Registry.score (Registry.getProfile (creditRegistry w) u)
                  + 2) 100
             /\ (forall v, v <> u ->
                   Registry.getProfile r' v
                   = Registry.getProfile (creditRegistry w) v)).
  { intros e u r' H. apply recordRepayment_ok in H as (_ & _ & t & ->).
    unfold Registry.getProfile. cbn. rewrite upd_same. cbn. split.
    - specialize (Hs u). unfold Registry.MAX_SCORE.
      destruct (N.ltb_spec (Registry.score (Registry.creditProfiles
                                             (creditRegistry w) u)) 100); lia.
    - intros v Hv. now apply upd_other. }
  assert (Hdef : forall e u r',
             Registry.recordDefault e u (creditRegistry w) = Ok r' ->
             (15 <= Registry.score (Registry.getProfile (creditRegistry w) u)
              -> Registry.score (Registry.getProfile r' u) + 15
                 = Registry.score (Registry.getProfile (creditRegistry w) u))
             /\ (Registry.score (Registry.getProfile (creditRegistry w) u)
                 <= 15
                 -> Registry.score (Registry.getProfile r' u) = 0)
             /\ (forall v, v <> u ->
                   Registry.getProfile r' v
                   = Registry.getProfile (creditRegistry w) v)).
  { intros e u r' H. apply recordDefault_ok in H as (_ & _ & t & ->).
    unfold Registry.getProfile. cbn. rewrite upd_same. cbn.
    split; [lia|]. split; [lia|]. intros v Hv. now apply upd_other. }
  split; [exact Hs|]. split; [|split; [|split; [|split]]].
  - intros e u sc Hsc.
    assert (Hc : is_revert (Registry.createProfile e u sc (creditRegistry w))
                 = true).
    { destruct (Registry.createProfile _ _ _ _) as [r|] eqn:E; [|reflexivity].
      apply createProfile_ok in E as (_ & _ & E & _).
      unfold Registry.MAX_SCORE in E. lia. }
    assert (Hu : is_revert (Registry.updateScore e u sc (creditRegistry w))
                 = true).
    { destruct (Registry.updateScore _ _ _ _) as [r|] eqn:E; [|reflexivity].
      apply updateScore_ok in E as (_ & E & _).
      unfold Registry.MAX_SCORE in E. lia. }
    assert (Hr : (sc <=? Registry.MAX_SCORE) = false)
      by (apply N.leb_gt; exact Hsc).
    split; [|split].
    + unfold step, transact. cbn [exec]. unfold in_registry.
      destruct (Registry.createProfile _ _ _ _); [discriminate|reflexivity].
    + unfold step, transact. cbn [exec]. unfold in_registry.
      destruct (Registry.updateScore _ _ _ _); [discriminate|reflexivity].
    + intros Hrole. split.
      * unfold Registry.updateScore, Registry.onlyRole, require.
        rewrite Hrole, Hr, andb_false_r. reflexivity.
      * intros Ha. unfold Registry.getProfile in Ha.
        unfold Registry.createProfile, Registry.onlyRole, require.
        rewrite Hrole, Ha, Hr, andb_false_r. reflexivity.
  - intros e u r' H. now apply (Hrep e u r').
  - intros e u r' H. cbv zeta. destruct (Hdef e u r' H) as (H1 & H2 & _).
    split; assumption.
  - intros e u Hr Ha Hn. unfold Registry.getProfile in Ha, Hn.
    destruct (CounterFacts.recordRepayment_accepts e u (creditRegistry w)
                Hr Ha (Hs u) Hn) as [r' H].
    exists r'. split; [exact H|]. now apply (Hrep e u r').
  - intros e u Hr Ha Hn. unfold Registry.getProfile in Ha, Hn.
    destruct (CounterFacts.recordDefault_accepts e u (creditRegistry w)
                Hr Ha Hn) as [r' H].
    exists r'. split; [exact H|]. now apply (Hdef e u r').
Qed.

Lemma score_stays_in_range_witness :
  Registry.score
    (Registry.getProfile (creditRegistry Scenario.one_repaid)
       Scenario.borrower) <= 100
  /\ step (Scenario.by_ Scenario.deployer 500)
       (UpdateScore Scenario.borrower 101) Scenario.one_repaid
     = Scenario.one_repaid
  /\ (exists r',
        Registry.recordRepayment (Scenario.by_ Scenario.deployer 500)
          Scenario.borrower (creditRegistry Scenario.one_repaid) = Ok r'
        /\ Registry.score (Registry.getProfile r' Scenario.borrower) = 79)
  /\ (exists r',
        Registry.recordDefault (Scenario.by_ Scenario.deployer 500)
          Scenario.borrower (creditRegistry Scenario.one_repaid) = Ok r'
        /\ Registry.score (Registry.getProfile r' Scenario.borrower) + 15
           = 77).
Proof.
  pose proof (score_stays_in_range Scenario.deployer Scenario.one_repaid
                reachable_one_repaid) as (H1 & H2 & _ & _ & H5 & H6).
  split; [apply H1|]. split; [|split].
  - apply (H2 (Scenario.by_ Scenario.deployer 500) Scenario.borrower 101).
    reflexivity.
  - destruct (H5 (Scenario.by_ Scenario.deployer 500) Scenario.borrower)
      as (r' & Hr & Hsc & _);
      [vm_compute; reflexivity|vm_compute; reflexivity
      |vm_compute; reflexivity|].
    exists r'. split; [exact Hr|]. rewrite Hsc. vm_compute. reflexivity.
  - destruct (H6 (Scenario.by_ Scenario.deployer 500) Scenario.borrower)
      as (r' & Hr & Hsc & _);
      [vm_compute; reflexivity|vm_compute; reflexivity
      |vm_compute; reflexivity|].
    exists r'. split; [exact Hr|]. rewrite Hsc.
    + vm_compute. reflexivity.
    + vm_compute. discriminate.
Defined.

(** C5.  In every reachable state a borrower has at most one Active loan.
    While the caller has an Active loan, [requestLoan] reverts for every
    amount and changes nothing, and for an amount within the limits of a
    loan the error is "Active loan exists" (the two checks of the amount
    come first).  A loan that is Repaid or Defaulted is the same after any
    further sequence of calls. *)
Theorem one_active_loan (d : address) (w : World) (b : address)
  (Hw : reachable d w) :
  count_active (getBorrowerLoans w b) <= 1
  /\ (forall e amt i l,
         msg_sender e = b ->
         nth_error (getBorrowerLoans w b) i = Some l -> status l = Active ->
         is_revert (requestLoan e amt w) = true
         /\ step e (RequestLoan amt) w = w
         /\ (MIN_LOAN_AMOUNT <= amt <= MAX_LOAN_AMOUNT ->
             requestLoan e amt w = Revert (Error "Active loan exists")))
  /\ (forall tr i l,
         nth_error (getBorrowerLoans w b) i = Some l -> status l <> Active ->
         nth_error (getBorrowerLoans (run tr w) b) i = Some l).
Proof.
  pose proof (reachable_loans_counted d w Hw b) as [Hc Hle].
  unfold getBorrowerLoans. split; [now rewrite <- Hc|]. split.
  - intros e amt i l Hb Hn Ha. apply status_active in Ha.
    pose proof (count_active_pos _ _ _ Hn Ha) as Hpos.
    assert (Hz : (activeLoanCount (pool w) (msg_sender e) =? 0) = false)
      by (apply N.eqb_neq; rewrite Hb; lia).
    assert (Hr : is_revert (requestLoan e amt w) = true).
    { unfold requestLoan, require. rewrite Hz.
      destruct (MIN_LOAN_AMOUNT <=? amt); [|reflexivity].
      destruct (amt <=? MAX_LOAN_AMOUNT); reflexivity. }
    split; [exact Hr|]. split.
    + unfold step, transact. cbn [exec].
      destruct (requestLoan e amt w); [discriminate|reflexivity].
    + intros [H1 H2]. apply N.leb_le in H1, H2.
      unfold requestLoan, require. now rewrite H1, H2, Hz.
  - intros tr i l Hn Hs. apply run_keeps_terminal; [exact Hn|].
    destruct (isActive l) eqn:Ha; [|reflexivity].
    exfalso. apply Hs. now apply status_active.
Qed.

Lemma one_active_loan_witness :
  count_active (getBorrowerLoans Scenario.one_loan Scenario.borrower) <= 1
  /\ requestLoan (Scenario.by_ Scenario.borrower 200) (Scenario.usdc 100)
       Scenario.one_loan
     = Revert (Error "Active loan exists").
Proof.
  pose proof (one_active_loan Scenario.deployer Scenario.one_loan
                Scenario.borrower reachable_one_loan) as [H1 [H2 _]].
  split; [exact H1|].
  refine (proj2 (proj2 (H2 (Scenario.by_ Scenario.borrower 200)
                          (Scenario.usdc 100) 0%nat
                          (mkLoan 100000000 8000000 100 2592100 true false 3)
                          eq_refl _ eq_refl)) _).
  - vm_compute. reflexivity.
  - vm_compute. split; discriminate.
Defined.

(** C6, as stated: refuted.  For the fixed amount [2 ^ 253], a value of the
    parameter's type, [calculateInterest] returns 5 percent at score 95 and
    panics at score 75, where [amount * 8] does not fit a [uint256]: it is
    not [amount * rate / 100] there, and not a function of the score over
    [0,100]. *)
Lemma calculateInterest_overflows :
  2 ^ 253 <= MAX_UINT256
  /\ calculateInterest (2 ^ 253) 95 = Ok (2 ^ 253 * spec_rate 95 / 100)
  /\ calculateInterest (2 ^ 253) 75 = Revert (Panic 17)
  /\ calculateInterest (2 ^ 253) 75 <> Ok (2 ^ 253 * spec_rate 75 / 100).
Proof.
  split; [vm_compute; discriminate|].
  split; [vm_compute; reflexivity|].
  assert (H : calculateInterest (2 ^ 253) 75 = Revert (Panic 17))
    by (vm_compute; reflexivity).
  split; [exact H|]. rewrite H. discriminate.
Qed.

(** C6, amended.  [calculateInterest] applies the rate of the
    specification's schedule (5 from 91, 6 for 81-90, 8 for 71-80, 10 below)
    and returns [amount * rate / 100], rounded down, exactly when the
    product fits a [uint256]; past that the checked multiplication panics.
    The product fits for every amount a loan can have, and at every score
    for every amount up to a tenth of the largest [uint256]: for such an
    amount the interest is a non-increasing step function of the score.
    For any amount, a higher score never gives a higher interest where the
    interest of the lower score is defined. *)
Theorem calculateInterest_schedule (amount score : N) :
  rateOf score = spec_rate score
  /\ (amount * spec_rate score <= MAX_UINT256 ->
      calculateInterest amount score = Ok (amount * spec_rate score / 100))
  /\ (MAX_UINT256 < amount * spec_rate score ->
      calculateInterest amount score = Revert (Panic 17))
  /\ (amount <= MAX_LOAN_AMOUNT -> amount * spec_rate score <= MAX_UINT256)
  /\ (forall score',
         score <= score' ->
         amount * spec_rate score <= MAX_UINT256 ->
         calculateInterest amount score'
         = Ok (amount * spec_rate score' / 100)
         /\ amount * spec_rate score' / 100 <= amount * spec_rate score / 100)
  /\ (amount * 10 <= MAX_UINT256 ->
      forall s s',
        s <= s' ->
        calculateInterest amount s = Ok (amount * spec_rate s / 100)
        /\ calculateInterest amount s' = Ok (amount * spec_rate s' / 100)
        /\ amount * spec_rate s' / 100 <= amount * spec_rate s / 100).
Proof.
  rewrite <- rateOf_spec.
  split; [reflexivity|]. split; [|split; [|split; [|split]]].
  - intros Hfit. unfold calculateInterest, mul256, div256.
    apply N.leb_le in Hfit. now rewrite Hfit.
  - intros Hover. unfold calculateInterest, mul256.
    apply N.leb_gt in Hover. now rewrite Hover.
  - intros Hle. pose proof (rateOf_bounds score) as [_ Hr].
    apply N.le_trans with (MAX_LOAN_AMOUNT * 10).
    + now apply N.mul_le_mono.
    + vm_compute. discriminate.
  - intros score' Hs Hfit. rewrite <- rateOf_spec.
    pose proof (rateOf_antitone score score' Hs) as Hr.
    assert (Hfit' : amount * rateOf score' <= MAX_UINT256).
    { apply N.le_trans with (amount * rateOf score); [|exact Hfit].
      now apply N.mul_le_mono_l. }
    split.
    + unfold calculateInterest, mul256, div256.
      apply N.leb_le in Hfit'. now rewrite Hfit'.
    + apply N.Div0.div_le_mono. now apply N.mul_le_mono_l.
  - intros Hfit s s' Hs. rewrite <- !rateOf_spec.
    rewrite !calculateInterest_fits by exact Hfit.
    split; [reflexivity|]. split; [reflexivity|].
    apply N.Div0.div_le_mono. apply N.mul_le_mono_l.
    now apply rateOf_antitone.
Qed.

Lemma calculateInterest_schedule_witness :
  calculateInterest 100000000 75 = Ok 8000000
  /\ calculateInterest 100000000 95 = Ok 5000000
  /\ calculateInterest (2 ^ 255) 50 = Revert (Panic 17).
Proof.
  destruct (calculateInterest_schedule 100000000 75)
    as (_ & H1 & _ & _ & H4 & _).
  destruct (calculateInterest_schedule (2 ^ 255) 50) as (_ & _ & H3 & _).
  split; [|split].
  - apply H1. vm_compute. discriminate.
  - apply (H4 95); vm_compute; discriminate.
  - apply H3. vm_compute. reflexivity.
Defined.

(** C7.  Whenever the badge check of the pool returns, running it again
    returns too and changes nothing.  The borrower then holds at most one
    badge, and exactly one when eligible (three repayments, no default) with
    the pool wired to the badge contract.  A run that changed anything
    minted one badge for an eligible borrower who held none.  A borrower who
    holds a badge makes the check return without an error and without a
    change. *)
Theorem checkAndMintBadge_idempotent (d : address) (w : World) (e e' : env)
  (b : address) (Hw : reachable d w) :
  (forall w1,
      _checkAndMintBadge e b w = Ok w1 ->
      _checkAndMintBadge e' b w1 = Ok w1
      /\ Badge.balanceOf (badge w1) b <= 1
      /\ (eligible w b -> senteBadge (pool w) = badge_address ->
          Badge.balanceOf (badge w1) b = 1
          /\ Badge.hasSenteBadge (badge w1) b = true)
      /\ (w1 = w
          \/ (eligible w b
              /\ Badge.balanceOf (badge w) b = 0
              /\ Badge.nextTokenId (badge w1)
                 = Badge.nextTokenId (badge w) + 1)))
  /\ (Badge.hasSenteBadge (badge w) b = true ->
      senteBadge (pool w) = 0 \/ senteBadge (pool w) = badge_address ->
      _checkAndMintBadge e b w = Ok w).
Proof.
  pose proof (reachable_badges_flagged d w Hw) as Hf.
  split.
  - intros w1 H1.
    destruct (checkAndMintBadge_ok e b w w1 H1)
      as [->|(Hb & Hz & H3 & H0 & id & bs & Hm & ->)].
    + split; [|split; [|split]].
      * unfold _checkAndMintBadge in H1 |- *.
        destruct (senteBadge (pool w) =? 0); [reflexivity|].
        destruct (negb (senteBadge (pool w) =? badge_address));
          [discriminate|].
        destruct (0 <? Badge.balanceOf (badge w) b); [reflexivity|].
        destruct (_ && _); [|reflexivity].
        exfalso. now apply (mint_changes_world e b w).
      * unfold Badge.balanceOf. rewrite (Hf b).
        destruct (Badge.hasBadge (badge w) b); lia.
      * intros [E3 E0] Hb.
        unfold _checkAndMintBadge in H1. rewrite Hb in H1. cbn in H1.
        unfold Badge.balanceOf, Badge.hasSenteBadge in *.
        specialize (Hf b).
        destruct (Badge.hasBadge (badge w) b); [auto|].
        rewrite Hf in H1. cbn in H1.
        apply N.leb_le in E3. apply N.eqb_eq in E0.
        rewrite E3, E0 in H1. cbn in H1.
        exfalso. now apply (mint_changes_world e b w).
      * now left.
    + apply mintBadge_ok in Hm as (Hno & _ & _ & Hn & Hh & Hbal & _).
      cbn [badge pool creditRegistry usdcToken].
      unfold Badge.balanceOf, Badge.hasSenteBadge in *.
      assert (Hone : Badge.erc_balances bs b = 1)
        by (rewrite Hbal, upd_same, Hz; reflexivity).
      split; [|split; [|split]].
      * unfold _checkAndMintBadge, Badge.balanceOf.
        cbn [badge pool creditRegistry usdcToken].
        rewrite Hb, Hone. reflexivity.
      * lia.
      * intros _ _. split; [exact Hone|]. now rewrite Hh, upd_same.
      * right. unfold eligible. auto.
  - intros Hh Hcfg. unfold Badge.hasSenteBadge in Hh.
    unfold _checkAndMintBadge, Badge.balanceOf. rewrite (Hf b), Hh.
    destruct Hcfg as [->| ->]; reflexivity.
Qed.

Lemma reachable_three_recorded :
  reachable Scenario.deployer Scenario.three_recorded.
Proof.
  apply reachable_run; [senders_nonzero|apply reachable_funded].
Qed.

Lemma checkAndMintBadge_idempotent_witness :
  exists w1,
    _checkAndMintBadge (Scenario.by_ Scenario.borrower 30) Scenario.borrower
      Scenario.three_recorded = Ok w1
    /\ _checkAndMintBadge (Scenario.by_ Scenario.borrower 31)
         Scenario.borrower w1 = Ok w1
    /\ Badge.balanceOf (badge w1) Scenario.borrower = 1.
Proof.
  pose proof (proj1 (checkAndMintBadge_idempotent Scenario.deployer
                       Scenario.three_recorded
                       (Scenario.by_ Scenario.borrower 30)
                       (Scenario.by_ Scenario.borrower 31) Scenario.borrower
                       reachable_three_recorded)) as H.
  destruct (_checkAndMintBadge (Scenario.by_ Scenario.borrower 30)
              Scenario.borrower Scenario.three_recorded) as [w1|] eqn:E.
  - exists w1. destruct (H w1 eq_refl) as (H1 & _ & H3 & _).
    split; [reflexivity|]. split; [exact H1|].
    apply H3; [|vm_compute; reflexivity].
    unfold eligible. split; [vm_compute; discriminate|vm_compute; reflexivity].
  - vm_compute in E. discriminate.
Defined.

(** C8.  After a [deposit] of [X] that succeeded, the same lender's
    [withdraw] of [X] succeeds, and leaves the lender's [deposited] and the
    pool's [totalDeposits] as they were before the deposit. *)
Theorem deposit_withdraw_roundtrip (e e' : env) (X : N) (w w1 : World)
  (Hsame : msg_sender e' = msg_sender e)
  (Hdep : deposit e X w = Ok w1) :
  exists w2,
    withdraw e' X w1 = Ok w2
    /\ deposited (lenders (pool w2) (msg_sender e))
       = deposited (lenders (pool w) (msg_sender e))
    /\ totalDeposits (pool w2) = totalDeposits (pool w).
Proof.
  unfold deposit in Hdep.
  destruct (require (0 <? X) _) eqn:Hpos; [|discriminate].
  destruct (Token.transferFrom _ _ _ _ _) as [t|] eqn:Ht; [|discriminate].
  destruct (add256 (deposited _) X) as [d|] eqn:Hd; [|discriminate].
  destruct (add256 (totalDeposits _) X) as [td|] eqn:Htd; [|discriminate].
  inversion Hdep; subst w1; clear Hdep.
  apply add256_ok in Hd as [-> _]. apply add256_ok in Htd as [-> _].
  apply transferFrom_credited in Ht as Hbal.
  destruct (move_enough pool_address (msg_sender e) X t Hbal) as [t2 Ht2].
  unfold withdraw, getAvailableLiquidity, Token.balanceOf, Token.transfer.
  cbn [pool lenders deposited usdcToken totalDeposits interestEarned
       lastDepositTime msg_sender as_sender creditRegistry badge
       totalBorrowed totalRepaid borrowerLoans activeLoanCount senteBadge owner].
  rewrite Hpos, Hsame, upd_same.
  cbn [deposited interestEarned lastDepositTime].
  assert (H1 : (X <=? deposited (lenders (pool w) (msg_sender e)) + X) = true)
    by (apply N.leb_le; lia).
  assert (H2 : (X <=? Token.balances t pool_address) = true)
    by (now apply N.leb_le).
  assert (H3 : (X <=? totalDeposits (pool w) + X) = true)
    by (apply N.leb_le; lia).
  unfold require, sub256. rewrite H1, H2, H3, Ht2.
  eexists. split; [reflexivity|].
  cbn [pool lenders deposited totalDeposits]. rewrite upd_same.
  cbn [deposited]. split; lia.
Qed.

Lemma deposit_withdraw_roundtrip_witness :
  exists w2,
    withdraw (Scenario.by_ Scenario.lender 17) (Scenario.usdc 5000)
      Scenario.funded = Ok w2
    /\ deposited (lenders (pool w2) Scenario.lender)
       = deposited (lenders (pool (run (firstn 6 Scenario.setup)
                                     (genesis Scenario.deployer)))
                      Scenario.lender)
    /\ totalDeposits (pool w2)
       = totalDeposits (pool (run (firstn 6 Scenario.setup)
                                (genesis Scenario.deployer))).
Proof.
  apply (deposit_withdraw_roundtrip (Scenario.by_ Scenario.lender 16)
           (Scenario.by_ Scenario.lender 17) (Scenario.usdc 5000)
           (run (firstn 6 Scenario.setup) (genesis Scenario.deployer))
           Scenario.funded).
  - reflexivity.
  - vm_compute. reflexivity.
Defined.

(** C9 (what the code does; the claim says it never fails).
    [getUtilizationRate] returns 0 without deposits, and the truncated
    quotient while [totalRepaid <= totalBorrowed]; once [totalRepaid], which
    counts interest, exceeds [totalBorrowed], the checked subtraction
    panics and the call reverts. *)
Theorem getUtilizationRate_underflow (w : World) :
  (totalDeposits (pool w) = 0 -> getUtilizationRate w = Ok 0)
  /\ (totalDeposits (pool w) <> 0 ->
      totalRepaid (pool w) <= totalBorrowed (pool w) ->
      (totalBorrowed (pool w) - totalRepaid (pool w)) * 100 <= MAX_UINT256 ->
      getUtilizationRate w
      = Ok ((totalBorrowed (pool w) - totalRepaid (pool w)) * 100
            / totalDeposits (pool w)))
  /\ (totalDeposits (pool w) <> 0 ->
      totalBorrowed (pool w) < totalRepaid (pool w) ->
      getUtilizationRate w = Revert (Panic 17)).
Proof.
  unfold getUtilizationRate, sub256, mul256, div256. split; [|split].
  - intros ->. reflexivity.
  - intros Hdep Hle Hfit. apply N.eqb_neq in Hdep. rewrite Hdep.
    apply N.leb_le in Hle, Hfit. now rewrite Hle, Hfit.
  - intros Hdep Hover. apply N.eqb_neq in Hdep. rewrite Hdep.
    apply N.leb_gt in Hover. now rewrite Hover.
Qed.

Lemma getUtilizationRate_underflow_witness :
  reachable Scenario.deployer Scenario.one_repaid
  /\ getUtilizationRate Scenario.one_repaid = Revert (Panic 17)
  /\ getUtilizationRate Scenario.big_loan = Ok 20.
Proof.
  split; [apply reachable_one_repaid|]. split.
  - apply (proj2 (proj2 (getUtilizationRate_underflow Scenario.one_repaid))).
    + vm_compute. discriminate.
    + vm_compute. reflexivity.
  - vm_compute. reflexivity.
Defined.

(** C10.  The owner's [emergencyWithdraw] of an amount within the balance
    the pool holds succeeds; it changes no state of the pool (not
    [totalDeposits], no lender's [deposited], no loan), of the registry or
    of the badge, and moves the amount from the pool's balance to the
    owner's.  Any other caller is refused.  So solvency is not preserved: a reachable solvent state
    exists from which the call leads to a state that is not solvent, the
    pool holding less than its tracked deposits. *)
Theorem emergencyWithdraw_frame :
  (forall (e : env) (amount : N) (w : World),
      msg_sender e = owner (pool w) ->
      amount <= getAvailableLiquidity w ->
      exists w',
        emergencyWithdraw e amount w = Ok w'
        /\ pool w' = pool w
        /\ creditRegistry w' = creditRegistry w
        /\ badge w' = badge w
        /\ (owner (pool w) <> pool_address ->
            getAvailableLiquidity w' = getAvailableLiquidity w - amount
            /\ Token.balanceOf (usdcToken w') (owner (pool w))
               = Token.balanceOf (usdcToken w) (owner (pool w)) + amount))
  /\ (forall (e : env) (amount : N) (w : World),
         msg_sender e <> owner (pool w) ->
         emergencyWithdraw e amount w
         = Revert (Custom "OwnableUnauthorizedAccount"))
  /\ (exists (d : address) (e : env) (amount : N) (w w' : World),
         reachable d w /\ solvent w
         /\ emergencyWithdraw e amount w = Ok w'
         /\ ~ solvent w'
         /\ getAvailableLiquidity w' < totalDeposits (pool w')).
Proof.
  split; [|split].
  - intros e amount w Hown Hle.
    unfold emergencyWithdraw, onlyOwner.
    rewrite Hown, N.eqb_refl.
    apply N.leb_le in Hle as Hb. unfold require. rewrite Hb.
    unfold Token.transfer, Token.move.
    cbn [msg_sender as_sender].
    unfold getAvailableLiquidity, Token.balanceOf in *.
    apply N.ltb_ge in Hle as Hlt. rewrite Hlt.
    eexists. split; [reflexivity|].
    cbn [pool creditRegistry badge usdcToken Token.balances].
    repeat split.
    + rewrite upd_other by (intros E; now apply H).
      now rewrite upd_same.
    + rewrite upd_same. now rewrite upd_other.
  - intros e amount w Hne. unfold emergencyWithdraw, onlyOwner.
    apply N.eqb_neq in Hne. now rewrite Hne.
  - exists Scenario.deployer, (Scenario.by_ Scenario.deployer 20),
      (Scenario.usdc 5000), Scenario.funded.
    eexists. split; [|split; [|split; [|split]]].
    + apply reachable_funded.
    + unfold solvent. vm_compute. discriminate.
    + vm_compute. reflexivity.
    + unfold solvent. vm_compute. intros H. now apply H.
    + vm_compute. reflexivity.
Qed.

Lemma emergencyWithdraw_frame_witness :
  exists w',
    emergencyWithdraw (Scenario.by_ Scenario.deployer 20) (Scenario.usdc 5000)
      Scenario.funded = Ok w'
    /\ pool w' = pool Scenario.funded
    /\ getAvailableLiquidity w' = 0.
Proof.
  destruct (proj1 emergencyWithdraw_frame (Scenario.by_ Scenario.deployer 20)
              (Scenario.usdc 5000) Scenario.funded)
    as [w' [H1 [H2 [_ [_ H3]]]]].
  - reflexivity.
  - vm_compute. discriminate.
  - exists w'. split; [exact H1|]. split; [exact H2|].
    destruct H3 as [H3 _]; [vm_compute; discriminate|].
    rewrite H3. vm_compute. reflexivity.
Defined.


End Spec.

(** * The scenarios of the specification, run on the model *)

Module Tests.
Import Pool System Props SystemFacts.

(** A profile with score 75 and a pool holding 5000 USDC: a loan of 100 USDC
    is created with 8 USDC of interest, due after 30 days. *)
Example first_loan_terms :
  getBorrowerLoans Scenario.one_loan Scenario.borrower
  = [ mkLoan (Scenario.usdc 100) (Scenario.usdc 8) 100 (100 + 30 * 86400)
        true false Scenario.borrower ]
  /\ getAvailableLiquidity Scenario.one_loan = Scenario.usdc 4900.
Proof. split; vm_compute; reflexivity. Qed.

(** Repaid before the due date: the loan is Repaid, the score is 77 and one
    repayment is recorded. *)
Example first_loan_repaid :
  map status (getBorrowerLoans Scenario.one_repaid Scenario.borrower)
  = [ Repaid ]
  /\ Registry.getScore (creditRegistry Scenario.one_repaid) Scenario.borrower
     = 77
  /\ Registry.successfulRepayments
       (Registry.getProfile (creditRegistry Scenario.one_repaid)
          Scenario.borrower) = 1.
Proof. repeat split; vm_compute; reflexivity. Qed.

(** Three cycles without a default: the borrower holds a badge, Bronze with
    three repayments. *)
Example three_cycles_give_a_badge :
  Badge.hasSenteBadge (badge Scenario.three_repaid) Scenario.borrower = true
  /\ Badge.balanceOf (badge Scenario.three_repaid) Scenario.borrower = 1
  /\ Badge.tier (Badge.badges (badge Scenario.three_repaid) 1) = "Bronze"%string
  /\ Registry.getScore (creditRegistry Scenario.three_repaid)
       Scenario.borrower = 81.
Proof. repeat split; vm_compute; reflexivity. Qed.

(** A score of 50 is below the floor of 60: the request fails with
    "Credit score too low" and records nothing. *)
Example low_score_is_refused :
  requestLoan (Scenario.by_ Scenario.borrower 100) (Scenario.usdc 100)
    Scenario.low_score
  = Revert (Error "Credit score too low")
  /\ step (Scenario.by_ Scenario.borrower 100) (RequestLoan (Scenario.usdc 100))
       Scenario.low_score
     = Scenario.low_score.
Proof.
  assert (H : requestLoan (Scenario.by_ Scenario.borrower 100)
                (Scenario.usdc 100) Scenario.low_score
              = Revert (Error "Credit score too low"))
    by (vm_compute; reflexivity).
  split; [exact H|]. unfold step, transact. cbn [exec]. now rewrite H.
Qed.

(** Deposits of 5000 USDC and one active loan of 1000 USDC: the rate is 20. *)
Example utilization_of_one_loan :
  getUtilizationRate Scenario.big_loan = Ok 20.
Proof. vm_compute. reflexivity. Qed.

(** The late repayment of the specification's scenario, on the code: the
    call fails and the loan is Active as before. *)
Example late_repayment_changes_nothing :
  map status
    (getBorrowerLoans
       (step (Scenario.by_ Scenario.borrower Scenario.too_late) (RepayLoan 0)
          Scenario.one_loan) Scenario.borrower)
  = [ Active ]
  /\ Registry.getScore
       (creditRegistry
          (step (Scenario.by_ Scenario.borrower Scenario.too_late)
             (RepayLoan 0) Scenario.one_loan)) Scenario.borrower
     = 75.
Proof. split; vm_compute; reflexivity. Qed.

Lemma never_defaulted_witness :
  Forall (fun l => status l <> Defaulted)
    (getBorrowerLoans Scenario.one_repaid Scenario.borrower).
Proof.
  apply Forall_forall. intros l.
  apply (reachable_never_defaulted Scenario.deployer).
  apply reachable_one_repaid.
Defined.

(** X2.  A badge is soulbound: every transfer and every approval reverts,
    whoever calls and whatever the state of the badge contract. *)
Theorem badge_is_soulbound (e : env) (from to operator : address) (id : N)
  (approved : bool) (s : Badge.State) (Hs : msg_sender e <> 0) :
  is_revert (Badge.transferFrom e from to id s) = true
  /\ is_revert (Badge.approve e to id s) = true
  /\ is_revert (Badge.setApprovalForAll e operator approved s) = true.
Proof.
  split; [now apply BadgeFacts.transferFrom_reverts|]. split; reflexivity.
Qed.

Lemma badge_is_soulbound_witness :
  is_revert
    (Badge.transferFrom (Scenario.by_ Scenario.borrower 400) Scenario.borrower
       Scenario.lender 1 (badge Scenario.three_repaid)) = true.
Proof.
  apply (badge_is_soulbound (Scenario.by_ Scenario.borrower 400)
           Scenario.borrower Scenario.lender Scenario.lender 1 true
           (badge Scenario.three_repaid)).
  discriminate.
Defined.

End Tests.

(** * More of the code *)

(** ** What each call of the pool writes *)

Module PoolEffects.
Import Pool System Props Ledger TokenFacts RegistryFacts BadgeFacts PoolFacts
  SystemFacts.

Lemma move_balances (from to : address) (v : N) (s t : Token.State) :
  Token.move from to v s = Ok t ->
  v <= Token.balances s from
  /\ Token.allowances t = Token.allowances s
  /\ Token.totalSupply t = Token.totalSupply s
  /\ (forall a, a <> from -> a <> to -> Token.balances t a = Token.balances s a)
  /\ (from <> to ->
      Token.balances t from = Token.balances s from - v
      /\ Token.balances t to = Token.balances s to + v)
  /\ (from = to -> Token.balances t from = Token.balances s from).
Proof.
  unfold Token.move. destruct (N.ltb_spec (Token.balances s from) v);
    [discriminate|].
  intros H0. inversion H0; subst t; clear H0. cbn.
  split; [assumption|]. split; [reflexivity|]. split; [reflexivity|].
  split; [|split].
  - intros a Hf Ht. now rewrite !upd_other.
  - intros Hne. rewrite upd_same.
    rewrite (upd_other _ to from) by congruence.
    rewrite upd_same. split; [reflexivity|].
    now rewrite upd_other by congruence.
  - intros <-. rewrite !upd_same. lia.
Qed.

Lemma transferFrom_moves (e : env) (from to : address) (v : N)
  (s t : Token.State) :
  Token.transferFrom e from to v s = Ok t ->
  v <= Token.allowances s from (msg_sender e)
  /\ v <= Token.balances s from
  /\ Token.totalSupply t = Token.totalSupply s
  /\ (forall a, a <> from -> a <> to -> Token.balances t a = Token.balances s a)
  /\ (from <> to ->
      Token.balances t from = Token.balances s from - v
      /\ Token.balances t to = Token.balances s to + v)
  /\ (from = to -> Token.balances t from = Token.balances s from)
  /\ (forall o sp,
         o <> from -> Token.allowances t o sp = Token.allowances s o sp)
  /\ (forall sp, Token.allowances t from sp <= Token.allowances s from sp).
Proof.
  unfold Token.transferFrom.
  destruct (N.ltb_spec (Token.allowances s from (msg_sender e)) v);
    [discriminate|].
  intros H0. apply move_balances in H0 as (Hb & Ha & Hs & Ho & Hn & He).
  cbn [Token.balances Token.allowances Token.totalSupply] in *.
  repeat split; try assumption; try (now apply Hn); try (now apply He).
  - intros o sp Hne. rewrite Ha.
    destruct (Token.allowances s from (msg_sender e) =? MAX_UINT256);
      [reflexivity|].
    apply N.eqb_neq in Hne. now rewrite Hne.
  - intros sp. rewrite Ha.
    destruct (Token.allowances s from (msg_sender e) =? MAX_UINT256);
      [lia|].
    rewrite N.eqb_refl. cbn [andb].
    destruct (N.eqb_spec sp (msg_sender e)) as [->|]; lia.
Qed.

(** [deposit]: the whole effect of a successful call. *)
Lemma deposit_writes (e : env) (amt : N) (w w' : World) :
  deposit e amt w = Ok w' ->
  0 < amt
  /\ exists t,
      Token.transferFrom (as_sender pool_address e) (msg_sender e)
        pool_address amt (usdcToken w) = Ok t
      /\ w' = mkWorld t (creditRegistry w) (badge w)
                (mkState (totalDeposits (pool w) + amt)
                   (totalBorrowed (pool w)) (totalRepaid (pool w))
                   (upd (lenders (pool w)) (msg_sender e)
                      (mkLender
                         (deposited (lenders (pool w) (msg_sender e)) + amt)
                         (interestEarned (lenders (pool w) (msg_sender e)))
                         (block_timestamp e)))
                   (borrowerLoans (pool w)) (activeLoanCount (pool w))
                   (senteBadge (pool w)) (owner (pool w))).
Proof.
  unfold deposit. intros H. steps. facts. split; [assumption|eauto].
Qed.

(** [withdraw]: the whole effect of a successful call. *)
Lemma withdraw_writes (e : env) (amt : N) (w w' : World) :
  withdraw e amt w = Ok w' ->
  0 < amt
  /\ amt <= deposited (lenders (pool w) (msg_sender e))
  /\ amt <= getAvailableLiquidity w
  /\ amt <= totalDeposits (pool w)
  /\ exists t,
      Token.move pool_address (msg_sender e) amt (usdcToken w) = Ok t
      /\ w' = mkWorld t (creditRegistry w) (badge w)
                (mkState (totalDeposits (pool w) - amt)
                   (totalBorrowed (pool w)) (totalRepaid (pool w))
                   (upd (lenders (pool w)) (msg_sender e)
                      (mkLender
                         (deposited (lenders (pool w) (msg_sender e)) - amt)
                         (interestEarned (lenders (pool w) (msg_sender e)))
                         (lastDepositTime (lenders (pool w) (msg_sender e)))))
                   (borrowerLoans (pool w)) (activeLoanCount (pool w))
                   (senteBadge (pool w)) (owner (pool w))).
Proof.
  unfold withdraw, Token.transfer. intros H. steps. facts. cbn in *.
  repeat split; try assumption. eauto.
Qed.

(** [requestLoan]: the whole effect of a successful call. *)
Lemma requestLoan_writes (e : env) (amt : N) (w w' : World) :
  requestLoan e amt w = Ok w' ->
  let b := msg_sender e in
  let sc := Registry.getScore (creditRegistry w) b in
  MIN_LOAN_AMOUNT <= amt <= MAX_LOAN_AMOUNT
  /\ activeLoanCount (pool w) b = 0
  /\ MIN_CREDIT_SCORE <= sc
  /\ amt <= getAvailableLiquidity w
  /\ exists interest t r,
      calculateInterest amt sc = Ok interest
      /\ Token.move pool_address b amt (usdcToken w) = Ok t
      /\ Registry.recordLoan (as_sender pool_address e) b (creditRegistry w)
         = Ok r
      /\ w' = mkWorld t r (badge w)
                (mkState (totalDeposits (pool w))
                   (totalBorrowed (pool w) + amt) (totalRepaid (pool w))
                   (lenders (pool w))
                   (upd (borrowerLoans (pool w)) b
                      (borrowerLoans (pool w) b
                       ++ [mkLoan amt interest (block_timestamp e)
                             (block_timestamp e + LOAN_DURATION) true false b]))
                   (upd (activeLoanCount (pool w)) b 1)
                   (senteBadge (pool w)) (owner (pool w))).
Proof.
  unfold requestLoan, Token.transfer. intros H. steps. facts. cbn in *.
  match goal with Hc : activeLoanCount (pool w) (msg_sender e) = 0 |- _ =>
    rewrite Hc end.
  repeat split; try assumption. eauto 10.
Qed.

(** [repayLoan]: the whole effect of a successful call, the badge check
    apart. *)
Lemma repayLoan_writes (e : env) (i : N) (w w' : World) :
  repayLoan e i w = Ok w' ->
  let b := msg_sender e in
  exists loan t r,
    nth_error (borrowerLoans (pool w) b) (N.to_nat i) = Some loan
    /\ isActive loan = true /\ isRepaid loan = false
    /\ block_timestamp e <= dueDate loan + REPAYMENT_GRACE_PERIOD
    /\ 1 <= activeLoanCount (pool w) b
    /\ Token.transferFrom (as_sender pool_address e) b pool_address
         (amount loan + interestAmount loan) (usdcToken w) = Ok t
    /\ Registry.recordRepayment (as_sender pool_address e) b (creditRegistry w)
       = Ok r
    /\ usdcToken w' = t /\ creditRegistry w' = r
    /\ pool w'
       = mkState (totalDeposits (pool w)) (totalBorrowed (pool w))
           (totalRepaid (pool w) + (amount loan + interestAmount loan))
           (lenders (pool w))
           (upd (borrowerLoans (pool w)) b
              (set_nth (borrowerLoans (pool w) b) (N.to_nat i)
                 (mkLoan (amount loan) (interestAmount loan) (startTime loan)
                    (dueDate loan) false true (borrower loan))))
           (upd (activeLoanCount (pool w)) b (activeLoanCount (pool w) b - 1))
           (senteBadge (pool w)) (owner (pool w)).
Proof.
  unfold repayLoan. intros H. step_ok H.
  destruct (nth_error _ _) as [loan|] eqn:Hn; [|discriminate].
  steps.
  apply checkAndMintBadge_frame in H as (Ht & Hr & Hp).
  cbn in Ht, Hr, Hp. facts.
  exists loan. do 2 eexists.
  repeat split; try eassumption; try reflexivity.
Qed.

Lemma emergencyWithdraw_writes (e : env) (amt : N) (w w' : World) :
  emergencyWithdraw e amt w = Ok w' ->
  msg_sender e = owner (pool w)
  /\ exists t,
      Token.move pool_address (owner (pool w)) amt (usdcToken w) = Ok t
      /\ w' = mkWorld t (creditRegistry w) (badge w) (pool w).
Proof.
  unfold emergencyWithdraw, onlyOwner, Token.transfer. intros H.
  steps. facts. cbn in *. split; [assumption|eauto].
Qed.

End PoolEffects.

(** ** More on the registry *)

Module RegistryMore.
Import Registry Props RegistryFacts.

(** A profile that exists is only ever rewritten into one that exists, with
    counters at least as high. *)
Lemma profile_change_grows (p p' : CreditProfile) :
  profile_change p p' -> isActive p = true ->
  isActive p' = true
  /\ totalLoans p <= totalLoans p'
  /\ successfulRepayments p <= successfulRepayments p'
  /\ defaultedLoans p <= defaultedLoans p'.
Proof.
  intros H Ha. destruct H; cbn; try congruence; repeat split; lia.
Qed.

Lemma registry_op_grows (r r' : State) (u : address) :
  registry_op r r' -> isActive (creditProfiles r u) = true ->
  isActive (creditProfiles r' u) = true
  /\ totalLoans (creditProfiles r u) <= totalLoans (creditProfiles r' u)
  /\ successfulRepayments (creditProfiles r u)
     <= successfulRepayments (creditProfiles r' u)
  /\ defaultedLoans (creditProfiles r u)
     <= defaultedLoans (creditProfiles r' u).
Proof.
  intros H Ha. apply registry_op_profiles in H as [->|(v & p' & Hc & ->)].
  - repeat split; (assumption || lia).
  - unfold upd. destruct (N.eqb_spec u v) as [->|].
    + now apply profile_change_grows.
    + repeat split; (assumption || lia).
Qed.

(** An oracle with a score in range is never refused by [updateScore]. *)
Lemma updateScore_accepts (e : env) (u : address) (sc : N) (r : State) :
  roles r ORACLE_ROLE (msg_sender e) = true -> sc <= MAX_SCORE ->
  exists r', updateScore e u sc r = Ok r'.
Proof.
  intros Hr Hs. unfold updateScore, createProfile, onlyRole, require.
  assert (Hz : (MIN_SCORE <=? sc) = true) by (apply N.leb_le; unfold MIN_SCORE; lia).
  rewrite Hr. apply N.leb_le in Hs. rewrite Hs, Hz. cbn [andb].
  destruct (isActive (creditProfiles r u)) eqn:Ha; cbn [negb]; eauto.
Qed.

(** Without the oracle role no function of the registry writes a profile. *)
Lemma registry_op_by_oracle (e : env) (r r' : State) :
  roles r ORACLE_ROLE (msg_sender e) = false ->
  (forall u sc, createProfile e u sc r <> Ok r')
  /\ (forall u sc, updateScore e u sc r <> Ok r')
  /\ (forall u, recordLoan e u r <> Ok r')
  /\ (forall u, recordRepayment e u r <> Ok r')
  /\ (forall u, recordDefault e u r <> Ok r').
Proof.
  intros Hr. repeat split; intros;
    unfold createProfile, updateScore, recordLoan, recordRepayment,
      recordDefault, onlyRole; rewrite Hr; discriminate.
Qed.

End RegistryMore.

(** ** More on the pool: its books *)

Module PoolMore.
Import Pool System Props Ledger TokenFacts RegistryFacts BadgeFacts PoolFacts
  SystemFacts PoolEffects.

(** Only [deposit] and [withdraw] write a lender's position and the total
    of the deposits. *)
Lemma exec_lenders_frame (e : env) (c : call) (w w' : World) :
  exec e c w = Ok w' ->
  match c with Deposit _ | Withdraw _ => False | _ => True end ->
  lenders (pool w') = lenders (pool w)
  /\ totalDeposits (pool w') = totalDeposits (pool w).
Proof.
  intros H Hc. destruct c; try contradiction;
    try (open_call H; cbn; auto; fail).
  - cbn [exec] in H. apply requestLoan_writes in H. cbv zeta in H.
    destruct H as (_ & _ & _ & _ & i & t & r & _ & _ & _ & ->). auto.
  - cbn [exec] in H. apply repayLoan_writes in H. cbv zeta in H.
    destruct H as (l & t & r & _ & _ & _ & _ & _ & _ & _ & _ & _ & ->). auto.
Qed.

(** *** The deposits add up *)

Lemma sum_deposited_same (p p' : Pool.State) (ls : list address) :
  (forall a, In a ls -> lenders p' a = lenders p a) ->
  sum_deposited p' ls = sum_deposited p ls.
Proof.
  induction ls as [|a t IH]; intros H; cbn; [reflexivity|].
  rewrite (H a) by now left. rewrite IH; [reflexivity|].
  intros b Hb. apply H. now right.
Qed.

Lemma sum_deposited_update (p p' : Pool.State) (ls : list address)
  (s : address) (x : LenderInfo) :
  NoDup ls -> In s ls -> lenders p' = upd (lenders p) s x ->
  sum_deposited p' ls + deposited (lenders p s)
  = sum_deposited p ls + deposited x.
Proof.
  intros Hnd Hin Hl. induction Hnd as [|a t Hna Hnd IH]; [destruct Hin|].
  cbn. destruct Hin as [->|Hin].
  - rewrite Hl, upd_same.
    rewrite (sum_deposited_same p p' t); [lia|].
    intros b Hb. rewrite Hl. apply upd_other. intros ->. contradiction.
  - specialize (IH Hin).
    assert (Ha : lenders p' a = lenders p a).
    { rewrite Hl. apply upd_other. intros ->. contradiction. }
    rewrite Ha. lia.
Qed.

Lemma deposit_books (e : env) (amt : N) (w w' : World) :
  deposit e amt w = Ok w' ->
  lenders (pool w')
  = upd (lenders (pool w)) (msg_sender e)
      (mkLender (deposited (lenders (pool w) (msg_sender e)) + amt)
         (interestEarned (lenders (pool w) (msg_sender e)))
         (block_timestamp e))
  /\ totalDeposits (pool w') = totalDeposits (pool w) + amt.
Proof.
  intros H. apply deposit_writes in H as (_ & t & _ & ->). auto.
Qed.

Lemma withdraw_books (e : env) (amt : N) (w w' : World) :
  withdraw e amt w = Ok w' ->
  0 < amt
  /\ amt <= deposited (lenders (pool w) (msg_sender e))
  /\ amt <= totalDeposits (pool w)
  /\ lenders (pool w')
     = upd (lenders (pool w)) (msg_sender e)
         (mkLender (deposited (lenders (pool w) (msg_sender e)) - amt)
            (interestEarned (lenders (pool w) (msg_sender e)))
            (lastDepositTime (lenders (pool w) (msg_sender e))))
  /\ totalDeposits (pool w') = totalDeposits (pool w) - amt.
Proof.
  intros H. apply withdraw_writes in H as (? & ? & _ & ? & t & _ & ->). auto.
Qed.

Lemma exec_deposits_tracked (e : env) (c : call) (w w' : World) :
  exec e c w = Ok w' -> deposits_tracked w -> deposits_tracked w'.
Proof.
  intros H (ls & Hnd & Hz & Hs).
  destruct c;
    try (apply exec_lenders_frame in H as [Hl Ht]; [|exact I];
         exists ls; split; [exact Hnd|]; split;
         [ intros a Ha; rewrite Hl; now apply Hz
         | rewrite Ht, <- Hs; apply sum_deposited_same;
           intros a _; now rewrite Hl ]).
  - (* deposit *)
    cbn [exec] in H. apply deposit_books in H as (Hl & Ht).
    destruct (in_dec N.eq_dec (msg_sender e) ls) as [Hin|Hout].
    + exists ls. split; [exact Hnd|]. split.
      * intros a Ha. rewrite Hl, upd_other; [now apply Hz|].
        intros ->. contradiction.
      * pose proof (sum_deposited_update _ _ ls _ _ Hnd Hin Hl) as Hu.
        cbn [deposited] in Hu. lia.
    + exists (msg_sender e :: ls). split; [now constructor|]. split.
      * intros a Ha. rewrite Hl, upd_other; [apply Hz|]; cbn in Ha;
          intuition congruence.
      * cbn [sum_deposited].
        assert (Hself := f_equal (fun f => deposited (f (msg_sender e))) Hl).
        cbv beta in Hself. rewrite upd_same in Hself.
        cbn [deposited] in Hself. rewrite Hself, (Hz _ Hout).
        rewrite (sum_deposited_same (pool w) (pool w') ls); [lia|].
        intros a Ha. rewrite Hl. apply upd_other. intros ->. contradiction.
  - (* withdraw *)
    cbn [exec] in H. apply withdraw_books in H as (Hpos & Hd & _ & Hl & Ht).
    assert (Hin : In (msg_sender e) ls).
    { destruct (in_dec N.eq_dec (msg_sender e) ls) as [Hin|Hout];
        [exact Hin|].
      rewrite (Hz _ Hout) in Hd. lia. }
    exists ls. split; [exact Hnd|]. split.
    + intros a Ha. rewrite Hl, upd_other; [now apply Hz|].
      intros ->. contradiction.
    + pose proof (sum_deposited_update _ _ ls _ _ Hnd Hin Hl) as Hu.
      cbn [deposited] in Hu. lia.
Qed.

Lemma reachable_deposits_tracked (d : address) (w : World) :
  reachable d w -> deposits_tracked w.
Proof.
  induction 1 as [|w e c _ IH _ _].
  - exists []. split; [constructor|]. split; [reflexivity|reflexivity].
  - destruct (step_ok_or_same e c w) as [(w' & Hx & ->)|(err & _ & ->)];
      [|exact IH].
    now apply (exec_deposits_tracked e c w).
Qed.

(** No lender holds more than the total. *)
Lemma tracked_bounds_lender (w : World) (a : address) :
  deposits_tracked w -> deposited (lenders (pool w) a) <= totalDeposits (pool w).
Proof.
  intros (ls & Hnd & Hz & Hs).
  destruct (in_dec N.eq_dec a ls) as [Hin|Hout]; [|rewrite (Hz _ Hout); lia].
  rewrite <- Hs. clear Hs Hz Hnd.
  induction ls as [|b t IH]; [destruct Hin|].
  cbn. destruct Hin as [->|Hin]; [lia|]. specialize (IH Hin). lia.
Qed.

End PoolMore.

(** ** More on the pool: its loans *)

Module LoanMore.
Import Pool System Props Ledger TokenFacts RegistryFacts BadgeFacts PoolFacts
  SystemFacts PoolEffects PoolMore.

Lemma rateOf_values (sc : N) :
  rateOf sc = 5 \/ rateOf sc = 6 \/ rateOf sc = 8 \/ rateOf sc = 10.
Proof.
  unfold rateOf. destruct (91 <=? sc); [auto|].
  destruct (81 <=? sc); [auto|]. destruct (71 <=? sc); auto.
Qed.

Lemma calculateInterest_ok (amt sc i : N) :
  calculateInterest amt sc = Ok i -> i = amt * rateOf sc / 100.
Proof.
  unfold calculateInterest, mul256, div256.
  destruct (amt * rateOf sc <=? MAX_UINT256); [|discriminate].
  cbn. intros H. now inversion H.
Qed.

(** *** The terms of every loan *)

Lemma exec_loan_terms (e : env) (c : call) (w w' : World) :
  exec e c w = Ok w' -> all_loan_terms w -> all_loan_terms w'.
Proof.
  intros H Hw b l.
  destruct c;
    try (apply exec_loans_frame in H as [-> _]; [apply Hw|exact I]).
  - cbn [exec] in H.
    pose proof (requestLoan_writes _ _ _ _ H) as H'. cbv zeta in H'.
    destruct H' as (Hamt & _ & _ & _ & i & t & r & Hi & _ & _ & ->).
    cbn. unfold upd. destruct (N.eqb_spec b (msg_sender e)) as [->|];
      [|apply Hw].
    intros Hin. apply in_app_or in Hin as [Hin|[<-|[]]]; [now apply Hw|].
    apply calculateInterest_ok in Hi. unfold loan_terms. cbn.
    split; [reflexivity|]. split; [exact Hamt|]. split; [reflexivity|].
    split; [|reflexivity].
    exists (rateOf (Registry.getScore (creditRegistry w) (msg_sender e))).
    split; [apply rateOf_values|exact Hi].
  - cbn [exec] in H.
    apply repayLoan_ok in H as (y & Hy & Ha & Hr & _ & _ & -> & _).
    unfold upd. destruct (N.eqb_spec b (msg_sender e)) as [->|]; [|apply Hw].
    intros Hin. apply In_set_nth in Hin as [->|Hin]; [|now apply Hw].
    apply nth_error_In in Hy.
    destruct (Hw _ _ Hy) as (Hb & Hamt & Hd & Hrate & _).
    unfold loan_terms. cbn. auto.
Qed.

Lemma reachable_loan_terms (d : address) (w : World) :
  reachable d w -> all_loan_terms w.
Proof.
  induction 1 as [|w e c _ IH _ _].
  - intros b l [].
  - destruct (step_ok_or_same e c w) as [(w' & Hx & ->)|(err & _ & ->)];
      [|exact IH].
    now apply (exec_loan_terms e c w).
Qed.

(** *** A loan past its grace period *)

Lemma exec_keeps_overdue (e : env) (c : call) (w w' : World)
  (b : address) (i : nat) (l : Loan) :
  exec e c w = Ok w' ->
  nth_error (borrowerLoans (pool w) b) i = Some l ->
  dueDate l + REPAYMENT_GRACE_PERIOD < block_timestamp e ->
  nth_error (borrowerLoans (pool w') b) i = Some l.
Proof.
  intros H Hn Hl.
  destruct c;
    try (apply exec_loans_frame in H as [-> _]; [exact Hn|exact I]).
  - cbn [exec] in H.
    apply requestLoan_ok in H as (_ & _ & (x & _ & _ & ->) & _).
    unfold upd. destruct (N.eqb_spec b (msg_sender e)) as [->|]; [|exact Hn].
    now apply nth_error_app_old.
  - cbn [exec] in H.
    apply repayLoan_ok in H as (y & Hy & _ & _ & _ & _ & -> & _ & Ht).
    unfold upd. destruct (N.eqb_spec b (msg_sender e)) as [->|]; [|exact Hn].
    rewrite nth_error_set_nth_other; [exact Hn|].
    intros E. rewrite <- E in Hn. rewrite Hn in Hy. inversion Hy; subst y.
    lia.
Qed.

Lemma run_keeps_overdue (tr : list (env * call)) (w : World)
  (b : address) (i : nat) (l : Loan) :
  Forall (fun ec => dueDate l + REPAYMENT_GRACE_PERIOD
                    < block_timestamp (fst ec)) tr ->
  nth_error (borrowerLoans (pool w) b) i = Some l ->
  nth_error (borrowerLoans (pool (run tr w)) b) i = Some l.
Proof.
  intros Ht. revert w. induction Ht as [|[e c] tr Hec _ IH]; intros w Hn; cbn.
  - exact Hn.
  - apply IH.
    destruct (step_ok_or_same e c w) as [(w' & Hx & ->)|(err & _ & ->)];
      [|exact Hn].
    now apply (exec_keeps_overdue e c w).
Qed.

(** *** What the calls of others leave alone *)

Lemma exec_by_others (e : env) (c : call) (w w' : World) (a : address) :
  exec e c w = Ok w' -> msg_sender e <> a ->
  lenders (pool w') a = lenders (pool w) a
  /\ borrowerLoans (pool w') a = borrowerLoans (pool w) a
  /\ activeLoanCount (pool w') a = activeLoanCount (pool w) a.
Proof.
  intros H Hne.
  assert (Hl : lenders (pool w') a = lenders (pool w) a).
  { destruct c;
      try (apply exec_lenders_frame in H as [-> _]; [reflexivity|exact I]).
    - cbn [exec] in H. apply deposit_books in H as [-> _].
      apply upd_other. congruence.
    - cbn [exec] in H. apply withdraw_books in H as (_ & _ & _ & -> & _).
      apply upd_other. congruence. }
  split; [exact Hl|].
  destruct c;
    try (apply exec_loans_frame in H as [-> ->]; [auto|exact I]).
  - cbn [exec] in H.
    apply requestLoan_ok in H as (_ & -> & (x & _ & _ & ->) & _).
    rewrite !upd_other by congruence. auto.
  - cbn [exec] in H.
    apply repayLoan_ok in H as (y & _ & _ & _ & _ & -> & -> & _).
    rewrite !upd_other by congruence. auto.
Qed.

End LoanMore.

(** ** The pool's books and the tokens it holds *)

Module Solvency.
Import Pool System Props Ledger TokenFacts RegistryFacts BadgeFacts PoolFacts
  SystemFacts PoolEffects.

Lemma exec_money_frame (e : env) (c : call) (w w' : World) :
  exec e c w = Ok w' -> moves_no_money c ->
  usdcToken w' = usdcToken w
  /\ totalDeposits (pool w') = totalDeposits (pool w)
  /\ totalBorrowed (pool w') = totalBorrowed (pool w)
  /\ totalRepaid (pool w') = totalRepaid (pool w).
Proof.
  intros H Hc. destruct c; try contradiction; open_call H; auto.
Qed.

(** A direct call of the token by anyone but the pool takes nothing from the
    pool, which never approved a spender. *)
Lemma token_call_keeps_pool (e : env) (c : call) (w w' : World) :
  exec e c w = Ok w' ->
  match c with
  | TokenTransfer _ _ | TokenApprove _ _ | TokenTransferFrom _ _ _
  | TokenMint _ _ => True
  | _ => False
  end ->
  msg_sender e <> pool_address -> pool_approves_nobody w ->
  pool w' = pool w
  /\ getAvailableLiquidity w <= getAvailableLiquidity w'
  /\ pool_approves_nobody w'.
Proof.
  unfold pool_approves_nobody, getAvailableLiquidity, Token.balanceOf.
  intros H Hc Hs Hp. destruct c; try contradiction; cbn [exec] in H;
    unfold in_token in H; step_ok H; inversion H; subst w'; clear H;
    cbn [pool usdcToken]; (split; [reflexivity|]).
  - (* transfer *)
    unfold Token.transfer in E.
    apply move_balances in E as (_ & Ha & _ & Ho & Hn & _).
    split; [|intros sp; rewrite Ha; apply Hp].
    destruct (N.eq_dec to pool_address) as [->|Hto].
    + destruct (Hn Hs) as [_ ->]. lia.
    + rewrite Ho by congruence. lia.
  - (* approve *)
    unfold Token.approve in E. injection E as <-.
    cbn [Token.balances Token.allowances].
    split; [lia|]. intros sp.
    destruct (N.eqb_spec pool_address (msg_sender e)) as [Heq|_];
      [now elim Hs|apply Hp].
  - (* transferFrom *)
    apply transferFrom_moves in E as (Hv & _ & _ & Ho & Hn & He & Ha & Hl).
    destruct (N.eq_dec from pool_address) as [->|Hfrom].
    + rewrite Hp in Hv. assert (value = 0) by lia. subst value.
      split; [|intros sp; specialize (Hl sp); rewrite Hp in Hl; lia].
      destruct (N.eq_dec pool_address to) as [Heq|Hne].
      * rewrite (He Heq). lia.
      * destruct (Hn Hne) as [-> _]. lia.
    + split; [|intros sp; rewrite Ha by congruence; apply Hp].
      destruct (N.eq_dec to pool_address) as [->|Hto].
      * destruct (Hn Hfrom) as [_ ->]. lia.
      * rewrite Ho by congruence. lia.
  - (* mint *)
    unfold Token.mint in E. step_ok E. injection E as <-. cbn.
    split; [|exact Hp].
    destruct (N.eq_dec pool_address to) as [<-|Hne].
    + rewrite upd_same. lia.
    + rewrite upd_other by exact Hne. lia.
Qed.

Lemma exec_covered (e : env) (c : call) (w w' : World) :
  exec e c w = Ok w' -> msg_sender e <> pool_address -> no_emergency c ->
  covered w -> covered w'.
Proof.
  unfold covered, books_covered, pool_approves_nobody, getAvailableLiquidity,
    Token.balanceOf.
  intros H Hs Hc [Hb Hp].
  destruct c; try contradiction;
    try (apply exec_money_frame in H as (-> & -> & -> & ->);
         [split; assumption|exact I]);
    try (apply token_call_keeps_pool in H as (-> & Hg & Hp');
         [|exact I|exact Hs|exact Hp];
         unfold getAvailableLiquidity, Token.balanceOf in Hg;
         split; [lia|exact Hp']).
  - (* deposit *)
    cbn [exec] in H. apply deposit_writes in H as (_ & t & Ht & ->).
    apply transferFrom_moves in Ht as (_ & _ & _ & _ & Hn & _ & Ha & _).
    destruct (Hn Hs) as [_ Hpool]. cbn.
    split; [lia|]. intros sp. rewrite Ha by congruence. apply Hp.
  - (* withdraw *)
    cbn [exec] in H.
    apply withdraw_writes in H as (_ & _ & _ & Htd & t & Ht & ->).
    apply move_balances in Ht as (Hv & Ha & _ & _ & Hn & _).
    destruct (Hn (not_eq_sym Hs)) as [Hpool _]. cbn.
    split; [lia|]. intros sp. rewrite Ha. apply Hp.
  - (* requestLoan *)
    cbn [exec] in H. pose proof (requestLoan_writes _ _ _ _ H) as H'.
    cbv zeta in H'.
    destruct H' as (_ & _ & _ & _ & i & t & r & _ & Ht & _ & ->).
    apply move_balances in Ht as (Hv & Ha & _ & _ & Hn & _).
    destruct (Hn (not_eq_sym Hs)) as [Hpool _]. cbn.
    split; [lia|]. intros sp. rewrite Ha. apply Hp.
  - (* repayLoan *)
    cbn [exec] in H. pose proof (repayLoan_writes _ _ _ _ H) as H'.
    cbv zeta in H'.
    destruct H' as (l & t & r & _ & _ & _ & _ & _ & Ht & _ & Hu & _ & Hpl).
    apply transferFrom_moves in Ht as (_ & _ & _ & _ & Hn & _ & Ha & _).
    destruct (Hn Hs) as [_ Hpool]. rewrite Hu, Hpl. cbn.
    split; [lia|]. intros sp. rewrite Ha by congruence. apply Hp.
Qed.

Lemma user_driven_covered (d : address) (w : World) :
  user_driven no_emergency d w -> covered w.
Proof.
  induction 1 as [|w e c _ IH _ Hs Hc].
  - split.
    + unfold books_covered. cbn. lia.
    + intros sp. reflexivity.
  - destruct (step_ok_or_same e c w) as [(w' & Hx & ->)|(err & _ & ->)];
      [|exact IH].
    now apply (exec_covered e c w).
Qed.

End Solvency.

(** ** More on the badge *)

Module BadgeMore.
Import Badge Pool System Props Ledger BadgeViews BadgeFacts PoolFacts
  SystemFacts.

(** [mintBadge]: the checks it passed and the whole state it leaves. *)
Lemma mintBadge_writes (e : env) (to : address) (sc n : N)
  (s s' : Badge.State) (id : N) :
  mintBadge e to sc n s = Ok (id, s') ->
  (authorizedMinters s (msg_sender e) = true \/ msg_sender e = Badge.owner s)
  /\ to <> 0 /\ hasBadge s to = false /\ 60 <= sc
  /\ nextTokenId s + 1 <= MAX_UINT256
  /\ owners s (nextTokenId s) = 0
  /\ erc721_receiver e to = true
  /\ id = nextTokenId s
  /\ s' = Badge.mkState (nextTokenId s + 1)
            (fun t => if t =? nextTokenId s
                      then mkBadgeData sc n (block_timestamp e)
                             (_determineTier sc n)
                      else badges s t)
            (upd (hasBadge s) to true) (authorizedMinters s) (Badge.owner s)
            (fun t => if t =? nextTokenId s then to else owners s t)
            (upd (erc_balances s) to (erc_balances s to + 1)).
Proof.
  unfold mintBadge, _safeMint, _update. intros H. steps. facts.
  cbn.
  match goal with Ho : owners s (nextTokenId s) = 0 |- _ =>
    rewrite !Ho; rewrite ?N.eqb_refl end.
  repeat split; try assumption; try lia.
  match goal with Ha : (_ || _)%bool = true |- _ =>
    apply orb_true_iff in Ha as [Ha|Ha]; [now left|right; now apply N.eqb_eq]
  end.
Qed.

(** The checks of [mintBadge] are all it asks for. *)
Lemma mintBadge_accepts (e : env) (to : address) (sc n : N) (s : Badge.State) :
  (authorizedMinters s (msg_sender e) = true \/ msg_sender e = Badge.owner s) ->
  to <> 0 -> hasBadge s to = false -> 60 <= sc ->
  nextTokenId s + 1 <= MAX_UINT256 -> owners s (nextTokenId s) = 0 ->
  erc721_receiver e to = true ->
  exists s', mintBadge e to sc n s = Ok (nextTokenId s, s').
Proof.
  intros Ha Hto Hb Hsc Hn Ho Hr.
  unfold mintBadge, _safeMint, _update, require, add256.
  assert (Hauth : (authorizedMinters s (msg_sender e)
                   || (msg_sender e =? Badge.owner s))%bool = true).
  { apply orb_true_iff. destruct Ha as [Ha|Ha]; [now left|right].
    now apply N.eqb_eq. }
  rewrite Hauth. apply N.eqb_neq in Hto. rewrite Hto. cbn [negb].
  rewrite Hb. cbn [negb]. apply N.leb_le in Hsc. rewrite Hsc.
  apply N.leb_le in Hn. rewrite Hn. cbn -[N.eqb N.add _determineTier].
  rewrite Ho. cbn -[N.eqb N.add _determineTier]. rewrite Hr.
  rewrite !N.eqb_refl. cbn -[N.eqb N.add _determineTier].
  eexists. reflexivity.
Qed.

Lemma mint_keeps_ledger (e : env) (to : address) (sc n id : N)
  (s s' : Badge.State) :
  mintBadge e to sc n s = Ok (id, s') -> badge_ledger s -> badge_ledger s'.
Proof.
  intros H (Hone & Hown & Hdata & Hinj).
  apply mintBadge_writes in H
    as (_ & Hto & Hno & Hsc & _ & _ & _ & _ & ->).
  unfold badge_ledger. cbn.
  split; [lia|]. split; [|split].
  - intros t. destruct (N.eqb_spec t (nextTokenId s)) as [->|Hne].
    + split; [lia|auto].
    + rewrite Hown. lia.
  - intros t. destruct (N.eqb_spec t (nextTokenId s)) as [->|Hne].
    + intros _. rewrite upd_same. cbn. auto.
    + intros Ht. destruct (Hdata t Ht) as (Hh & Hd).
      split; [|exact Hd].
      unfold upd. destruct (owners s t =? to); [reflexivity|exact Hh].
  - intros t t'.
    destruct (N.eqb_spec t (nextTokenId s)) as [->|Hne];
      destruct (N.eqb_spec t' (nextTokenId s)) as [->|Hne']; auto.
    + intros _ Heq. exfalso.
      assert (Ht' : owners s t' <> 0) by congruence.
      destruct (Hdata t' Ht') as (Hh & _). congruence.
    + intros Ht Heq. exfalso.
      destruct (Hdata t Ht) as (Hh & _). congruence.
Qed.

Lemma exec_badge_change (e : env) (c : call) (w w' : World) :
  msg_sender e <> 0 -> exec e c w = Ok w' -> badge_change (badge w) (badge w').
Proof.
  intros Hs H.
  destruct c;
    try (open_call H; cbn [badge]; now apply bc_same);
    try (open_call H;
         unfold Badge.setAuthorizedMinter, Badge.transferOwnership,
           Badge.renounceOwnership, Badge.approve, Badge.setApprovalForAll,
           Badge.onlyOwner in *;
         steps; facts; cbn [badge]; now apply bc_admin).
  - open_call H. cbn [badge]. eapply bc_mint; eassumption.
  - cbn [exec] in H. unfold in_badge in H.
    pose proof (transferFrom_reverts e from to tokenId (badge w) Hs) as Hr.
    destruct (Badge.transferFrom e from to tokenId (badge w)); discriminate.
  - cbn [exec] in H. apply requestLoan_ok in H as (_ & _ & _ & _ & ->).
    now apply bc_same.
  - cbn [exec] in H.
    apply repayLoan_badge in H as [->|(e' & sc & n & id & H)];
      [now apply bc_same|eapply bc_mint; eassumption].
Qed.

Lemma badge_change_ledger (s s' : Badge.State) :
  badge_change s s' -> badge_ledger s -> badge_ledger s'.
Proof.
  intros [->|Hn Hb Hh Ho _|e to sc n id Hm] Hl.
  - exact Hl.
  - unfold badge_ledger in *. rewrite Hn, Hb, Hh, Ho. exact Hl.
  - eapply mint_keeps_ledger; eassumption.
Qed.

Lemma reachable_badge_ledger (d : address) (w : World) :
  reachable d w -> badge_ledger (badge w).
Proof.
  induction 1 as [|w e c _ IH Hs _].
  - unfold badge_ledger. cbn.
    split; [lia|]. split; [|split].
    + intros t. split; [congruence|lia].
    + intros t Ht. congruence.
    + intros t t' Ht. congruence.
  - destruct (step_ok_or_same e c w) as [(w' & Hx & ->)|(err & _ & ->)];
      [|exact IH].
    eapply badge_change_ledger; [|exact IH].
    now apply (exec_badge_change e c w).
Qed.

(** A token that exists keeps its holder and its record. *)
Lemma badge_change_keeps (s s' : Badge.State) (t : N) :
  badge_change s s' -> owners s t <> 0 ->
  owners s' t = owners s t /\ badges s' t = badges s t
  /\ hasBadge s' (owners s t) = hasBadge s (owners s t) \/
  owners s' t = owners s t /\ badges s' t = badges s t
  /\ hasBadge s' (owners s t) = true.
Proof.
  intros [->|Hn Hb Hh Ho _|e to sc n id Hm] Ht.
  - left. auto.
  - left. rewrite Hb, Hh, Ho. auto.
  - apply mintBadge_writes in Hm as (_ & _ & _ & _ & _ & Hz & _ & _ & ->).
    cbn. destruct (N.eqb_spec t (nextTokenId s)) as [->|Hne];
      [congruence|].
    unfold upd. destruct (owners s t =? to); auto.
Qed.

Lemma run_keeps_badge (tr : list (env * call)) (w : World) (t : N) :
  Forall (fun ec => msg_sender (fst ec) <> 0) tr ->
  owners (badge w) t <> 0 -> hasBadge (badge w) (owners (badge w) t) = true ->
  owners (badge (run tr w)) t = owners (badge w) t
  /\ badges (badge (run tr w)) t = badges (badge w) t
  /\ hasBadge (badge (run tr w)) (owners (badge w) t) = true.
Proof.
  intros Htr. revert w. induction Htr as [|[e c] tr Hs _ IH]; intros w Ht Hh.
  - cbn. auto.
  - cbn [run fold_left fst snd]. fold (run tr (step e c w)).
    assert (Hk : owners (badge (step e c w)) t = owners (badge w) t
                 /\ badges (badge (step e c w)) t = badges (badge w) t
                 /\ hasBadge (badge (step e c w)) (owners (badge w) t) = true).
    { destruct (step_ok_or_same e c w) as [(w' & Hx & ->)|(err & _ & ->)];
        [|auto].
      apply (exec_badge_change e c w w' Hs) in Hx.
      destruct (badge_change_keeps _ _ t Hx Ht)
        as [(Ho & Hb & Hf)|(Ho & Hb & Hf)]; repeat split; congruence. }
    destruct Hk as (Ho & Hb & Hf).
    destruct (IH (step e c w)) as (Ho' & Hb' & Hf'); [congruence|congruence|].
    rewrite Ho in Ho', Hf'. rewrite Ho', Hb', Hb. auto.
Qed.

(** *** The tiers *)

Lemma tier_rank_values (sc n : N) :
  tier_rank (_determineTier sc n)
  = if (90 <=? sc) && (10 <=? n) then 3
    else if (80 <=? sc) && (7 <=? n) then 2
    else if (70 <=? sc) && (5 <=? n) then 1 else 0.
Proof.
  unfold _determineTier.
  destruct ((90 <=? sc) && (10 <=? n))%bool; [reflexivity|].
  destruct ((80 <=? sc) && (7 <=? n))%bool; [reflexivity|].
  destruct ((70 <=? sc) && (5 <=? n))%bool; reflexivity.
Qed.

Lemma tier_rank_mono (sc sc' n n' : N) :
  sc <= sc' -> n <= n' ->
  tier_rank (_determineTier sc n) <= tier_rank (_determineTier sc' n').
Proof.
  intros Hs Hn. rewrite !tier_rank_values.
  repeat match goal with
         | |- context [?a <=? ?b] =>
             destruct (N.leb_spec a b); cbn [andb]
         end; lia.
Qed.

End BadgeMore.

(** ** The decimal printer of the badge *)

Module ToString.
Import Ledger BadgeViews.

Lemma size_div10 (v : N) : v <> 0 -> N.size (v / 10) < N.size v.
Proof.
  intros Hv. destruct (N.eq_dec (v / 10) 0) as [Hz|Hq].
  - rewrite Hz. rewrite (N.size_log2 v Hv). cbn. lia.
  - rewrite (N.size_log2 v Hv), (N.size_log2 _ Hq).
    assert (H2 : 2 * (v / 10) <= v).
    { pose proof (N.Div0.mul_div_le v 10). lia. }
    apply N.log2_le_mono in H2.
    assert (Hpos : 0 < v / 10) by (apply N.neq_0_lt_0; exact Hq).
    rewrite (N.log2_double _ Hpos) in H2. lia.
Qed.

(** Every value has a number of digits, at most its number of bits. *)
Lemma has_digits_exists (fuel : nat) (v : N) :
  (N.to_nat (N.size v) <= fuel)%nat ->
  exists d, has_digits d v /\ (d <= N.to_nat (N.size v))%nat.
Proof.
  revert v. induction fuel as [|f IH]; intros v Hf.
  - exists O. split; [|lia]. cbn. destruct v; [reflexivity|].
    cbn in Hf. lia.
  - destruct (N.eq_dec v 0) as [->|Hv].
    + exists O. split; [reflexivity|lia].
    + pose proof (size_div10 v Hv) as Hlt.
      destruct (IH (v / 10)) as (d & Hd & Hle); [lia|].
      exists (S d). split; [split; assumption|lia].
Qed.

Lemma has_digits_unique (d d' : nat) (v : N) :
  has_digits d v -> has_digits d' v -> d = d'.
Proof.
  revert d' v. induction d as [|d IH]; intros [|d'] v; cbn.
  - reflexivity.
  - intros -> [H _]. now elim H.
  - intros [H _] ->. now elim H.
  - intros [_ H] [_ H']. f_equal. eapply IH; eassumption.
Qed.

Lemma count_loop_ok (d : nat) (fuel : nat) (temp digits : N) :
  has_digits d temp -> (d < fuel)%nat ->
  digits + N.of_nat d <= MAX_UINT256 ->
  count_loop fuel temp digits = Ok (digits + N.of_nat d).
Proof.
  revert fuel temp digits. induction d as [|d IH]; intros fuel temp digits.
  - cbn [has_digits]. intros -> Hf _. destruct fuel; [lia|]. cbn.
    f_equal. lia.
  - intros [Hne Hd] Hf Hm. destruct fuel as [|f]; [lia|].
    cbn [count_loop]. apply N.eqb_neq in Hne. rewrite Hne.
    unfold add256, div256.
    assert (Hle : (digits + 1 <=? MAX_UINT256) = true) by (apply N.leb_le; lia).
    rewrite Hle. cbn -[N.div N.add count_loop MAX_UINT256].
    rewrite IH; [f_equal; lia|assumption|lia|lia].
Qed.

Lemma skipn_set_nth {A : Type} (l : list A) (i : nat) (x : A) :
  (i < List.length l)%nat ->
  skipn i (Pool.set_nth l i x) = x :: skipn (S i) l.
Proof.
  revert i. induction l as [|h t IH]; intros [|i] H; cbn in *; try lia.
  - reflexivity.
  - apply IH. lia.
Qed.

Lemma firstn_set_nth {A : Type} (l : list A) (i : nat) (x : A) :
  firstn i (Pool.set_nth l i x) = firstn i l.
Proof.
  revert i. induction l as [|h t IH]; intros [|i]; cbn; try reflexivity.
  now rewrite IH.
Qed.

Lemma length_set_nth {A : Type} (l : list A) (i : nat) (x : A) :
  List.length (Pool.set_nth l i x) = List.length l.
Proof.
  revert i. induction l as [|h t IH]; intros [|i]; cbn; auto.
Qed.

(** The second loop writes the digits of [value] into the first [d] places
    of the buffer and leaves the rest. *)
Lemma fill_loop_ok (d : nat) (fuel : nat) (value : N)
  (buffer : list Ascii.ascii) :
  has_digits d value -> (d < fuel)%nat -> (d <= List.length buffer)%nat ->
  N.of_nat d <= MAX_UINT256 ->
  fill_loop fuel value (N.of_nat d) buffer
  = Ok (digits_of d value ++ skipn d buffer).
Proof.
  revert fuel value buffer. induction d as [|d IH]; intros fuel value buffer.
  - cbn [has_digits]. intros -> Hf _ _. destruct fuel; [lia|]. reflexivity.
  - intros [Hne Hd] Hf Hl Hm. destruct fuel as [|f]; [lia|].
    cbn [fill_loop]. pose proof Hne as Hne'. apply N.eqb_neq in Hne.
    rewrite Hne.
    assert (Hs : sub256 (N.of_nat (S d)) 1 = Ok (N.of_nat d)).
    { unfold sub256. destruct (N.leb_spec 1 (N.of_nat (S d))); [|lia].
      f_equal. lia. }
    rewrite Hs. cbn -[N.div N.modulo N.add fill_loop MAX_UINT256 add256 store
                     div256 N.of_nat digits_of skipn].
    assert (Ha : add256 48 (value mod 10) = Ok (48 + value mod 10)).
    { unfold add256. pose proof (N.mod_upper_bound value 10).
      destruct (N.leb_spec (48 + value mod 10) MAX_UINT256); [reflexivity|].
      unfold MAX_UINT256 in *. lia. }
    rewrite Ha. cbn -[N.div N.modulo N.add fill_loop MAX_UINT256 store
                     div256 N.of_nat digits_of skipn].
    unfold store. destruct (N.ltb_spec (N.of_nat d) (N.of_nat (List.length buffer)));
      [|lia].
    cbn -[N.div N.modulo N.add fill_loop MAX_UINT256
          N.of_nat digits_of skipn]. rewrite Nat2N.id.
    rewrite IH; [|assumption|lia|rewrite length_set_nth; lia|lia].
    rewrite skipn_set_nth by lia. cbn [digits_of].
    now rewrite <- app_assoc.
Qed.

Lemma digit_value_ascii (n : N) :
  n < 10 -> digit_value (Ascii.ascii_of_N (48 + n)) = Some n.
Proof.
  intros H. unfold digit_value.
  rewrite Ascii.N_ascii_embedding by lia.
  destruct (N.leb_spec 48 (48 + n)); [|lia].
  destruct (N.leb_spec (48 + n) 57); [|lia].
  cbn [andb]. f_equal. lia.
Qed.

Lemma parse_digits_app (acc : N) (l : list Ascii.ascii) (c : Ascii.ascii) :
  parse_digits acc (l ++ [c])
  = match parse_digits acc l with
    | Some x => match digit_value c with
                | Some d => Some (x * 10 + d)
                | None => None
                end
    | None => None
    end.
Proof.
  revert acc. induction l as [|h t IH]; intros acc; cbn.
  - destruct (digit_value c); reflexivity.
  - destruct (digit_value h); [apply IH|reflexivity].
Qed.

Lemma parse_digits_of (d : nat) (v : N) :
  has_digits d v -> parse_digits 0 (digits_of d v) = Some v.
Proof.
  revert v. induction d as [|d IH]; intros v.
  - cbn. now intros ->.
  - intros [_ Hd]. cbn [digits_of]. rewrite parse_digits_app, (IH _ Hd).
    rewrite digit_value_ascii by (apply N.mod_upper_bound; lia).
    f_equal. pose proof (N.Div0.div_mod v 10). lia.
Qed.

Lemma length_digits_of (d : nat) (v : N) : List.length (digits_of d v) = d.
Proof.
  revert v. induction d as [|d IH]; intros v; cbn; [reflexivity|].
  rewrite length_app, IH. cbn. lia.
Qed.

(** No leading zero: the first digit of a value with digits is not 0. *)
Lemma digits_of_head (d : nat) (v : N) :
  has_digits d v ->
  match digits_of d v with
  | [] => v = 0
  | c :: _ => digit_value c <> Some 0
  end.
Proof.
  revert v. induction d as [|d IH]; intros v.
  - cbn. auto.
  - intros [Hne Hd]. cbn [digits_of]. specialize (IH _ Hd).
    destruct (digits_of d (v / 10)) as [|c t]; cbn [app]; [|exact IH].
    rewrite digit_value_ascii by (apply N.mod_upper_bound; lia).
    intros Hz. inversion Hz as [Hm].
    pose proof (N.Div0.div_mod v 10). lia.
Qed.

(** [_toString] returns: neither loop runs out of iterations, no arithmetic
    check and no buffer index fails. *)
Lemma toString_returns (v : N) :
  v <> 0 -> v <= MAX_UINT256 ->
  exists d, has_digits d v /\ d <> O
            /\ _toString v = Ok (string_of_list_ascii (digits_of d v)).
Proof.
  intros Hv Hm.
  destruct (has_digits_exists _ v (le_n _)) as (d & Hd & Hle).
  assert (Hsz : N.size v <= 256).
  { rewrite (N.size_log2 v Hv).
    assert (N.log2 v < 256); [|lia].
    apply N.log2_lt_pow2; [lia|]. unfold MAX_UINT256 in Hm. lia. }
  assert (Hd256 : N.of_nat d <= 256) by lia.
  exists d. split; [exact Hd|]. split.
  { destruct d; [cbn in Hd; contradiction|discriminate]. }
  unfold _toString. apply N.eqb_neq in Hv. rewrite Hv.
  rewrite (count_loop_ok d); [|exact Hd|unfold fuel_for; lia|].
  2:{ unfold MAX_UINT256. lia. }
  cbn -[fill_loop fuel_for repeat N.to_nat N.of_nat digits_of].
  rewrite Nat2N.id.
  rewrite (fill_loop_ok d); [|exact Hd|unfold fuel_for; lia
                            |rewrite repeat_length; lia
                            |unfold MAX_UINT256; lia].
  cbn -[digits_of skipn repeat].
  rewrite skipn_all2 by (rewrite repeat_length; lia).
  now rewrite app_nil_r.
Qed.

End ToString.

(** ** Executions, continued *)

Module TraceFacts.
Import Pool System Props Ledger TokenFacts RegistryFacts BadgeFacts PoolFacts
  SystemFacts PoolEffects RegistryMore PoolMore LoanMore Solvency.

Lemma step_invariant (P : World -> Prop) (e : env) (c : call) (w : World) :
  (forall w', exec e c w = Ok w' -> P w') -> P w -> P (step e c w).
Proof.
  intros Hx Hw.
  destruct (step_ok_or_same e c w) as [(w' & H & ->)|(err & _ & ->)]; auto.
Qed.

(** *** Profiles *)

Lemma step_profile_grows (e : env) (c : call) (w : World) (u : address) :
  Registry.isActive (Registry.creditProfiles (creditRegistry w) u) = true ->
  let p := Registry.creditProfiles (creditRegistry w) u in
  let p' := Registry.creditProfiles (creditRegistry (step e c w)) u in
  Registry.isActive p' = true
  /\ Registry.totalLoans p <= Registry.totalLoans p'
  /\ Registry.successfulRepayments p <= Registry.successfulRepayments p'
  /\ Registry.defaultedLoans p <= Registry.defaultedLoans p'.
Proof.
  intros Ha. cbv zeta. apply step_invariant.
  - intros w' H. apply exec_registry in H as [->|Hop].
    + repeat split; (assumption || lia).
    + now apply registry_op_grows.
  - repeat split; (assumption || lia).
Qed.

Lemma run_profile_grows (tr : list (env * call)) (w : World) (u : address) :
  Registry.isActive (Registry.creditProfiles (creditRegistry w) u) = true ->
  let p := Registry.creditProfiles (creditRegistry w) u in
  let p' := Registry.creditProfiles (creditRegistry (run tr w)) u in
  Registry.isActive p' = true
  /\ Registry.totalLoans p <= Registry.totalLoans p'
  /\ Registry.successfulRepayments p <= Registry.successfulRepayments p'
  /\ Registry.defaultedLoans p <= Registry.defaultedLoans p'.
Proof.
  cbv zeta. revert w. induction tr as [|[e c] tr IH]; intros w Ha.
  - cbn. repeat split; (assumption || lia).
  - cbn [run fold_left fst snd]. fold (run tr (step e c w)).
    destruct (step_profile_grows e c w u Ha) as (Ha' & H1 & H2 & H3).
    destruct (IH _ Ha') as (Ha'' & H1' & H2' & H3').
    repeat split; (assumption || lia).
Qed.

(** A caller without the oracle role writes no profile but its own, and
    that one through the pool only. *)
Lemma exec_profiles_of_others (e : env) (c : call) (w w' : World)
  (u : address) :
  Registry.roles (creditRegistry w) Registry.ORACLE_ROLE (msg_sender e) = false ->
  exec e c w = Ok w' -> u <> msg_sender e ->
  Registry.creditProfiles (creditRegistry w') u
  = Registry.creditProfiles (creditRegistry w) u.
Proof.
  intros Hr H Hu.
  destruct c;
    try (apply exec_registry_frame in H; [now rewrite H|exact I]).
  - open_call H. exfalso.
    match goal with E : Registry.createProfile _ _ _ _ = Ok ?s |- _ =>
      destruct (registry_op_by_oracle e (creditRegistry w) s Hr) as (Hx & _);
      exact (Hx _ _ E) end.
  - open_call H. exfalso.
    match goal with E : Registry.updateScore _ _ _ _ = Ok ?s |- _ =>
      destruct (registry_op_by_oracle e (creditRegistry w) s Hr)
        as (_ & Hx & _);
      exact (Hx _ _ E) end.
  - open_call H. exfalso.
    match goal with E : Registry.recordLoan _ _ _ = Ok ?s |- _ =>
      destruct (registry_op_by_oracle e (creditRegistry w) s Hr)
        as (_ & _ & Hx & _);
      exact (Hx _ E) end.
  - open_call H. exfalso.
    match goal with E : Registry.recordRepayment _ _ _ = Ok ?s |- _ =>
      destruct (registry_op_by_oracle e (creditRegistry w) s Hr)
        as (_ & _ & _ & Hx & _);
      exact (Hx _ E) end.
  - open_call H. exfalso.
    match goal with E : Registry.recordDefault _ _ _ = Ok ?s |- _ =>
      destruct (registry_op_by_oracle e (creditRegistry w) s Hr)
        as (_ & _ & _ & _ & Hx);
      exact (Hx _ E) end.
  - open_call H. cbn [creditRegistry].
    erewrite role_change_profiles; [reflexivity|]. left. eauto.
  - open_call H. cbn [creditRegistry].
    erewrite role_change_profiles; [reflexivity|]. right. left. eauto.
  - open_call H. cbn [creditRegistry].
    erewrite role_change_profiles; [reflexivity|]. right. right. eauto.
  - cbn [exec] in H. apply requestLoan_ok in H as (_ & _ & _ & Hl' & _).
    apply recordLoan_ok in Hl' as (_ & _ & ->). cbn.
    now apply upd_other.
  - cbn [exec] in H. pose proof (repayLoan_writes _ _ _ _ H) as H'.
    cbv zeta in H'.
    destruct H' as (l & t & r & _ & _ & _ & _ & _ & _ & Hr' & _ & -> & _).
    apply recordRepayment_ok in Hr' as (_ & _ & t' & ->). cbn.
    now apply upd_other.
Qed.

(** What a caller without the oracle role does to its own profile: one
    loan recorded by [requestLoan], one repayment recorded by [repayLoan],
    and nothing by any other call. *)
Lemma exec_own_profile (e : env) (c : call) (w w' : World) :
  Registry.roles (creditRegistry w) Registry.ORACLE_ROLE (msg_sender e) = false ->
  exec e c w = Ok w' ->
  own_profile_change c
    (Registry.creditProfiles (creditRegistry w) (msg_sender e))
    (Registry.creditProfiles (creditRegistry w') (msg_sender e)).
Proof.
  intros Hr H. unfold own_profile_change.
  destruct c;
    try (apply exec_registry_frame in H; [now rewrite H|exact I]).
  - open_call H. exfalso.
    match goal with E : Registry.createProfile _ _ _ _ = Ok ?s |- _ =>
      destruct (registry_op_by_oracle e (creditRegistry w) s Hr) as (Hx & _);
      exact (Hx _ _ E) end.
  - open_call H. exfalso.
    match goal with E : Registry.updateScore _ _ _ _ = Ok ?s |- _ =>
      destruct (registry_op_by_oracle e (creditRegistry w) s Hr)
        as (_ & Hx & _);
      exact (Hx _ _ E) end.
  - open_call H. exfalso.
    match goal with E : Registry.recordLoan _ _ _ = Ok ?s |- _ =>
      destruct (registry_op_by_oracle e (creditRegistry w) s Hr)
        as (_ & _ & Hx & _);
      exact (Hx _ E) end.
  - open_call H. exfalso.
    match goal with E : Registry.recordRepayment _ _ _ = Ok ?s |- _ =>
      destruct (registry_op_by_oracle e (creditRegistry w) s Hr)
        as (_ & _ & _ & Hx & _);
      exact (Hx _ E) end.
  - open_call H. exfalso.
    match goal with E : Registry.recordDefault _ _ _ = Ok ?s |- _ =>
      destruct (registry_op_by_oracle e (creditRegistry w) s Hr)
        as (_ & _ & _ & _ & Hx);
      exact (Hx _ E) end.
  - open_call H. cbn [creditRegistry].
    erewrite role_change_profiles; [reflexivity|]. left. eauto.
  - open_call H. cbn [creditRegistry].
    erewrite role_change_profiles; [reflexivity|]. right. left. eauto.
  - open_call H. cbn [creditRegistry].
    erewrite role_change_profiles; [reflexivity|]. right. right. eauto.
  - cbn [exec] in H. apply requestLoan_ok in H as (_ & _ & _ & Hl' & _).
    apply recordLoan_ok in Hl' as (_ & _ & ->). cbn.
    apply upd_same.
  - cbn [exec] in H. pose proof (repayLoan_writes _ _ _ _ H) as H'.
    cbv zeta in H'.
    destruct H' as (l & t & r & _ & _ & _ & _ & _ & _ & Hr' & _ & -> & _).
    apply recordRepayment_ok in Hr' as (_ & _ & t' & ->). cbn.
    exists t'. apply upd_same.
Qed.

(** *** Lenders *)

Lemma exec_no_interest (e : env) (c : call) (w w' : World) :
  exec e c w = Ok w' -> no_interest w -> no_interest w'.
Proof.
  intros H Hw a.
  destruct c;
    try (apply exec_lenders_frame in H as [-> _]; [apply Hw|exact I]).
  - cbn [exec] in H. apply deposit_books in H as [-> _].
    unfold upd. destruct (a =? msg_sender e); [cbn; apply Hw|apply Hw].
  - cbn [exec] in H. apply withdraw_books in H as (_ & _ & _ & -> & _).
    unfold upd. destruct (a =? msg_sender e); [cbn; apply Hw|apply Hw].
Qed.

Lemma reachable_no_interest (d : address) (w : World) :
  reachable d w -> no_interest w.
Proof.
  induction 1 as [|w e c _ IH _ _].
  - intros a. reflexivity.
  - apply step_invariant; [|exact IH].
    intros w' H. now apply (exec_no_interest e c w).
Qed.

(** [withdraw] asks for three things and, when the lenders' deposits add up
    to the total, for nothing else. *)
Lemma withdraw_accepts (e : env) (amt : N) (w : World) :
  deposits_tracked w -> 0 < amt ->
  amt <= deposited (lenders (pool w) (msg_sender e)) ->
  amt <= getAvailableLiquidity w ->
  exists w', withdraw e amt w = Ok w'.
Proof.
  intros Ht Hpos Hd Hl.
  pose proof (tracked_bounds_lender w (msg_sender e) Ht) as Hb.
  unfold withdraw, require, sub256, Token.transfer, Token.move.
  apply N.ltb_lt in Hpos. rewrite Hpos.
  assert (Htd : amt <= totalDeposits (pool w)) by lia.
  apply N.leb_le in Hd. rewrite Hd.
  pose proof Hl as Hl'. apply N.leb_le in Hl. rewrite Hl.
  apply N.leb_le in Htd. rewrite Htd.
  cbn -[N.sub N.add N.ltb]. unfold getAvailableLiquidity, Token.balanceOf in Hl'.
  destruct (N.ltb_spec (Token.balances (usdcToken w) pool_address) amt);
    [lia|].
  eexists. reflexivity.
Qed.

(** *** The calls of others, over an execution *)

Lemma run_by_others (tr : list (env * call)) (w : World) (a : address) :
  Forall (fun ec => msg_sender (fst ec) <> a) tr ->
  lenders (pool (run tr w)) a = lenders (pool w) a
  /\ borrowerLoans (pool (run tr w)) a = borrowerLoans (pool w) a
  /\ activeLoanCount (pool (run tr w)) a = activeLoanCount (pool w) a.
Proof.
  intros Htr. revert w. induction Htr as [|[e c] tr Hs _ IH]; intros w.
  - cbn. auto.
  - cbn [run fold_left fst snd]. fold (run tr (step e c w)).
    destruct (IH (step e c w)) as (-> & -> & ->).
    apply step_invariant; [|auto].
    intros w' H. now apply (exec_by_others e c w).
Qed.

(** *** Executions without the pool as a caller *)

Lemma user_driven_run (P : call -> Prop) (d : address)
  (tr : list (env * call)) :
  Forall (fun ec => msg_sender (fst ec) <> 0
                    /\ msg_sender (fst ec) <> pool_address /\ P (snd ec)) tr ->
  forall w, user_driven P d w -> user_driven P d (run tr w).
Proof.
  induction 1 as [|[e c] tr (Hz & Hp & Hc) _ IH]; intros w Hw; [exact Hw|].
  cbn [run fold_left fst snd]. apply IH. now apply ud_step.
Qed.

Ltac calls_by_users :=
  repeat (apply Forall_cons;
          [split; [discriminate|split; [discriminate|exact I]]|]);
  apply Forall_nil.

Lemma user_driven_one_repaid :
  user_driven no_emergency Scenario.deployer Scenario.one_repaid.
Proof.
  apply user_driven_run.
  { cbv [Scenario.cycle Scenario.borrow Scenario.fund_repayment app].
    calls_by_users. }
  apply user_driven_run; [|apply ud_genesis].
  unfold Scenario.setup. calls_by_users.
Qed.

Lemma covered_solvent (w : World) : books_covered w -> solvent w.
Proof. unfold books_covered, solvent. lia. Qed.

Lemma reachable_three_repaid :
  reachable Scenario.deployer Scenario.three_repaid.
Proof.
  apply reachable_run; [|apply reachable_funded].
  cbv [Scenario.cycle Scenario.borrow Scenario.fund_repayment app].
  senders_nonzero.
Qed.

(** *** Administration *)

Lemma exec_admin_frame (e : env) (c : call) (w w' : World) :
  exec e c w = Ok w' ->
  msg_sender e <> owner (pool w) -> msg_sender e <> Badge.owner (badge w) ->
  senteBadge (pool w') = senteBadge (pool w)
  /\ owner (pool w') = owner (pool w)
  /\ Badge.authorizedMinters (badge w') = Badge.authorizedMinters (badge w)
  /\ Badge.owner (badge w') = Badge.owner (badge w).
Proof.
  intros H Hp Hb.
  destruct c;
    try (open_call H;
         unfold Badge.setAuthorizedMinter, Badge.transferOwnership,
           Badge.renounceOwnership, Badge.approve, Badge.setApprovalForAll,
           Badge.transferFrom, Badge._update, Badge.onlyOwner, onlyOwner in *;
         steps; facts; cbn; auto; congruence).
  - open_call H. cbn.
    match goal with Hm : Badge.mintBadge _ _ _ _ _ = Ok _ |- _ =>
      apply mintBadge_ok in Hm as (_ & _ & _ & _ & _ & _ & -> & ->) end.
    auto.
  - cbn [exec] in H. pose proof (requestLoan_writes _ _ _ _ H) as H'.
    cbv zeta in H'.
    destruct H' as (_ & _ & _ & _ & i & t & r & _ & _ & _ & ->). cbn. auto.
  - cbn [exec] in H. pose proof (repayLoan_writes _ _ _ _ H) as H'.
    cbv zeta in H'.
    destruct H' as (l & t & r & _ & _ & _ & _ & _ & _ & _ & _ & _ & ->).
    cbn. split; [reflexivity|]. split; [reflexivity|].
    apply repayLoan_badge in H as [->|(e' & sc & n & id & Hm)]; [auto|].
    apply mintBadge_ok in Hm as (_ & _ & _ & _ & _ & _ & -> & ->). auto.
Qed.

(** *** The wiring of the pool *)

(** A pool without the oracle role can neither lend nor be repaid. *)
Lemma pool_without_role (e : env) (w : World) :
  Registry.roles (creditRegistry w) Registry.ORACLE_ROLE pool_address = false ->
  (forall amt, is_revert (requestLoan e amt w) = true)
  /\ (forall i, is_revert (repayLoan e i w) = true).
Proof.
  intros Hr. split.
  - intros amt. destruct (requestLoan e amt w) as [w'|] eqn:H; [|reflexivity].
    apply requestLoan_ok in H as (_ & _ & _ & Hl & _).
    apply recordLoan_ok in Hl as (Ho & _). cbn in Ho. congruence.
  - intros i. destruct (repayLoan e i w) as [w'|] eqn:H; [|reflexivity].
    pose proof (repayLoan_writes _ _ _ _ H) as H'. cbv zeta in H'.
    destruct H' as (l & t & r & _ & _ & _ & _ & _ & _ & Hrec & _).
    apply recordRepayment_ok in Hrec as (Ho & _). cbn in Ho. congruence.
Qed.

(** The checks of [requestLoan] are all it asks for. *)
Lemma requestLoan_accepts (e : env) (amt : N) (w : World) :
  MIN_LOAN_AMOUNT <= amt <= MAX_LOAN_AMOUNT ->
  activeLoanCount (pool w) (msg_sender e) = 0 ->
  MIN_CREDIT_SCORE <= Registry.getScore (creditRegistry w) (msg_sender e) ->
  amt <= getAvailableLiquidity w ->
  Registry.roles (creditRegistry w) Registry.ORACLE_ROLE pool_address = true ->
  block_timestamp e + LOAN_DURATION <= MAX_UINT256 ->
  totalBorrowed (pool w) + amt <= MAX_UINT256 ->
  Registry.totalLoans
    (Registry.creditProfiles (creditRegistry w) (msg_sender e)) + 1
  <= MAX_UINT256 ->
  exists w', requestLoan e amt w = Ok w'.
Proof.
  intros [Hlo Hhi] Hc Hsc Hl Hr Hts Htb Htl.
  assert (Hact : Registry.isActive
                   (Registry.creditProfiles (creditRegistry w) (msg_sender e))
                 = true).
  { unfold Registry.getScore, MIN_CREDIT_SCORE, Registry.DEFAULT_SCORE in Hsc.
    destruct (Registry.isActive _); [reflexivity|]. cbn in Hsc. lia. }
  unfold requestLoan, require.
  pose proof Hhi as Hhi'.
  apply N.leb_le in Hlo, Hhi, Hsc. rewrite Hlo, Hhi, Hc, Hsc.
  cbn [N.eqb].
  pose proof Hl as Hl'. apply N.leb_le in Hl. rewrite Hl.
  rewrite calculateInterest_fits.
  2:{ unfold MAX_LOAN_AMOUNT, MAX_UINT256 in *. lia. }
  unfold Registry.recordLoan, Registry.onlyRole, require,
    Token.transfer, Token.move, add256.
  cbv zeta. cbn [msg_sender as_sender].
  apply N.leb_le in Hts, Htb, Htl. rewrite Hts, Hr, Hact, Htl.
  assert (H1 : (0 + 1 <=? MAX_UINT256) = true) by reflexivity.
  rewrite H1, Htb.
  unfold getAvailableLiquidity, Token.balanceOf in Hl'.
  destruct (N.ltb_spec (Token.balances (usdcToken w) pool_address) amt);
    [lia|].
  cbn -[N.add N.sub N.mul N.div]. eexists. reflexivity.
Qed.

(** *** Badges that were earned *)

Lemma checkAndMintBadge_gives (e : env) (b : address) (w w' : World) :
  _checkAndMintBadge e b w = Ok w' ->
  senteBadge (pool w) = badge_address -> eligible w b ->
  badges_flagged (badge w) ->
  Badge.hasBadge (badge w') b = true.
Proof.
  unfold _checkAndMintBadge, eligible. intros H Hs [H3 H0] Hf.
  rewrite Hs in H. cbn -[N.ltb N.leb N.eqb Badge.mintBadge] in H.
  unfold Badge.balanceOf in H. rewrite (Hf b) in H.
  destruct (Badge.hasBadge (badge w) b) eqn:Hb.
  - cbn in H. inversion H; subst w'. exact Hb.
  - cbn -[N.leb N.eqb Badge.mintBadge] in H.
    apply N.leb_le in H3. rewrite H3, H0 in H.
    cbn -[Badge.mintBadge] in H.
    destruct (Badge.mintBadge _ _ _ _ _) as [[id bs]|] eqn:Hm;
      [|discriminate H].
    inversion H; subst w'. cbn.
    apply mintBadge_ok in Hm as (_ & _ & _ & _ & -> & _).
    apply upd_same.
Qed.

Lemma repayLoan_gives_badge (e : env) (i : N) (w w' : World) :
  repayLoan e i w = Ok w' -> badges_flagged (badge w) ->
  senteBadge (pool w) = badge_address -> eligible w' (msg_sender e) ->
  Badge.hasBadge (badge w') (msg_sender e) = true.
Proof.
  unfold repayLoan. intros H Hf Hs He. step_ok H.
  destruct (nth_error _ _) as [loan|] eqn:Hn; [|discriminate].
  steps.
  pose proof (checkAndMintBadge_frame _ _ _ _ H) as (_ & Hr & _).
  apply checkAndMintBadge_gives in H; [exact H|exact Hs| |exact Hf].
  unfold eligible in *. rewrite Hr in He. exact He.
Qed.

End TraceFacts.

(** * Further properties of the code *)

Module Extra.
Import Pool System Props Ledger BadgeViews TokenFacts RegistryFacts BadgeFacts
  PoolFacts SystemFacts PoolEffects RegistryMore PoolMore LoanMore Solvency
  BadgeMore ToString TraceFacts.

(** ** The registry *)

(** X3.  Borrowing needs a profile.  A principal without a profile reads as
    score 50, below the pool's floor of 60: [isEligibleForLoan] at the floor
    is false and every [requestLoan] of that principal reverts, with
    "Credit score too low" once the amount and the active-loan checks are
    passed. *)
Theorem no_profile_no_loan (e : env) (amt : N) (w : World) :
  Registry.isActive (Registry.getProfile (creditRegistry w) (msg_sender e))
  = false ->
  Registry.getScore (creditRegistry w) (msg_sender e) = 50
  /\ Registry.isEligibleForLoan (creditRegistry w) (msg_sender e)
       MIN_CREDIT_SCORE = false
  /\ is_revert (requestLoan e amt w) = true
  /\ (MIN_LOAN_AMOUNT <= amt <= MAX_LOAN_AMOUNT ->
      activeLoanCount (pool w) (msg_sender e) = 0 ->
      requestLoan e amt w = Revert (Error "Credit score too low")).
Proof.
  unfold Registry.getProfile. intros Ha.
  assert (Hs : Registry.getScore (creditRegistry w) (msg_sender e) = 50).
  { unfold Registry.getScore. now rewrite Ha. }
  split; [exact Hs|]. split.
  { unfold Registry.isEligibleForLoan. now rewrite Ha. }
  unfold requestLoan, require. rewrite Hs. split.
  - destruct (MIN_LOAN_AMOUNT <=? amt); [|reflexivity].
    destruct (amt <=? MAX_LOAN_AMOUNT); [|reflexivity].
    destruct (activeLoanCount (pool w) (msg_sender e) =? 0); reflexivity.
  - intros [Hlo Hhi] Hc. apply N.leb_le in Hlo, Hhi.
    rewrite Hlo, Hhi, Hc. reflexivity.
Qed.

Lemma no_profile_no_loan_witness :
  requestLoan (Scenario.by_ Scenario.lender 20) (Scenario.usdc 100)
    Scenario.funded
  = Revert (Error "Credit score too low").
Proof.
  destruct (no_profile_no_loan (Scenario.by_ Scenario.lender 20)
              (Scenario.usdc 100) Scenario.funded)
    as (_ & _ & _ & H).
  - vm_compute. reflexivity.
  - apply H.
    + vm_compute. split; discriminate.
    + vm_compute. reflexivity.
Defined.

(** X4.  A profile is permanent.  Whatever is called afterwards, by
    whomever, a profile that exists keeps existing, none of its three
    counters ever decreases, and [createProfile] for it reverts. *)
Theorem profile_is_permanent (tr : list (env * call)) (w : World)
  (u : address) :
  Registry.isActive (Registry.getProfile (creditRegistry w) u) = true ->
  Registry.isActive (Registry.getProfile (creditRegistry (run tr w)) u) = true
  /\ Registry.totalLoans (Registry.getProfile (creditRegistry w) u)
     <= Registry.totalLoans (Registry.getProfile (creditRegistry (run tr w)) u)
  /\ Registry.successfulRepayments (Registry.getProfile (creditRegistry w) u)
     <= Registry.successfulRepayments
          (Registry.getProfile (creditRegistry (run tr w)) u)
  /\ Registry.defaultedLoans (Registry.getProfile (creditRegistry w) u)
     <= Registry.defaultedLoans
          (Registry.getProfile (creditRegistry (run tr w)) u)
  /\ forall e sc,
       is_revert (Registry.createProfile e u sc (creditRegistry (run tr w)))
       = true.
Proof.
  unfold Registry.getProfile. intros Ha.
  destruct (run_profile_grows tr w u Ha) as (Ha' & H1 & H2 & H3).
  repeat split; try assumption.
  intros e sc. unfold Registry.createProfile, Registry.onlyRole, require.
  rewrite Ha'.
  destruct (Registry.roles _ _ _); reflexivity.
Qed.

Lemma profile_is_permanent_witness :
  Registry.isActive
    (Registry.getProfile
       (creditRegistry (run (Scenario.cycle 100 0) Scenario.funded))
       Scenario.borrower) = true.
Proof.
  destruct (profile_is_permanent (Scenario.cycle 100 0) Scenario.funded
              Scenario.borrower)
    as (H & _).
  - vm_compute. reflexivity.
  - exact H.
Defined.

(** X5.  [updateScore] and [getScore] round trip.  An oracle's
    [updateScore] with a score of at most 100 is never refused, whether the
    profile exists or not; afterwards [getScore] returns that score,
    [isEligibleForLoan] compares with it, the loan counters of an existing
    profile are kept, and no other profile and no role is touched. *)
Theorem updateScore_then_getScore (e : env) (u : address) (sc : N)
  (r : Registry.State) :
  Registry.roles r Registry.ORACLE_ROLE (msg_sender e) = true ->
  sc <= Registry.MAX_SCORE ->
  exists r',
    Registry.updateScore e u sc r = Ok r'
    /\ Registry.getScore r' u = sc
    /\ (forall m, Registry.isEligibleForLoan r' u m = (m <=? sc))
    /\ Registry.lastUpdated (Registry.getProfile r' u) = block_timestamp e
    /\ (Registry.isActive (Registry.getProfile r u) = true ->
        Registry.totalLoans (Registry.getProfile r' u)
        = Registry.totalLoans (Registry.getProfile r u)
        /\ Registry.successfulRepayments (Registry.getProfile r' u)
           = Registry.successfulRepayments (Registry.getProfile r u)
        /\ Registry.defaultedLoans (Registry.getProfile r' u)
           = Registry.defaultedLoans (Registry.getProfile r u))
    /\ (forall v, v <> u ->
          Registry.getProfile r' v = Registry.getProfile r v)
    /\ Registry.roles r' = Registry.roles r.
Proof.
  intros Hr Hs. destruct (updateScore_accepts e u sc r Hr Hs) as [r' H].
  exists r'. split; [exact H|].
  apply updateScore_ok in H as (_ & _ & H). cbv zeta in H. subst r'.
  unfold Registry.getScore, Registry.isEligibleForLoan, Registry.getProfile,
    Registry.set_profile.
  cbn [Registry.creditProfiles Registry.roles]. rewrite upd_same.
  destruct (Registry.isActive (Registry.creditProfiles r u)) eqn:Ha; cbn;
    repeat split; try reflexivity; try discriminate;
    intros v Hv; now apply upd_other.
Qed.

Lemma updateScore_then_getScore_witness :
  exists r',
    Registry.updateScore (Scenario.by_ Scenario.deployer 5) Scenario.borrower
      88 (Registry.init Scenario.deployer) = Ok r'
    /\ Registry.getScore r' Scenario.borrower = 88.
Proof.
  destruct (updateScore_then_getScore (Scenario.by_ Scenario.deployer 5)
              Scenario.borrower 88 (Registry.init Scenario.deployer))
    as (r' & H & Hg & _).
  - reflexivity.
  - vm_compute. discriminate.
  - exists r'. split; assumption.
Defined.

(** X6.  [getRepaymentRate] is a percentage.  In every state of every
    execution in which the loan events of the registry come from the pool,
    the rate it returns is at most 100. *)
Theorem repayment_rate_at_most_100 (d : address) (w : World) (u : address)
  (rate : N) :
  reachable_by pool_reported d w ->
  Registry.getRepaymentRate (creditRegistry w) u = Ok rate -> rate <= 100.
Proof.
  intros Hw. apply reachable_counters_balanced in Hw.
  destruct (Hw u) as [Hb _]. cbv zeta in Hb.
  unfold Registry.getRepaymentRate, mul256, div256.
  destruct (negb _ || _)%bool; [intros H; inversion H; lia|].
  destruct (_ <=? MAX_UINT256); [|discriminate]. cbn.
  destruct (N.eqb_spec
              (Registry.totalLoans
                 (Registry.creditProfiles (creditRegistry w) u)) 0)
    as [|Hne]; [discriminate|].
  intros H. inversion H; subst rate; clear H.
  apply N.Div0.div_le_upper_bound. lia.
Qed.

Lemma repayment_rate_at_most_100_witness :
  Registry.getRepaymentRate (creditRegistry Scenario.one_repaid)
    Scenario.borrower = Ok 100
  /\ 100 <= 100.
Proof.
  assert (H : Registry.getRepaymentRate (creditRegistry Scenario.one_repaid)
                Scenario.borrower = Ok 100) by (vm_compute; reflexivity).
  split; [exact H|].
  apply (repayment_rate_at_most_100 Scenario.deployer Scenario.one_repaid
           Scenario.borrower 100).
  - apply reported_one_repaid.
  - exact H.
Defined.

(** X7.  Only an oracle writes the profile of somebody else.  A transaction
    of a caller without the oracle role, whatever it calls, leaves the
    profile of every other principal as it was.  Its own profile changes
    through the pool alone: the transaction leaves it as it was, or it is a
    [requestLoan] that counted one more loan, or a [repayLoan] that counted
    one more repayment and raised the score by 2 up to 100; after any other
    call the caller's profile is as before. *)
Theorem non_oracle_writes_own_profile_only (e : env) (c : call) (w : World) :
  Registry.roles (creditRegistry w) Registry.ORACLE_ROLE (msg_sender e)
  = false ->
  (forall u,
      u <> msg_sender e ->
      Registry.getProfile (creditRegistry (step e c w)) u
      = Registry.getProfile (creditRegistry w) u)
  /\ (Registry.getProfile (creditRegistry (step e c w)) (msg_sender e)
      = Registry.getProfile (creditRegistry w) (msg_sender e)
      \/ own_profile_change c
           (Registry.getProfile (creditRegistry w) (msg_sender e))
           (Registry.getProfile (creditRegistry (step e c w)) (msg_sender e)))
  /\ (match c with RequestLoan _ | RepayLoan _ => False | _ => True end ->
      forall u,
        Registry.getProfile (creditRegistry (step e c w)) u
        = Registry.getProfile (creditRegistry w) u).
Proof.
  intros Hr. unfold Registry.getProfile.
  assert (Hothers : forall u,
             u <> msg_sender e ->
             Registry.creditProfiles (creditRegistry (step e c w)) u
             = Registry.creditProfiles (creditRegistry w) u).
  { intros u Hu. apply step_invariant; [|reflexivity].
    intros w' H. now apply (exec_profiles_of_others e c w). }
  split; [exact Hothers|]. split.
  - destruct (step_ok_or_same e c w) as [(w' & H & ->)|(err & _ & ->)];
      [right|left; reflexivity].
    now apply exec_own_profile.
  - intros Hc u. destruct (N.eq_dec u (msg_sender e)) as [->|Hu];
      [|now apply Hothers].
    destruct (step_ok_or_same e c w) as [(w' & H & ->)|(err & _ & ->)];
      [|reflexivity].
    pose proof (exec_own_profile e c w w' Hr H) as Ho.
    destruct c; try contradiction; exact Ho.
Qed.

Lemma non_oracle_writes_own_profile_only_witness :
  Registry.getProfile
    (creditRegistry
       (step (Scenario.by_ Scenario.lender 50)
          (UpdateScore Scenario.borrower 100) Scenario.funded))
    Scenario.borrower
  = Registry.getProfile (creditRegistry Scenario.funded) Scenario.borrower
  /\ Registry.getProfile (creditRegistry Scenario.one_loan) Scenario.borrower
     = Registry.mkProfile 75 13 1 0 0 true.
Proof.
  split.
  - destruct (non_oracle_writes_own_profile_only
                (Scenario.by_ Scenario.lender 50)
                (UpdateScore Scenario.borrower 100) Scenario.funded)
      as (H & _).
    + vm_compute. reflexivity.
    + apply H. discriminate.
  - destruct (non_oracle_writes_own_profile_only
                (Scenario.by_ Scenario.borrower 100)
                (RequestLoan (Scenario.usdc 100)) Scenario.funded)
      as (_ & [H|H] & _).
    + vm_compute. reflexivity.
    + vm_compute. reflexivity.
    + change (step (Scenario.by_ Scenario.borrower 100)
                (RequestLoan (Scenario.usdc 100)) Scenario.funded)
        with Scenario.one_loan in H.
      cbn [own_profile_change] in H.
      etransitivity; [exact H|vm_compute; reflexivity].
Defined.

(** X8.  [recordRepayment] never panics on the score.  In every state the
    registry reaches, an oracle's [recordRepayment] for an existing profile
    whose counter is not at the top of its type succeeds: the 8-bit sum
    [currentScore + 2] never overflows.  The score goes up by 2, capped at
    100; the repayment is counted; the other two counters stay. *)
Theorem recordRepayment_never_panics (d : address) (e : env) (u : address)
  (r : Registry.State) :
  registry_reachable d r ->
  Registry.roles r Registry.ORACLE_ROLE (msg_sender e) = true ->
  Registry.isActive (Registry.getProfile r u) = true ->
  Registry.successfulRepayments (Registry.getProfile r u) < MAX_UINT256 ->
  exists r',
    Registry.recordRepayment e u r = Ok r'
    /\ Registry.getScore r' u
       = N.min (Registry.getScore r u + 2) Registry.MAX_SCORE
    /\ Registry.successfulRepayments (Registry.getProfile r' u)
       = Registry.successfulRepayments (Registry.getProfile r u) + 1
    /\ Registry.totalLoans (Registry.getProfile r' u)
       = Registry.totalLoans (Registry.getProfile r u)
    /\ Registry.defaultedLoans (Registry.getProfile r' u)
       = Registry.defaultedLoans (Registry.getProfile r u).
Proof.
  unfold Registry.getProfile, Registry.getScore. intros Hreach Hr Ha Hn.
  apply registry_reachable_score in Hreach. specialize (Hreach u).
  unfold Registry.recordRepayment, Registry.onlyRole, require, add256, add8,
    Registry.set_profile.
  unfold Registry.MAX_SCORE in *.
  rewrite Hr, Ha. cbn [negb].
  assert (Hfit : (Registry.successfulRepayments (Registry.creditProfiles r u)
                  + 1 <=? MAX_UINT256) = true) by (apply N.leb_le; lia).
  rewrite Hfit. cbn -[N.add N.ltb N.leb N.min upd].
  destruct (N.ltb_spec (Registry.score (Registry.creditProfiles r u)) 100)
    as [Hlt|Hge].
  - assert (H8 : (Registry.score (Registry.creditProfiles r u) + 2
                  <=? MAX_UINT8) = true)
      by (apply N.leb_le; unfold MAX_UINT8; lia).
    rewrite H8. cbn -[N.add N.ltb N.leb N.min upd].
    eexists. split; [reflexivity|].
    cbn -[N.add N.ltb N.leb N.min]. rewrite upd_same.
    cbn -[N.add N.ltb N.leb N.min]. rewrite ?Ha. cbn -[N.add N.ltb N.leb N.min].
    repeat split; try reflexivity.
    destruct (N.ltb_spec 100
                (Registry.score (Registry.creditProfiles r u) + 2)); lia.
  - eexists. split; [reflexivity|].
    cbn -[N.add N.ltb N.leb N.min]. rewrite upd_same.
    cbn -[N.add N.ltb N.leb N.min]. rewrite ?Ha. cbn -[N.add N.ltb N.leb N.min].
    repeat split; try reflexivity. lia.
Qed.

Lemma recordRepayment_never_panics_witness :
  exists r',
    Registry.recordRepayment (Scenario.by_ Scenario.deployer 20)
      Scenario.borrower (creditRegistry Scenario.funded) = Ok r'
    /\ Registry.getScore r' Scenario.borrower = 77.
Proof.
  destruct (recordRepayment_never_panics Scenario.deployer
              (Scenario.by_ Scenario.deployer 20) Scenario.borrower
              (creditRegistry Scenario.funded))
    as (r' & H & Hg & _).
  - apply reachable_registry. apply reachable_funded.
  - vm_compute. reflexivity.
  - vm_compute. reflexivity.
  - vm_compute. reflexivity.
  - exists r'. split; [exact H|]. rewrite Hg. vm_compute. reflexivity.
Defined.

(** ** The pool: lenders *)

(** X9.  [totalDeposits] is the sum of the lenders' deposits.  In every
    reachable state finitely many lenders hold a deposit and their
    [deposited] amounts add up to [totalDeposits]; so no lender's deposit
    exceeds the total. *)
Theorem deposits_add_up (d : address) (w : World) :
  reachable d w ->
  deposits_tracked w
  /\ forall a, deposited (getLenderInfo w a) <= totalDeposits (pool w).
Proof.
  intros Hw. apply reachable_deposits_tracked in Hw.
  split; [exact Hw|]. intros a. now apply tracked_bounds_lender.
Qed.

Lemma deposits_add_up_witness :
  deposited (getLenderInfo Scenario.one_repaid Scenario.lender)
  <= totalDeposits (pool Scenario.one_repaid).
Proof.
  destruct (deposits_add_up Scenario.deployer Scenario.one_repaid) as (_ & H).
  - apply reachable_one_repaid.
  - apply H.
Defined.

(** X10.  A lender can take out a deposit whenever the pool holds the
    amount.  In every reachable state [withdraw] of a positive amount within
    the caller's deposit and within the pool's balance succeeds (the checked
    subtraction from [totalDeposits] never fails); the deposit and the total
    go down by the amount, which moves from the pool to the lender. *)
Theorem withdraw_of_own_deposit (d : address) (e : env) (amt : N)
  (w : World) :
  reachable d w -> msg_sender e <> pool_address ->
  0 < amt ->
  amt <= deposited (getLenderInfo w (msg_sender e)) ->
  amt <= getAvailableLiquidity w ->
  exists w',
    withdraw e amt w = Ok w'
    /\ deposited (getLenderInfo w' (msg_sender e))
       = deposited (getLenderInfo w (msg_sender e)) - amt
    /\ totalDeposits (pool w') = totalDeposits (pool w) - amt
    /\ Token.balanceOf (usdcToken w') (msg_sender e)
       = Token.balanceOf (usdcToken w) (msg_sender e) + amt
    /\ getAvailableLiquidity w' = getAvailableLiquidity w - amt.
Proof.
  unfold getLenderInfo. intros Hw Hs Hpos Hd Hl.
  apply reachable_deposits_tracked in Hw.
  destruct (withdraw_accepts e amt w Hw Hpos Hd Hl) as [w' H].
  exists w'. split; [exact H|].
  apply withdraw_writes in H as (_ & _ & _ & _ & t & Ht & ->).
  apply move_balances in Ht as (_ & _ & _ & _ & Hn & _).
  destruct (Hn (not_eq_sym Hs)) as [Hp Hb].
  unfold getAvailableLiquidity, Token.balanceOf. cbn.
  rewrite upd_same. cbn. auto.
Qed.

Lemma withdraw_of_own_deposit_witness :
  exists w',
    withdraw (Scenario.by_ Scenario.lender 20) (Scenario.usdc 5000)
      Scenario.funded = Ok w'
    /\ totalDeposits (pool w') = 0.
Proof.
  destruct (withdraw_of_own_deposit Scenario.deployer
              (Scenario.by_ Scenario.lender 20) (Scenario.usdc 5000)
              Scenario.funded)
    as (w' & H & _ & Ht & _).
  - apply reachable_funded.
  - discriminate.
  - reflexivity.
  - vm_compute. discriminate.
  - vm_compute. discriminate.
  - exists w'. split; [exact H|]. rewrite Ht. vm_compute. reflexivity.
Defined.

(** X11.  Lenders earn nothing.  No function of the pool writes
    [interestEarned]: in every reachable state it is 0 for every lender,
    also after borrowers have repaid with interest. *)
Theorem lenders_earn_no_interest (d : address) (w : World) (a : address) :
  reachable d w -> interestEarned (getLenderInfo w a) = 0.
Proof.
  intros Hw. apply reachable_no_interest in Hw. apply Hw.
Qed.

Lemma lenders_earn_no_interest_witness :
  interestEarned (getLenderInfo Scenario.one_repaid Scenario.lender) = 0.
Proof.
  apply (lenders_earn_no_interest Scenario.deployer).
  apply reachable_one_repaid.
Defined.

(** X12.  Nobody else can touch a position.  Over any sequence of
    transactions of other callers, a principal's lender record, list of
    loans and count of active loans stay as they were. *)
Theorem others_leave_my_position (tr : list (env * call)) (w : World)
  (a : address) :
  Forall (fun ec => msg_sender (fst ec) <> a) tr ->
  getLenderInfo (run tr w) a = getLenderInfo w a
  /\ getBorrowerLoans (run tr w) a = getBorrowerLoans w a
  /\ activeLoanCount (pool (run tr w)) a = activeLoanCount (pool w) a.
Proof. apply run_by_others. Qed.

Lemma others_leave_my_position_witness :
  getLenderInfo (run (Scenario.cycle 100 0) Scenario.funded) Scenario.lender
  = getLenderInfo Scenario.funded Scenario.lender.
Proof.
  destruct (others_leave_my_position (Scenario.cycle 100 0) Scenario.funded
              Scenario.lender)
    as (H & _).
  - cbv [Scenario.cycle Scenario.borrow Scenario.fund_repayment app].
    repeat (apply Forall_cons; [discriminate|]). apply Forall_nil.
  - exact H.
Defined.

(** X13.  Without [emergencyWithdraw] the pool covers its books.  In every
    execution driven by users in which [emergencyWithdraw] is not called,
    the tokens the pool holds plus what it lent out are at least the
    deposits plus the repayments; so the solvency relation of the data
    model holds. *)
Theorem pool_covers_its_books (d : address) (w : World) :
  user_driven no_emergency d w -> books_covered w /\ solvent w.
Proof.
  intros Hw. apply user_driven_covered in Hw as [Hb _].
  split; [exact Hb|now apply covered_solvent].
Qed.

Lemma pool_covers_its_books_witness : solvent Scenario.one_repaid.
Proof.
  destruct (pool_covers_its_books Scenario.deployer Scenario.one_repaid)
    as (_ & H).
  - apply user_driven_one_repaid.
  - exact H.
Defined.

(** ** The pool: loans *)

(** X14.  Every loan has the terms [requestLoan] gave it.  In every
    reachable state each loan in a borrower's list names that borrower, has
    an amount within the limits, falls due 30 days after its start, carries
    an interest of 5, 6, 8 or 10 percent of the amount, and is repaid
    exactly when it is not active. *)
Theorem every_loan_has_its_terms (d : address) (w : World) (b : address)
  (l : Loan) :
  reachable d w -> In l (getBorrowerLoans w b) -> loan_terms b l.
Proof.
  intros Hw Hin. apply reachable_loan_terms in Hw. now apply Hw.
Qed.

Lemma every_loan_has_its_terms_witness :
  loan_terms Scenario.borrower
    (mkLoan (Scenario.usdc 100) (Scenario.usdc 8) 100 (100 + LOAN_DURATION)
       true false Scenario.borrower).
Proof.
  apply (every_loan_has_its_terms Scenario.deployer Scenario.one_loan).
  - apply reachable_one_loan.
  - vm_compute. left. reflexivity.
Defined.

(** X15.  A loan past its grace period is stuck.  Once the block time is
    past [dueDate] plus the grace period, no transaction changes the loan:
    it stays Active with its terms, and as long as it is there every
    [requestLoan] of its borrower reverts. *)
Theorem overdue_loan_is_stuck (d : address) (w : World) (b : address)
  (i : nat) (l : Loan) (tr : list (env * call)) :
  reachable d w ->
  nth_error (getBorrowerLoans w b) i = Some l -> status l = Active ->
  Forall (fun ec => msg_sender (fst ec) <> 0) tr ->
  Forall (fun ec => dueDate l + REPAYMENT_GRACE_PERIOD
                    < block_timestamp (fst ec)) tr ->
  nth_error (getBorrowerLoans (run tr w) b) i = Some l
  /\ forall e amt,
       msg_sender e = b -> is_revert (requestLoan e amt (run tr w)) = true.
Proof.
  unfold getBorrowerLoans. intros Hw Hn Hst Hnz Hlate.
  pose proof (run_keeps_overdue tr w b i l Hlate Hn) as Hk.
  split; [exact Hk|]. intros e amt <-.
  pose proof (reachable_run d tr w Hnz Hw) as Hw'.
  apply reachable_loans_counted in Hw'.
  destruct (Hw' (msg_sender e)) as [Hc _].
  assert (Ha : isActive l = true).
  { unfold status in Hst. destruct (isActive l); [reflexivity|].
    destruct (isRepaid l); discriminate. }
  pose proof (count_active_pos _ _ _ Hk Ha) as Hpos.
  unfold requestLoan, require.
  destruct (MIN_LOAN_AMOUNT <=? amt); [|reflexivity].
  destruct (amt <=? MAX_LOAN_AMOUNT); [|reflexivity].
  destruct (N.eqb_spec (activeLoanCount (pool (run tr w)) (msg_sender e)) 0)
    as [Hz|_]; [|reflexivity].
  rewrite Hc in Hz. lia.
Qed.

Lemma overdue_loan_is_stuck_witness :
  map status
    (getBorrowerLoans (run Cases.after_the_grace_period Scenario.one_loan)
       Scenario.borrower)
  = [ Active ].
Proof.
  destruct (overdue_loan_is_stuck Scenario.deployer Scenario.one_loan
              Scenario.borrower 0
              (mkLoan (Scenario.usdc 100) (Scenario.usdc 8) 100
                 (100 + LOAN_DURATION) true false Scenario.borrower)
              Cases.after_the_grace_period)
    as [Hk _].
  - apply reachable_one_loan.
  - vm_compute. reflexivity.
  - reflexivity.
  - unfold Cases.after_the_grace_period. senders_nonzero.
  - unfold Cases.after_the_grace_period.
    repeat (apply Forall_cons; [vm_compute; reflexivity|]). apply Forall_nil.
  - vm_compute. reflexivity.
Defined.

(** X16.  What a repayment does.  A [repayLoan] that succeeds in a
    reachable state found the loan Active and within its grace period; it
    leaves the loan Repaid with its terms, the borrower without an active
    loan, and the registry with one more repayment; the amount plus the
    interest moved from the borrower to the pool and was added to
    [totalRepaid]. *)
Theorem repayLoan_settles (d : address) (e : env) (i : N) (w w' : World) :
  reachable d w -> msg_sender e <> pool_address ->
  repayLoan e i w = Ok w' ->
  exists loan,
    nth_error (getBorrowerLoans w (msg_sender e)) (N.to_nat i) = Some loan
    /\ status loan = Active
    /\ block_timestamp e <= dueDate loan + REPAYMENT_GRACE_PERIOD
    /\ nth_error (getBorrowerLoans w' (msg_sender e)) (N.to_nat i)
       = Some (mkLoan (amount loan) (interestAmount loan) (startTime loan)
                 (dueDate loan) false true (borrower loan))
    /\ activeLoanCount (pool w') (msg_sender e) = 0
    /\ amount loan + interestAmount loan
       <= Token.balanceOf (usdcToken w) (msg_sender e)
    /\ Token.balanceOf (usdcToken w') (msg_sender e)
       = Token.balanceOf (usdcToken w) (msg_sender e)
         - (amount loan + interestAmount loan)
    /\ getAvailableLiquidity w'
       = getAvailableLiquidity w + (amount loan + interestAmount loan)
    /\ totalRepaid (pool w')
       = totalRepaid (pool w) + (amount loan + interestAmount loan)
    /\ Registry.successfulRepayments
         (Registry.getProfile (creditRegistry w') (msg_sender e))
       = Registry.successfulRepayments
           (Registry.getProfile (creditRegistry w) (msg_sender e)) + 1.
Proof.
  unfold getBorrowerLoans, getAvailableLiquidity, Token.balanceOf,
    Registry.getProfile.
  intros Hw Hs H. apply reachable_loans_counted in Hw.
  destruct (Hw (msg_sender e)) as [_ Hone].
  pose proof (repayLoan_writes _ _ _ _ H) as H'. cbv zeta in H'.
  destruct H' as (loan & t & r & Hn & Ha & Hr & Ht & Hc & Hm & Hrec & Hu
                  & Hreg & Hp).
  exists loan. rewrite Hu, Hreg, Hp. cbn.
  apply transferFrom_moves in Hm as (_ & Hbal & _ & _ & Hmv & _).
  destruct (Hmv Hs) as [Hfrom Hto].
  apply recordRepayment_ok in Hrec as (_ & _ & t' & ->). cbn.
  rewrite !upd_same. cbn.
  split; [exact Hn|]. split; [unfold status; now rewrite Ha|].
  split; [exact Ht|].
  split.
  { eapply nth_error_set_nth_same. exact Hn. }
  repeat split; try assumption; try reflexivity. lia.
Qed.

Lemma repayLoan_settles_witness :
  activeLoanCount (pool Scenario.one_repaid) Scenario.borrower = 0.
Proof.
  destruct (repayLoan_settles Scenario.deployer
              (Scenario.by_ Scenario.borrower 103) 0 Cases.ready_to_repay
              Scenario.one_repaid)
    as (loan & _ & _ & _ & _ & Hc & _).
  - apply reachable_run; [|apply reachable_funded].
    cbv [Scenario.borrow Scenario.fund_repayment app]. senders_nonzero.
  - discriminate.
  - vm_compute. reflexivity.
  - exact Hc.
Defined.

(** X17.  What a loan request does.  A [requestLoan] that succeeds found a
    score of at least 60 and the amount in the pool; it appends one Active
    loan with the interest of the borrower's tier, due in 30 days, pays the
    amount out of the pool to the borrower, adds it to [totalBorrowed],
    counts one active loan and one more loan in the registry, and leaves
    the score. *)
Theorem requestLoan_pays_out (e : env) (amt : N) (w w' : World) :
  msg_sender e <> pool_address ->
  requestLoan e amt w = Ok w' ->
  MIN_CREDIT_SCORE <= Registry.getScore (creditRegistry w) (msg_sender e)
  /\ amt <= getAvailableLiquidity w
  /\ getBorrowerLoans w' (msg_sender e)
     = getBorrowerLoans w (msg_sender e)
       ++ [ mkLoan amt
              (amt * rateOf (Registry.getScore (creditRegistry w)
                               (msg_sender e)) / 100)
              (block_timestamp e) (block_timestamp e + LOAN_DURATION)
              true false (msg_sender e) ]
  /\ Token.balanceOf (usdcToken w') (msg_sender e)
     = Token.balanceOf (usdcToken w) (msg_sender e) + amt
  /\ getAvailableLiquidity w' = getAvailableLiquidity w - amt
  /\ totalBorrowed (pool w') = totalBorrowed (pool w) + amt
  /\ activeLoanCount (pool w') (msg_sender e) = 1
  /\ Registry.totalLoans
       (Registry.getProfile (creditRegistry w') (msg_sender e))
     = Registry.totalLoans
         (Registry.getProfile (creditRegistry w) (msg_sender e)) + 1
  /\ Registry.getScore (creditRegistry w') (msg_sender e)
     = Registry.getScore (creditRegistry w) (msg_sender e).
Proof.
  unfold getBorrowerLoans, getAvailableLiquidity, Token.balanceOf,
    Registry.getProfile.
  intros Hs H. pose proof (requestLoan_writes _ _ _ _ H) as H'.
  cbv zeta in H'.
  destruct H' as (_ & _ & Hsc & Hl & i & t & r & Hi & Ht & Hrec & ->).
  apply calculateInterest_ok in Hi. subst i.
  apply move_balances in Ht as (_ & _ & _ & _ & Hmv & _).
  destruct (Hmv (not_eq_sym Hs)) as [Hfrom Hto].
  apply recordLoan_ok in Hrec as (_ & Hact & ->).
  unfold Registry.getScore. cbn. rewrite !upd_same. cbn.
  unfold getAvailableLiquidity, Token.balanceOf in Hl.
  cbn in Hact. rewrite Hact. cbn.
  repeat split; try assumption; try reflexivity.
  unfold Registry.getScore in Hsc. rewrite Hact in Hsc. exact Hsc.
Qed.

Lemma requestLoan_pays_out_witness :
  getAvailableLiquidity Scenario.one_loan
  = getAvailableLiquidity Scenario.funded - Scenario.usdc 100.
Proof.
  destruct (requestLoan_pays_out (Scenario.by_ Scenario.borrower 100)
              (Scenario.usdc 100) Scenario.funded Scenario.one_loan)
    as (_ & _ & _ & _ & H & _).
  - discriminate.
  - vm_compute. reflexivity.
  - exact H.
Defined.

(** ** The badge *)

(** X18.  Tiers are monotone.  A higher score with at least as many
    repayments never gives a lower tier, in the order Bronze, Silver, Gold,
    Platinum; and the tier is Platinum exactly from score 90 with 10
    repayments. *)
Theorem tiers_are_monotone (sc sc' n n' : N) :
  sc <= sc' -> n <= n' ->
  tier_rank (Badge._determineTier sc n)
  <= tier_rank (Badge._determineTier sc' n')
  /\ (tier_rank (Badge._determineTier sc' n') = 3 <-> 90 <= sc' /\ 10 <= n').
Proof.
  intros Hs Hn. split; [now apply tier_rank_mono|].
  rewrite tier_rank_values.
  repeat match goal with
         | |- context [?a <=? ?b] =>
             destruct (N.leb_spec a b); cbn [andb]
         end; split; try discriminate; try lia; auto.
Qed.

Lemma tiers_are_monotone_witness :
  tier_rank (Badge._determineTier 75 5)
  <= tier_rank (Badge._determineTier 95 12).
Proof.
  destruct (tiers_are_monotone 75 95 5 12) as (H & _).
  - vm_compute. discriminate.
  - vm_compute. discriminate.
  - exact H.
Defined.

(** X19.  The badge ledger.  In every reachable state the tokens that exist
    are exactly those numbered from 1 up to [nextTokenId]; [getBadgeData]
    returns the record of such a token and fails with "Token does not
    exist" for every other id; each token's holder is flagged, holds no
    other token, and the record carries a score of at least 60 and the tier
    that its score and count determine. *)
Theorem badge_ledger_holds (d : address) (w : World) (id : N) :
  reachable d w ->
  badge_ledger (badge w)
  /\ getBadgeData (badge w) id
     = if (1 <=? id) && (id <? Badge.nextTokenId (badge w))
       then Ok (Badge.badges (badge w) id)
       else Revert (Error "Token does not exist").
Proof.
  intros Hw. apply reachable_badge_ledger in Hw. split; [exact Hw|].
  destruct Hw as (_ & Hown & _). specialize (Hown id).
  unfold getBadgeData, require.
  destruct (N.eqb_spec (Badge.owners (badge w) id) 0) as [Hz|Hnz]; cbn [negb].
  - destruct (N.leb_spec 1 id); [|reflexivity].
    destruct (N.ltb_spec id (Badge.nextTokenId (badge w))); [|reflexivity].
    exfalso. apply Hown; [lia|exact Hz].
  - apply Hown in Hnz as [H1 H2].
    apply N.leb_le in H1. apply N.ltb_lt in H2. now rewrite H1, H2.
Qed.

Lemma badge_ledger_holds_witness :
  getBadgeData (badge Scenario.three_repaid) 2
  = Revert (Error "Token does not exist").
Proof.
  destruct (badge_ledger_holds Scenario.deployer Scenario.three_repaid 2)
    as (_ & H).
  - apply reachable_three_repaid.
  - rewrite H. vm_compute. reflexivity.
Defined.

(** X20.  A badge is for good and is a snapshot.  Whatever is called after
    a mint, by whomever, the token keeps its holder and its record (the
    score on the badge is the score at the mint, also when the registry's
    score changes later), the holder stays flagged, and every further
    [mintBadge] to that holder reverts. *)
Theorem badge_is_permanent (d : address) (w : World) (t : N)
  (tr : list (env * call)) :
  reachable d w -> Badge.owners (badge w) t <> 0 ->
  Forall (fun ec => msg_sender (fst ec) <> 0) tr ->
  Badge.owners (badge (run tr w)) t = Badge.owners (badge w) t
  /\ getBadgeData (badge (run tr w)) t = getBadgeData (badge w) t
  /\ Badge.hasSenteBadge (badge (run tr w)) (Badge.owners (badge w) t) = true
  /\ forall e sc n,
       is_revert
         (Badge.mintBadge e (Badge.owners (badge w) t) sc n
            (badge (run tr w))) = true.
Proof.
  intros Hw Ht Htr. apply reachable_badge_ledger in Hw.
  destruct Hw as (_ & _ & Hdata & _). destruct (Hdata t Ht) as (Hh & _).
  destruct (run_keeps_badge tr w t Htr Ht Hh) as (Ho & Hb & Hf).
  split; [exact Ho|]. split; [|split; [exact Hf|]].
  - unfold getBadgeData. now rewrite Ho, Hb.
  - intros e sc n. unfold Badge.mintBadge, require.
    unfold Badge.hasSenteBadge in Hf. rewrite Hf. cbn [negb].
    destruct (_ || _)%bool; [|reflexivity].
    destruct (negb _); reflexivity.
Qed.

Lemma badge_is_permanent_witness :
  getBadgeData (badge (run Cases.score_lowered Scenario.three_repaid)) 1
  = getBadgeData (badge Scenario.three_repaid) 1.
Proof.
  destruct (badge_is_permanent Scenario.deployer Scenario.three_repaid 1
              Cases.score_lowered)
    as (_ & H & _).
  - apply reachable_three_repaid.
  - vm_compute. discriminate.
  - unfold Cases.score_lowered. senders_nonzero.
  - exact H.
Defined.

(** X21.  [mintBadge] and [getBadgeData] round trip.  After a [mintBadge]
    that succeeded, [getBadgeData] of the id it returned gives the score and
    count that were passed, the block time and the tier of [_determineTier];
    the id did not exist before and is the old [nextTokenId]; the receiver
    has a badge and a balance one higher; every other token reads as
    before. *)
Theorem mintBadge_then_getBadgeData (e : env) (to : address) (sc n id : N)
  (s s' : Badge.State) :
  Badge.mintBadge e to sc n s = Ok (id, s') ->
  id = Badge.nextTokenId s
  /\ getBadgeData s id = Revert (Error "Token does not exist")
  /\ getBadgeData s' id
     = Ok (Badge.mkBadgeData sc n (block_timestamp e)
             (Badge._determineTier sc n))
  /\ Badge.hasSenteBadge s to = false
  /\ Badge.hasSenteBadge s' to = true
  /\ Badge.balanceOf s' to = Badge.balanceOf s to + 1
  /\ forall id', id' <> id -> getBadgeData s' id' = getBadgeData s id'.
Proof.
  intros H. apply mintBadge_writes in H
    as (_ & Hto & Hno & _ & _ & Hz & _ & -> & ->).
  unfold getBadgeData, Badge.hasSenteBadge, Badge.balanceOf, require.
  cbn. rewrite Hz, !N.eqb_refl, !upd_same. cbn.
  apply N.eqb_neq in Hto. rewrite Hto. cbn.
  repeat split; try assumption; try reflexivity.
  intros id' Hne. apply N.eqb_neq in Hne. now rewrite Hne.
Qed.

Lemma mintBadge_then_getBadgeData_witness :
  exists s',
    Badge.mintBadge (Scenario.by_ Scenario.deployer 20) Scenario.lender 95 12
      (badge Scenario.funded) = Ok (1, s')
    /\ getBadgeData s' 1 = Ok (Badge.mkBadgeData 95 12 20 "Platinum").
Proof.
  destruct (Badge.mintBadge (Scenario.by_ Scenario.deployer 20)
              Scenario.lender 95 12 (badge Scenario.funded))
    as [[id s']|err] eqn:Hm; [|vm_compute in Hm; discriminate Hm].
  destruct (mintBadge_then_getBadgeData _ _ _ _ _ _ _ Hm)
    as (Hid & _ & Hg & _).
  assert (Hone : id = 1) by (rewrite Hid; vm_compute; reflexivity).
  subst id. exists s'. split; [reflexivity|exact Hg].
Defined.

(** X22.  What [mintBadge] asks for.  In a reachable state whose token
    counter is not at the top of its type, [mintBadge] succeeds exactly
    when the caller is an authorized minter or the owner, the receiver is
    not the zero address, has no badge yet and accepts the token, and the
    score is at least 60. *)
Theorem mintBadge_accepts_exactly (d : address) (w : World) (e : env)
  (to : address) (sc n : N) :
  reachable d w -> Badge.nextTokenId (badge w) < MAX_UINT256 ->
  (exists id s', Badge.mintBadge e to sc n (badge w) = Ok (id, s'))
  <-> ((Badge.authorizedMinters (badge w) (msg_sender e) = true
        \/ msg_sender e = Badge.owner (badge w))
       /\ to <> 0 /\ Badge.hasSenteBadge (badge w) to = false /\ 60 <= sc
       /\ erc721_receiver e to = true).
Proof.
  intros Hw Hn. apply reachable_badge_ledger in Hw.
  destruct Hw as (_ & Hown & _).
  assert (Hfree : Badge.owners (badge w) (Badge.nextTokenId (badge w)) = 0).
  { destruct (N.eq_dec (Badge.owners (badge w) (Badge.nextTokenId (badge w)))
                0) as [Hz|Hnz]; [exact Hz|].
    apply Hown in Hnz. lia. }
  split.
  - intros (id & s' & H).
    apply mintBadge_writes in H as (Ha & Hto & Hno & Hsc & _ & _ & Hr & _).
    auto.
  - intros (Ha & Hto & Hno & Hsc & Hr).
    destruct (mintBadge_accepts e to sc n (badge w) Ha Hto Hno Hsc)
      as [s' H]; [lia|exact Hfree|exact Hr|].
    eauto.
Qed.

Lemma mintBadge_accepts_exactly_witness :
  exists id s',
    Badge.mintBadge (Scenario.by_ Scenario.deployer 20) Scenario.lender 60 0
      (badge Scenario.funded) = Ok (id, s').
Proof.
  apply (mintBadge_accepts_exactly Scenario.deployer Scenario.funded
           (Scenario.by_ Scenario.deployer 20) Scenario.lender 60 0).
  - apply reachable_funded.
  - vm_compute. reflexivity.
  - split; [right; reflexivity|]. split; [discriminate|].
    split; [vm_compute; reflexivity|]. split; [discriminate|reflexivity].
Defined.

(** X23.  [_toString] prints the decimal numeral.  For every 256-bit value
    [_toString] returns (neither loop runs on, and no checked operation and
    no buffer index fails); reading the result as a decimal numeral gives
    the value back; and the numeral has no leading zero. *)
Theorem toString_roundtrip (v : N) :
  v <= MAX_UINT256 ->
  exists s,
    _toString v = Ok s
    /\ parse_decimal s = Some v
    /\ (v <> 0 ->
        match list_ascii_of_string s with
        | [] => False
        | c :: _ => digit_value c <> Some 0
        end).
Proof.
  intros Hm. destruct (N.eq_dec v 0) as [->|Hv].
  - exists "0"%string. split; [reflexivity|]. split; [reflexivity|].
    intros H. now elim H.
  - destruct (toString_returns v Hv Hm) as (d & Hd & Hnz & H).
    exists (string_of_list_ascii (digits_of d v)). split; [exact H|].
    unfold parse_decimal. rewrite list_ascii_of_string_of_list_ascii.
    pose proof (parse_digits_of d v Hd) as Hp.
    pose proof (digits_of_head d v Hd) as Hh.
    destruct (digits_of d v) as [|c t] eqn:Hds.
    + contradiction.
    + split; [exact Hp|]. intros _. exact Hh.
Qed.

Lemma toString_roundtrip_witness :
  exists s, _toString MAX_UINT256 = Ok s /\ parse_decimal s = Some MAX_UINT256.
Proof.
  destruct (toString_roundtrip MAX_UINT256) as (s & H & Hp & _).
  - apply N.le_refl.
  - exists s. split; assumption.
Defined.

(** ** The contracts together *)

(** X24.  Administration is for the owners.  A transaction of a caller who
    owns neither the pool nor the badge contract, whatever it calls, leaves
    the pool's [senteBadge] and owner and the badge contract's authorized
    minters and owner as they were. *)
Theorem administration_needs_the_owner (e : env) (c : call) (w : World) :
  msg_sender e <> owner (pool w) -> msg_sender e <> Badge.owner (badge w) ->
  senteBadge (pool (step e c w)) = senteBadge (pool w)
  /\ owner (pool (step e c w)) = owner (pool w)
  /\ Badge.authorizedMinters (badge (step e c w))
     = Badge.authorizedMinters (badge w)
  /\ Badge.owner (badge (step e c w)) = Badge.owner (badge w).
Proof.
  intros Hp Hb. apply step_invariant; [|auto].
  intros w' H. now apply (exec_admin_frame e c w).
Qed.

Lemma administration_needs_the_owner_witness :
  senteBadge
    (pool (step (Scenario.by_ Scenario.borrower 50) (SetSenteBadge 7)
             Scenario.funded))
  = senteBadge (pool Scenario.funded).
Proof.
  destruct (administration_needs_the_owner (Scenario.by_ Scenario.borrower 50)
              (SetSenteBadge 7) Scenario.funded)
    as (H & _).
  - vm_compute. discriminate.
  - vm_compute. discriminate.
  - exact H.
Defined.

(** X25.  A badge that is earned is minted.  When a [repayLoan] succeeds in
    a reachable state whose pool is wired to the badge contract, and the
    borrower then has three repayments and no default, the borrower holds a
    badge, exactly one. *)
Theorem earned_badge_is_minted (d : address) (e : env) (i : N)
  (w w' : World) :
  reachable d w -> repayLoan e i w = Ok w' ->
  senteBadge (pool w) = badge_address -> eligible w' (msg_sender e) ->
  Badge.hasSenteBadge (badge w') (msg_sender e) = true
  /\ Badge.balanceOf (badge w') (msg_sender e) = 1.
Proof.
  intros Hw H Hs He. apply reachable_badges_flagged in Hw.
  pose proof (repayLoan_gives_badge e i w w' H Hw Hs He) as Hb.
  split; [exact Hb|].
  assert (Hf : badges_flagged (badge w')).
  { apply repayLoan_badge in H as [->|(e' & sc & n & id & Hm)];
      [exact Hw|eapply mint_keeps_flagged; eassumption]. }
  unfold Badge.balanceOf. now rewrite (Hf (msg_sender e)), Hb.
Qed.

Lemma earned_badge_is_minted_witness :
  Badge.balanceOf (badge Scenario.three_repaid) Scenario.borrower = 1.
Proof.
  destruct (earned_badge_is_minted Scenario.deployer
              (Scenario.by_ Scenario.borrower 303) 2 Cases.third_repayment_due
              Scenario.three_repaid)
    as (_ & H).
  - apply reachable_run; [|apply reachable_funded].
    cbv [Scenario.cycle Scenario.borrow Scenario.fund_repayment app].
    senders_nonzero.
  - vm_compute. reflexivity.
  - vm_compute. reflexivity.
  - split; vm_compute; [discriminate|reflexivity].
  - exact H.
Defined.

(** X26.  What [requestLoan] asks for.  With the pool an oracle of the
    registry and the three sums within their type, [requestLoan] succeeds
    exactly when the amount is within the limits, the caller has no active
    loan, the caller's score is at least 60 and the pool holds the amount;
    a score of 60 implies a profile, so the registry never refuses the
    record. *)
Theorem requestLoan_accepts_exactly (e : env) (amt : N) (w : World) :
  Registry.roles (creditRegistry w) Registry.ORACLE_ROLE pool_address = true ->
  block_timestamp e + LOAN_DURATION <= MAX_UINT256 ->
  totalBorrowed (pool w) + amt <= MAX_UINT256 ->
  Registry.totalLoans
    (Registry.getProfile (creditRegistry w) (msg_sender e)) + 1
  <= MAX_UINT256 ->
  (exists w', requestLoan e amt w = Ok w')
  <-> (MIN_LOAN_AMOUNT <= amt <= MAX_LOAN_AMOUNT
       /\ activeLoanCount (pool w) (msg_sender e) = 0
       /\ MIN_CREDIT_SCORE
          <= Registry.getScore (creditRegistry w) (msg_sender e)
       /\ amt <= getAvailableLiquidity w).
Proof.
  unfold Registry.getProfile. intros Hr Hts Htb Htl. split.
  - intros (w' & H). pose proof (requestLoan_writes _ _ _ _ H) as H'.
    cbv zeta in H'. destruct H' as (Ha & Hc & Hsc & Hl & _). auto.
  - intros (Ha & Hc & Hsc & Hl). now apply requestLoan_accepts.
Qed.

Lemma requestLoan_accepts_exactly_witness :
  exists w',
    requestLoan (Scenario.by_ Scenario.borrower 100) (Scenario.usdc 1000)
      Scenario.funded = Ok w'.
Proof.
  apply (requestLoan_accepts_exactly (Scenario.by_ Scenario.borrower 100)
           (Scenario.usdc 1000) Scenario.funded).
  - vm_compute. reflexivity.
  - vm_compute. discriminate.
  - vm_compute. discriminate.
  - vm_compute. discriminate.
  - split; [vm_compute; split; discriminate|].
    split; [vm_compute; reflexivity|].
    split; vm_compute; discriminate.
Defined.

(** X27.  The pool must be an oracle.  While the pool's address does not
    hold the oracle role of the registry, every [requestLoan] and every
    [repayLoan] reverts, for every caller and argument. *)
Theorem pool_must_be_an_oracle (e : env) (amt i : N) (w : World) :
  Registry.roles (creditRegistry w) Registry.ORACLE_ROLE pool_address = false ->
  is_revert (requestLoan e amt w) = true
  /\ is_revert (repayLoan e i w) = true.
Proof.
  intros Hr. destruct (pool_without_role e w Hr) as [H1 H2]. auto.
Qed.

Lemma pool_must_be_an_oracle_witness :
  (exists w',
      requestLoan (Scenario.by_ Scenario.borrower 200) (Scenario.usdc 100)
        Scenario.funded = Ok w')
  /\ requestLoan (Scenario.by_ Scenario.borrower 200) (Scenario.usdc 100)
       Cases.unwired
     = Revert (Custom "AccessControlUnauthorizedAccount")
  /\ is_revert
       (requestLoan (Scenario.by_ Scenario.borrower 200) (Scenario.usdc 100)
          Cases.unwired) = true
  /\ (exists w',
        repayLoan (Scenario.by_ Scenario.borrower 200) 0 Cases.ready_to_repay
        = Ok w')
  /\ repayLoan (Scenario.by_ Scenario.borrower 200) 0 Cases.unwired_mid_loan
     = Revert (Custom "AccessControlUnauthorizedAccount")
  /\ is_revert
       (repayLoan (Scenario.by_ Scenario.borrower 200) 0
          Cases.unwired_mid_loan) = true.
Proof.
  split.
  { destruct (requestLoan (Scenario.by_ Scenario.borrower 200)
                (Scenario.usdc 100) Scenario.funded) as [w'|err] eqn:H;
      [now exists w'|vm_compute in H; discriminate H]. }
  split; [vm_compute; reflexivity|]. split.
  { destruct (pool_must_be_an_oracle (Scenario.by_ Scenario.borrower 200)
                (Scenario.usdc 100) 0 Cases.unwired) as (H & _);
      [vm_compute; reflexivity|exact H]. }
  split.
  { destruct (repayLoan (Scenario.by_ Scenario.borrower 200) 0
                Cases.ready_to_repay) as [w'|err] eqn:H;
      [now exists w'|vm_compute in H; discriminate H]. }
  split; [vm_compute; reflexivity|].
  destruct (pool_must_be_an_oracle (Scenario.by_ Scenario.borrower 200)
              (Scenario.usdc 100) 0 Cases.unwired_mid_loan) as (_ & H);
    [vm_compute; reflexivity|exact H].
Defined.

End Extra.
